(** * Desktop Manager: window differencer, window store and rule engine

    A shallow embedding of the core of the desktop manager:

    - [src/core/event_monitor.py]: the polling loop of [EventMonitor], its
      snapshot differencer and [set_polling_interval];
    - [src/rules/config.py]: [_validate_rule], [load_rules],
      [get_enabled_rules], [sort_rules_by_priority];
    - [src/rules/actions.py]: [perform_action] and its five handlers;
    - [src/rules/engine.py]: [RuleEngine].

    Python dictionaries are association lists in insertion order, JSON data
    are terms of [value], exceptions are an explicit [Raise] outcome that
    keeps the state reached so far, and the operating system, the regular
    expression library and [os.path] are interfaces the development is
    parametric in.  The first part holds the definitions, the second part
    the lemmas and theorems. *)

From Stdlib Require Import ZArith String Ascii List Bool Lia SpecFloat Permutation Sorted.
From stdpp Require Import base tactics option list gmap strings pretty.

Set Warnings "-register-all".

Open Scope string_scope.
Open Scope list_scope.
Open Scope Z_scope.

(** ** Python values *)

(** The values that occur in rule files (JSON) and in window information
    dictionaries.  JSON numbers with a fractional part are not part of the
    model. *)
Inductive value :=
| VNone
| VBool (b : bool)
| VInt (z : Z)
| VStr (s : string)
| VList (l : list value)
| VDict (d : list (string * value)).

(** ** Dictionaries

    A [dict] keeps its keys in insertion order: assigning to a key that is
    present keeps its position, a new key goes to the end. *)
Section pydict.
Context {K V : Type} `{EqDecision K}.

Fixpoint dget (k : K) (d : list (K * V)) : option V :=
  match d with
  | [] => None
  | (k', v) :: d' => if decide (k = k') then Some v else dget k d'
  end.

Definition dmem (k : K) (d : list (K * V)) : bool :=
  match dget k d with Some _ => true | None => false end.

Fixpoint dset (k : K) (v : V) (d : list (K * V)) : list (K * V) :=
  match d with
  | [] => [(k, v)]
  | (k', v') :: d' =>
      if decide (k = k') then (k, v) :: d' else (k', v') :: dset k v d'
  end.

Fixpoint ddel (k : K) (d : list (K * V)) : list (K * V) :=
  match d with
  | [] => []
  | (k', v') :: d' =>
      if decide (k = k') then ddel k d' else (k', v') :: ddel k d'
  end.

(** [d.update(other)] *)
Definition dupdate (d other : list (K * V)) : list (K * V) :=
  fold_left (fun acc kv => dset kv.1 kv.2 acc) other d.

Definition dkeys (d : list (K * V)) : list K := map fst d.
End pydict.

Definition pydict := list (string * value).

(** [d.get(k, default)] on a dictionary *)
Definition dget_default (k : string) (default : value) (d : pydict) : value :=
  match dget k d with Some v => v | None => default end.

(** Python's [==] on the modelled values: [True == 1], lists compare
    element by element, dictionaries key by key whatever the order. *)
Fixpoint py_eq (a b : value) {struct a} : bool :=
  match a, b with
  | VNone, VNone => true
  | VBool x, VBool y => Bool.eqb x y
  | VBool x, VInt y => Z.eqb (Z.b2z x) y
  | VInt x, VBool y => Z.eqb x (Z.b2z y)
  | VInt x, VInt y => Z.eqb x y
  | VStr x, VStr y => String.eqb x y
  | VList l1, VList l2 =>
      (fix go (l1 l2 : list value) : bool :=
         match l1, l2 with
         | [], [] => true
         | x :: l1', y :: l2' => py_eq x y && go l1' l2'
         | _, _ => false
         end) l1 l2
  | VDict d1, VDict d2 =>
      Nat.eqb (length d1) (length d2) &&
      (fix go (d : list (string * value)) : bool :=
         match d with
         | [] => true
         | (k, v) :: d' =>
             match dget k d2 with
             | Some v' => py_eq v v'
             | None => false
             end && go d'
         end) d1
  | _, _ => false
  end.

(** Truth value of an object, as tested by [if x:] *)
Definition truthy (v : value) : bool :=
  match v with
  | VNone => false
  | VBool b => b
  | VInt z => negb (Z.eqb z 0)
  | VStr s => negb (String.eqb s "")
  | VList l => match l with [] => false | _ => true end
  | VDict d => match d with [] => false | _ => true end
  end.

(** ** Exceptions and effects *)

Inductive exn :=
| KeyError | TypeError | AttributeError | ValueError | ReError | OSError.

Inductive result (A : Type) :=
| Ok (a : A)
| Raise (e : exn).
Arguments Ok {A} a.
Arguments Raise {A} e.

(** A computation over a state [S]: when it raises, the state changes made
    before the exception stay. *)
Definition prog (S A : Type) := S -> result A * S.

Definition ret {S A} (a : A) : prog S A := fun s => (Ok a, s).
Definition raise {S A} (e : exn) : prog S A := fun s => (Raise e, s).
Definition bind {S A B} (m : prog S A) (f : A -> prog S B) : prog S B :=
  fun s => match m s with
           | (Ok a, s') => f a s'
           | (Raise e, s') => (Raise e, s')
           end.
Definition gets {S A} (f : S -> A) : prog S A := fun s => (Ok (f s), s).
Definition modify {S} (f : S -> S) : prog S unit := fun s => (Ok tt, f s).
(** a pure expression that may raise *)
Definition lift_result {S A} (r : result A) : prog S A := fun s => (r, s).

(** [try: body  except Exception as e: handler] *)
Definition try_except {S A} (body : prog S A) (handler : exn -> prog S A)
  : prog S A :=
  fun s => match body s with
           | (Ok a, s') => (Ok a, s')
           | (Raise e, s') => handler e s'
           end.

Notation "'let!' x ':=' m 'in' k" := (bind m (fun x => k))
  (at level 10, x name, m at level 100, k at level 200).
Notation "'run!' m 'in' k" := (bind m (fun _ => k))
  (at level 10, m at level 100, k at level 200).

(** [for x in l: body x]; an exception leaves the loop. *)
Fixpoint for_each {S A} (body : A -> prog S unit) (l : list A) : prog S unit :=
  match l with
  | [] => ret tt
  | x :: l' => run! body x in for_each body l'
  end.

(** Pure counterpart of [bind] for expressions that may raise. *)
Definition rbind {A B} (r : result A) (f : A -> result B) : result B :=
  match r with Ok a => f a | Raise e => Raise e end.

(** [v.get(k, default)]: only dictionaries have the method. *)
Definition py_get (v : value) (k : string) (default : value) : result value :=
  match v with
  | VDict d => Ok (dget_default k default d)
  | _ => Raise AttributeError
  end.

(** [v[k]] with a string key [k] *)
Definition py_subscript (v : value) (k : string) : result value :=
  match v with
  | VDict d => match dget k d with Some x => Ok x | None => Raise KeyError end
  | _ => Raise TypeError
  end.

(** The logger: a level and the text of the message, with the interpolated
    fields left as written in the source. *)
Inductive level := DEBUG | INFO | WARNING | ERROR.
Definition log_entry := (level * string)%type.

Definition logging (lvl : level) (msg : string) : prog (list log_entry) unit :=
  modify (fun l => l ++ [(lvl, msg)]).

(** ** Library functions the code calls

    [re.search], [str.lower], [os.path.basename] and the builtin [sorted]
    belong to Python, not to the repository: the development is parametric
    in them.  [re_search pattern text] raises for a pattern that does not
    compile; [sorted_other] is [sorted(.., key=.., reverse=True)] on a list
    decorated with keys that are not all integers (an order on strings, a
    [TypeError] on keys that do not compare): whatever it does, a list it
    returns is a rearrangement of the one it was given. *)
Class PyLib := {
  re_search : string -> string -> result bool;
  str_lower : string -> string;
  os_path_basename : string -> string;
  sorted_other : list (value * value) -> result (list value);
  sorted_other_perm : forall keyed sorted,
    sorted_other keyed = Ok sorted -> Permutation (map snd keyed) sorted;
}.

(** ** src/rules/config.py *)

Fixpoint is_substring (p s : string) : bool :=
  String.prefix p s ||
  match s with
  | EmptyString => false
  | String _ s' => is_substring p s'
  end.

(** [field in container] for a string [field] *)
Definition py_contains (field : string) (container : value) : result bool :=
  match container with
  | VDict d => Ok (dmem field d)
  | VList l => Ok (existsb (fun x => py_eq x (VStr field)) l)
  | VStr s => Ok (is_substring field s)
  | _ => Raise TypeError
  end.

Definition isinstance_dict (v : value) : bool :=
  match v with VDict _ => true | _ => false end.

Definition required_fields : list string :=
  ["name"; "enabled"; "trigger"; "action"].

Definition valid_event_types : list string :=
  ["CREATE"; "DESTROY"; "SHOW"; "HIDE"; "FOREGROUND"; "NAMECHANGE"].

Definition valid_action_types : list string :=
  ["MINIMIZE_OTHERS_OF_SAME_APP"; "CLOSE_DUPLICATE_PATH";
   "BRING_TO_FOREGROUND"; "CLOSE_WINDOW"; "HIDE_WINDOW"].

(** [v in names] for a list of string literals *)
Definition in_names (v : value) (names : list string) : bool :=
  existsb (fun n => py_eq v (VStr n)) names.

(** The loop over [required_fields]: [Ok true] when every field is found,
    [Ok false] after the warning of the first missing one. *)
Fixpoint check_required (fields : list string) (rule : value)
  : prog (list log_entry) bool :=
  match fields with
  | [] => ret true
  | field :: rest =>
      let! present := lift_result (py_contains field rule) in
      if negb present then
        run! logging WARNING "Rule {index}: Missing required field '{field}'" in
        ret false
      else check_required rest rule
  end.

Definition _validate_rule_body (rule : value) : prog (list log_entry) bool :=
  let! all_present := check_required required_fields rule in
  if negb all_present then ret false else
  let! trigger := lift_result (py_get rule "trigger" (VDict [])) in
  if negb (isinstance_dict trigger) then
    run! logging WARNING "Rule {index}: Invalid trigger structure" in ret false
  else
  let! action := lift_result (py_get rule "action" (VDict [])) in
  if negb (isinstance_dict action) then
    run! logging WARNING "Rule {index}: Invalid action structure" in ret false
  else
  let! has_event := lift_result (py_contains "event_type" trigger) in
  if negb has_event then
    run! logging WARNING "Rule {index}: Missing event_type in trigger" in
    ret false
  else
  let! has_type := lift_result (py_contains "type" action) in
  if negb has_type then
    run! logging WARNING "Rule {index}: Missing type in action" in ret false
  else
  let! event_type := lift_result (py_subscript trigger "event_type") in
  if negb (in_names event_type valid_event_types) then
    run! logging WARNING "Rule {index}: Invalid event_type '{event_type}'" in
    ret false
  else
  let! action_type := lift_result (py_subscript action "type") in
  if negb (in_names action_type valid_action_types) then
    run! logging WARNING "Rule {index}: Invalid action type '{type}'" in
    ret false
  else ret true.

(** [index] only appears in the text of the warnings. *)
Definition _validate_rule (rule : value) (index : nat)
  : prog (list log_entry) bool :=
  try_except (_validate_rule_body rule)
    (fun _ =>
       run! logging WARNING "Rule {index}: Validation error: {e}" in
       ret false).

(** [for i, rule in enumerate(rules): if _validate_rule(rule, i): ...] *)
Fixpoint validate_each (i : nat) (rules : list value)
  : prog (list log_entry) (list value) :=
  match rules with
  | [] => ret []
  | rule :: rest =>
      let! ok := _validate_rule rule i in
      let! validated := validate_each (S i) rest in
      ret (if ok then rule :: validated else validated)
  end.

(** [load_rules] from the point where [json.load] has returned [rules]:
    reading and parsing the file is outside the model. *)
Definition load_rules (rules : value) : prog (list log_entry) (list value) :=
  try_except
    (match rules with
     | VList l =>
         let! validated_rules := validate_each 0 l in
         run! logging INFO "Loaded {len(validated_rules)} rules from {filepath}" in
         ret validated_rules
     | _ =>
         run! logging ERROR "Invalid rules file format: expected list, got {type(rules)}" in
         raise ValueError
     end)
    (fun e =>
       run! logging ERROR "Error loading rules from {filepath}: {e}" in
       raise e).

(** [[rule for rule in rules if rule.get('enabled', False)]] *)
Fixpoint get_enabled_rules (rules : list value) : result (list value) :=
  match rules with
  | [] => Ok []
  | rule :: rest =>
      rbind (py_get rule "enabled" (VBool false)) (fun enabled =>
      rbind (get_enabled_rules rest) (fun tail =>
      Ok (if truthy enabled then rule :: tail else tail)))
  end.

(** The key of [sort_rules_by_priority]: [x.get('priority', 0)] *)
Definition priority_key (rule : value) : result value :=
  py_get rule "priority" (VInt 0).

(** The keys [sorted] computes before it compares anything. *)
Fixpoint decorate (rules : list value) : result (list (value * value)) :=
  match rules with
  | [] => Ok []
  | rule :: rest =>
      rbind (priority_key rule) (fun k =>
      rbind (decorate rest) (fun tail => Ok ((k, rule) :: tail)))
  end.

(** An integer key: [int], or [bool], which Python orders as 0 and 1. *)
Definition int_of_value (v : value) : option Z :=
  match v with
  | VInt z => Some z
  | VBool b => Some (Z.b2z b)
  | _ => None
  end.

Fixpoint int_keys (l : list (value * value)) : option (list (Z * value)) :=
  match l with
  | [] => Some []
  | (k, rule) :: rest =>
      match int_of_value k, int_keys rest with
      | Some z, Some tail => Some ((z, rule) :: tail)
      | _, _ => None
      end
  end.

(** [sorted(.., reverse=True)] on integer keys.  The builtin is stable
    also when reversed, and a stable sort has one possible result, which
    this insertion sort computes: an element goes in front of the first
    later element whose key is not greater. *)
Fixpoint insert_desc {A} (x : Z * A) (l : list (Z * A)) : list (Z * A) :=
  match l with
  | [] => [x]
  | y :: l' => if x.1 <? y.1 then y :: insert_desc x l' else x :: y :: l'
  end.

Definition sorted_desc {A} (l : list (Z * A)) : list (Z * A) :=
  foldr insert_desc [] l.

Definition sort_rules_by_priority `{PyLib} (rules : list value)
  : result (list value) :=
  rbind (decorate rules) (fun keyed =>
  match int_keys keyed with
  | Some l => Ok (map snd (sorted_desc l))
  | None =>
      match keyed with
      | [] | [_] => Ok (map snd keyed)
      | _ => sorted_other keyed
      end
  end).

(** [create_rule]: the record, with its keys in the order of the literal *)
Definition create_rule (name enabled trigger action priority description : value)
  : value :=
  VDict [("name", name); ("enabled", enabled); ("trigger", trigger);
         ("action", action); ("priority", priority);
         ("description", description)].

(** A dictionary that is changed in place is an object: whoever has it
    sees the change.  The model names an object by a reference and keeps
    what the objects hold in one place.  [enable_rule] and [disable_rule]
    are given a list of rules, that is of references: two places of the
    list can have one and the same dictionary. *)
Definition ref := nat.

(** What the rule of a reference is; a record that is no dictionary is a
    value like another. *)
Definition rule_at (r : ref) (objs : list (ref * value)) : value :=
  default VNone (dget r objs).

(** The loop of [enable_rule] and [disable_rule]: the first rule named
    [rule_name], with its reference, or [None] when the loop ends without
    one.  [rule.get] raises on a record that is not a dictionary. *)
Fixpoint first_named (rule_name : value) (rules : list ref)
    (objs : list (ref * value)) : result (option (ref * pydict)) :=
  match rules with
  | [] => Ok None
  | r :: rest =>
      match rule_at r objs with
      | VDict d =>
          if py_eq (dget_default "name" VNone d) rule_name then Ok (Some (r, d))
          else first_named rule_name rest objs
      | _ => Raise AttributeError
      end
  end.

(** The state of [enable_rule] and [disable_rule]: what the rules hold,
    where [rule['enabled'] = ...] changes the dictionary that was found,
    and the log. *)
Definition toggle_rule (enabled : bool) (done : string) (rules : list ref)
    (rule_name : value) : prog (list (ref * value) * list log_entry) bool :=
  let! objs := gets fst in
  let! found := lift_result (first_named rule_name rules objs) in
  match found with
  | Some (r, d) =>
      run! modify (fun s : list (ref * value) * list log_entry =>
                     (dset r (VDict (dset "enabled" (VBool enabled) d)) s.1,
                      s.2 ++ [(INFO, done)])) in
      ret true
  | None =>
      run! modify (fun s : list (ref * value) * list log_entry =>
                     (s.1, s.2 ++ [(WARNING, "Rule not found: {rule_name}")])) in
      ret false
  end.

Definition enable_rule
  : list ref -> value -> prog (list (ref * value) * list log_entry) bool :=
  toggle_rule true "Enabled rule: {rule_name}".

Definition disable_rule
  : list ref -> value -> prog (list (ref * value) * list log_entry) bool :=
  toggle_rule false "Disabled rule: {rule_name}".

(** What [load_rules] finds at [filepath]: no file, a file that cannot be
    opened or read, a file that is not JSON, or the value [json.load]
    returns. *)
Inductive file_content :=
| NoFile
| Unreadable (e : exn)
| InvalidJSON
| Parsed (rules : value).

(** [load_rules(filepath)] from its first line.  The missing file is
    logged twice, by the test and by the last handler, which the
    [FileNotFoundError] passes through; [json.JSONDecodeError] is a
    [ValueError] with a handler of its own. *)
Definition load_rules_from (file : file_content) : prog (list log_entry) (list value) :=
  match file with
  | NoFile =>
      run! logging ERROR "Rules file not found: {filepath}" in
      run! logging ERROR "Error loading rules from {filepath}: {e}" in
      raise OSError
  | Unreadable e =>
      run! logging ERROR "Error loading rules from {filepath}: {e}" in
      raise e
  | InvalidJSON =>
      run! logging ERROR "Invalid JSON in rules file {filepath}: {e}" in
      raise ValueError
  | Parsed rules => load_rules rules
  end.

(** [get_default_rules]; [default_rules] is what is found at
    [config/default_rules.json]. *)
Definition get_default_rules (default_rules : file_content)
  : prog (list log_entry) (list value) :=
  try_except (load_rules_from default_rules)
    (fun _ =>
       run! logging ERROR "Error loading default rules: {e}" in
       ret []).

(** [ConfigManager.load_rules]; [user_rules] is what is found at
    [self.rules_file], whose [exists()] is tested first. *)
Definition ConfigManager_load_rules (user_rules default_rules : file_content)
  : prog (list log_entry) (list value) :=
  try_except
    (match user_rules with
     | NoFile => get_default_rules default_rules
     | _ => load_rules_from user_rules
     end)
    (fun _ =>
       run! logging ERROR "Error loading rules: {e}" in
       get_default_rules default_rules).

(** ** The operating system

    [World] is the state of the desktop.  Every call takes the world and
    returns the world it leaves, together with its result or the exception
    it raised.  The first group is [win32gui] as the polling loop calls it,
    the second [utils/win32_helpers.py], the third the primitives of
    [core/window_manager.py], which receive whatever the window
    information holds under ['hwnd']. *)
Class WindowAccess (World : Type) := {
  EnumWindows : World -> result (list Z) * World;
  IsWindowVisible : Z -> World -> result bool * World;
  GetParent : Z -> World -> result Z * World;
  GetWindowText : Z -> World -> result string * World;
  GetClassName : Z -> World -> result string * World;
  GetForegroundWindow : World -> result value * World;

  enum_top_level_windows : World -> result (list Z) * World;
  get_window_info : Z -> World -> result pydict * World;
  get_explorer_folder_path : value -> World -> result (option string) * World;
  enum_explorer_windows_with_paths : World -> result (list (Z * string)) * World;

  minimize_window : value -> World -> result bool * World;
  close_window : value -> World -> result bool * World;
  bring_to_foreground : value -> World -> result bool * World;
  hide_window : value -> World -> result bool * World;
}.

(** What lies outside the engine object: the desktop and the log. *)
Record outside (World : Type) := {
  os : World;
  log : list log_entry;
}.
Arguments os {World} _.
Arguments log {World} _.

Section actions.
Context {World : Type} `{WindowAccess World} `{PyLib}.

Definition os_call {A} (f : World -> result A * World) : prog (outside World) A :=
  fun o => let (r, w) := f (os o) in (r, {| os := w; log := log o |}).

Definition olog (lvl : level) (msg : string) : prog (outside World) unit :=
  modify (fun o => {| os := os o; log := log o ++ [(lvl, msg)] |}).

(** A loop that counts the iterations whose body reports success. *)
Fixpoint count_successes {A} (body : A -> prog (outside World) bool)
    (l : list A) : prog (outside World) Z :=
  match l with
  | [] => ret 0
  | x :: l' =>
      let! b := body x in
      let! n := count_successes body l' in
      ret ((if b then 1 else 0) + n)
  end.

(** [os.path.basename(v).lower()] *)
Definition basename_lower (v : value) : result string :=
  match v with
  | VStr s => Ok (str_lower (os_path_basename s))
  | _ => Raise TypeError
  end.

(** ** src/rules/actions.py *)

Definition _minimize_others_of_same_app (target_windows : list pydict)
    (new_window_info : pydict) : prog (outside World) bool :=
  try_except
    (match new_window_info with
     | [] =>
         run! olog WARNING "No new window info provided for MINIMIZE_OTHERS_OF_SAME_APP" in
         ret false
     | _ =>
         let new_window_hwnd := dget_default "hwnd" VNone new_window_info in
         let new_window_exe := dget_default "exe_path" (VStr "") new_window_info in
         if negb (truthy new_window_exe) then
           run! olog WARNING "No executable path found for new window" in
           ret false
         else
           let! new_exe_name := lift_result (basename_lower new_window_exe) in
           let! minimized_count :=
             count_successes (fun window_info =>
               let hwnd := dget_default "hwnd" VNone window_info in
               if py_eq hwnd new_window_hwnd then ret false else
               let window_exe := dget_default "exe_path" (VStr "") window_info in
               if truthy window_exe then
                 let! window_exe_name := lift_result (basename_lower window_exe) in
                 if String.eqb window_exe_name new_exe_name then
                   if truthy (dget_default "is_visible" (VBool false) window_info)
                      && truthy (dget_default "is_top_level" (VBool false) window_info)
                   then
                     let! ok := os_call (minimize_window hwnd) in
                     if ok then
                       run! olog INFO "Minimized window: {title} (HWND: {hwnd})" in
                       ret true
                     else
                       run! olog WARNING "Failed to minimize window {hwnd}" in
                       ret false
                   else ret false
                 else ret false
               else ret false) target_windows in
           run! olog INFO "Minimized {minimized_count} windows of {new_exe_name}" in
           ret (0 <? minimized_count)
     end)
    (fun _ =>
       run! olog ERROR "Error in _minimize_others_of_same_app: {e}" in
       ret false).

Definition _close_duplicate_path (target_windows : list pydict)
    (new_window_info : pydict) : prog (outside World) bool :=
  try_except
    (match new_window_info with
     | [] =>
         run! olog WARNING "No new window info provided for CLOSE_DUPLICATE_PATH" in
         ret false
     | _ =>
         let new_window_hwnd := dget_default "hwnd" VNone new_window_info in
         let new_window_class := dget_default "class_name" (VStr "") new_window_info in
         if negb (py_eq new_window_class (VStr "CabinetWClass")) then
           run! olog DEBUG "Not an explorer window, skipping duplicate path check" in
           ret false
         else
           let! new_window_path := os_call (get_explorer_folder_path new_window_hwnd) in
           match new_window_path with
           | None | Some "" =>
               run! olog WARNING "Could not determine folder path for new explorer window" in
               ret false
           | Some new_window_path =>
               run! olog INFO "New explorer window opened to: {new_window_path}" in
               let! explorer_windows := os_call enum_explorer_windows_with_paths in
               let duplicates :=
                 filter (fun win : Z * string =>
                           str_lower win.2 = str_lower new_window_path)
                        explorer_windows in
               if (length duplicates <=? 1)%nat then
                 run! olog INFO "No duplicates found for this folder window." in
                 ret false
               else
                 let! foreground_hwnd := os_call GetForegroundWindow in
                 let keep_hwnd :=
                   if existsb (fun d : Z * string => py_eq (VInt d.1) new_window_hwnd)
                              duplicates
                   then new_window_hwnd else foreground_hwnd in
                 let! closed_count :=
                   count_successes (fun win : Z * string =>
                     let hwnd := VInt win.1 in
                     if py_eq hwnd keep_hwnd then ret false else
                     let! ok := os_call (close_window hwnd) in
                     if ok then
                       run! olog INFO "Closed duplicate explorer window: {path} (HWND: {hwnd})" in
                       ret true
                     else
                       run! olog WARNING "Failed to close duplicate window {hwnd}" in
                       ret false) duplicates in
                 run! try_except
                        (run! os_call (bring_to_foreground keep_hwnd) in ret tt)
                        (fun _ => ret tt) in
                 run! olog INFO "Closed {closed_count} duplicate explorer windows (kept HWND: {keep_hwnd})" in
                 ret (0 <? closed_count)
           end
     end)
    (fun _ =>
       run! olog ERROR "Error in _close_duplicate_path: {e}" in
       ret false).

(** The three handlers that apply one primitive to every target. *)
Definition apply_to_all (primitive : value -> World -> result bool * World)
    (success failed summary error : string) (target_windows : list pydict)
  : prog (outside World) bool :=
  try_except
    (let! success_count :=
       count_successes (fun window_info =>
         let hwnd := dget_default "hwnd" VNone window_info in
         let! ok := os_call (primitive hwnd) in
         if ok then run! olog INFO success in ret true
         else run! olog WARNING failed in ret false) target_windows in
     run! olog INFO summary in
     ret (0 <? success_count))
    (fun _ => run! olog ERROR error in ret false).

Definition _bring_to_foreground : list pydict -> prog (outside World) bool :=
  apply_to_all bring_to_foreground
    "Brought to foreground: {title} (HWND: {hwnd})"
    "Failed to bring window {hwnd} to foreground"
    "Brought {success_count} windows to foreground"
    "Error in _bring_to_foreground: {e}".

Definition _close_windows : list pydict -> prog (outside World) bool :=
  apply_to_all close_window
    "Closed window: {title} (HWND: {hwnd})"
    "Failed to close window {hwnd}"
    "Closed {closed_count} windows"
    "Error in _close_windows: {e}".

Definition _hide_windows : list pydict -> prog (outside World) bool :=
  apply_to_all hide_window
    "Hidden window: {title} (HWND: {hwnd})"
    "Failed to hide window {hwnd}"
    "Hidden {hidden_count} windows"
    "Error in _hide_windows: {e}".

Definition perform_action (action_type : value) (target_windows : list pydict)
    (new_window_info : pydict) : prog (outside World) bool :=
  try_except
    (run! olog INFO "Performing action: {action_type} on {len(target_windows)} windows" in
     if py_eq action_type (VStr "MINIMIZE_OTHERS_OF_SAME_APP") then
       _minimize_others_of_same_app target_windows new_window_info
     else if py_eq action_type (VStr "CLOSE_DUPLICATE_PATH") then
       _close_duplicate_path target_windows new_window_info
     else if py_eq action_type (VStr "BRING_TO_FOREGROUND") then
       _bring_to_foreground target_windows
     else if py_eq action_type (VStr "CLOSE_WINDOW") then
       _close_windows target_windows
     else if py_eq action_type (VStr "HIDE_WINDOW") then
       _hide_windows target_windows
     else
       run! olog WARNING "Unknown action type: {action_type}" in
       ret false)
    (fun _ =>
       run! olog ERROR "Error performing action {action_type}: {e}" in
       ret false).
End actions.

Definition get_supported_actions : list string :=
  ["MINIMIZE_OTHERS_OF_SAME_APP"; "CLOSE_DUPLICATE_PATH";
   "BRING_TO_FOREGROUND"; "CLOSE_WINDOW"; "HIDE_WINDOW"].

(** ** src/rules/engine.py *)

(** [win32con] *)
Definition EVENT_SYSTEM_FOREGROUND : Z := 3.
Definition EVENT_OBJECT_CREATE : Z := 32768.
Definition EVENT_OBJECT_DESTROY : Z := 32769.
Definition EVENT_OBJECT_SHOW : Z := 32770.
Definition EVENT_OBJECT_HIDE : Z := 32771.
Definition EVENT_OBJECT_NAMECHANGE : Z := 32780.
Definition SW_SHOWNORMAL : Z := 1.

(** Keys of [_rule_execution_count]: the hashable values, [True] and [1]
    being the same key. *)
Inductive hkey := HNone | HInt (z : Z) | HStr (s : string).

#[global] Instance hkey_eq_dec : EqDecision hkey.
Proof. solve_decision. Defined.

Definition py_hash (v : value) : result hkey :=
  match v with
  | VNone => Ok HNone
  | VBool b => Ok (HInt (Z.b2z b))
  | VInt z => Ok (HInt z)
  | VStr s => Ok (HStr s)
  | VList _ | VDict _ => Raise TypeError
  end.

(** A window information dictionary is an object: the store keeps the
    dictionary it was given, not a copy, and [_update_window_state]
    changes one in place.  What the dictionaries hold is kept in one place,
    [objects]; the store maps a handle to the reference of its dictionary,
    so that two handles, or a handle and a caller, can have the same
    dictionary. *)

Record RuleEngine := {
  rules_config : list value;
  _internal_window_state : list (Z * ref);
  _event_count : Z;
  _rule_execution_count : list (hkey * Z);
}.

(** The engine, what is outside of it, a ghost field: the rules handed
    to [_match_rule_condition] so far, in call order, and the window
    information dictionaries that exist, by reference. *)
Record sys (World : Type) := {
  engine : RuleEngine;
  out : outside World;
  evaluated : list value;
  objects : list (ref * pydict);
}.
Arguments engine {World} _.
Arguments out {World} _.
Arguments evaluated {World} _.
Arguments objects {World} _.

(** What the dictionary of a reference holds; a reference that names no
    dictionary does not occur, and reads as the empty dictionary. *)
Definition deref (r : ref) (objs : list (ref * pydict)) : pydict :=
  default [] (dget r objs).

(** A reference for a new dictionary: one that no dictionary has and the
    store does not hold. *)
Definition fresh_ref {World} (s : sys World) : ref :=
  S (max_list (map snd (_internal_window_state (engine s))
               ++ dkeys (objects s))).

(** The store as [get_window_state] shows it: the handles, each with what
    its dictionary holds *)
Definition get_window_state {World} (s : sys World) : list (Z * pydict) :=
  map (fun item : Z * ref => (item.1, deref item.2 (objects s)))
      (_internal_window_state (engine s)).

(** [self.event_type_mapping.get(event_id, f"UNKNOWN_{event_id}")] *)
Definition event_type_mapping (event_id : Z) : string :=
  if event_id =? EVENT_OBJECT_CREATE then "CREATE"
  else if event_id =? EVENT_OBJECT_DESTROY then "DESTROY"
  else if event_id =? EVENT_OBJECT_SHOW then "SHOW"
  else if event_id =? EVENT_OBJECT_HIDE then "HIDE"
  else if event_id =? EVENT_SYSTEM_FOREGROUND then "FOREGROUND"
  else if event_id =? EVENT_OBJECT_NAMECHANGE then "NAMECHANGE"
  else "UNKNOWN_" +:+ pretty event_id.

Section engine.
Context {World : Type} `{WindowAccess World} `{PyLib}.

Definition lift_out {A} (m : prog (outside World) A) : prog (sys World) A :=
  fun s => let (r, o) := m (out s) in
           (r, {| engine := engine s; out := o; evaluated := evaluated s;
                  objects := objects s |}).

Definition slog (lvl : level) (msg : string) : prog (sys World) unit :=
  lift_out (olog lvl msg).

Definition modify_engine (f : RuleEngine -> RuleEngine) : prog (sys World) unit :=
  modify (fun s => {| engine := f (engine s); out := out s;
                      evaluated := evaluated s; objects := objects s |}).

(** A dictionary is made, and a dictionary is updated in place from what
    another holds: [d.update(other)] *)
Definition new_object (d : pydict) : prog (sys World) ref :=
  fun s => let r := fresh_ref s in
           (Ok r, {| engine := engine s; out := out s;
                     evaluated := evaluated s;
                     objects := dset r d (objects s) |}).

Definition read (r : ref) : prog (sys World) pydict :=
  gets (fun s => deref r (objects s)).

Definition update_object (r : ref) (other : pydict) : prog (sys World) unit :=
  modify (fun s => {| engine := engine s; out := out s;
                      evaluated := evaluated s;
                      objects := dset r (dupdate (deref r (objects s)) other)
                                      (objects s) |}).

Definition set_window_state (st : list (Z * ref)) : prog (sys World) unit :=
  modify_engine (fun e =>
    {| rules_config := rules_config e;
       _internal_window_state := st;
       _event_count := _event_count e;
       _rule_execution_count := _rule_execution_count e |}).

(** [_initialize_window_state]: the dictionary [get_window_info]
    returned is put under the handle.  The helper builds a dictionary at
    each call, or returns the one its cache keeps for this handle; the
    model gives the handle a dictionary of its own. *)
Definition _initialize_window_state : prog (sys World) unit :=
  try_except
    (run! slog INFO "Initializing window state with currently open windows..." in
     let! hwnds := lift_out (os_call enum_top_level_windows) in
     run! for_each (fun hwnd =>
            let! window_info := lift_out (os_call (get_window_info hwnd)) in
            match window_info with
            | [] => ret tt
            | _ =>
                if truthy (dget_default "title" VNone window_info) then
                  let! r := new_object window_info in
                  let! st := gets (fun s => _internal_window_state (engine s)) in
                  set_window_state (dset hwnd r st)
                else ret tt
            end) hwnds in
     slog INFO "Initialized window state with {len} windows")
    (fun _ => slog ERROR "Error initializing window state: {e}").

(** [RuleEngine(rules_config)] *)
Definition RuleEngine_init (rules : list value) (o : outside World)
  : result unit * sys World :=
  (run! slog INFO "RuleEngine initialized with {len(rules_config)} rules" in
   _initialize_window_state)
    {| engine := {| rules_config := rules;
                    _internal_window_state := [];
                    _event_count := 0;
                    _rule_execution_count := [] |};
       out := o;
       evaluated := [];
       objects := [] |}.

(** [_update_window_state]: a creation or a show puts the dictionary
    it was given under the handle; a name change updates the dictionary
    that is under the handle, in place, so for every holder of it. *)
Definition _update_window_state (event_type : string) (hwnd : Z)
    (window_info : ref) : prog (sys World) unit :=
  let! st := gets (fun s => _internal_window_state (engine s)) in
  if String.eqb event_type "CREATE" || String.eqb event_type "SHOW" then
    run! set_window_state (dset hwnd window_info st) in
    slog DEBUG "Added/updated window {hwnd} in state"
  else if String.eqb event_type "DESTROY" || String.eqb event_type "HIDE" then
    if dmem hwnd st then
      run! set_window_state (ddel hwnd st) in
      slog DEBUG "Removed window {hwnd} from state"
    else ret tt
  else if String.eqb event_type "NAMECHANGE" then
    match dget hwnd st with
    | Some entry =>
        let! other := read window_info in
        run! update_object entry other in
        slog DEBUG "Updated window {hwnd} information"
    | None => ret tt
    end
  else ret tt.

(** [v.lower()]: a method of strings *)
Definition py_lower (v : value) : result string :=
  match v with
  | VStr s => Ok (str_lower s)
  | _ => Raise AttributeError
  end.

(** [re.search(pattern, title)] as a truth value *)
Definition py_re_search (pattern title : value) : result bool :=
  match pattern, title with
  | VStr p, VStr t => re_search p t
  | _, _ => Raise TypeError
  end.

(** The three optional checks of a trigger; [Ok false] is the [return
    False] of the check. *)
Definition check_executable_name (trigger : value) (window_info : pydict)
  : result bool :=
  rbind (py_contains "executable_name" trigger) (fun present =>
  if present then
    rbind (py_subscript trigger "executable_name") (fun v =>
    rbind (py_lower v) (fun expected_exe =>
    let window_exe := dget_default "exe_path" (VStr "") window_info in
    if truthy window_exe then
      rbind (basename_lower window_exe) (fun actual_exe =>
      Ok (String.eqb actual_exe expected_exe))
    else Ok false))
  else Ok true).

Definition check_window_class (trigger : value) (window_info : pydict)
  : result bool :=
  rbind (py_contains "window_class" trigger) (fun present =>
  if present then
    rbind (py_subscript trigger "window_class") (fun expected_class =>
    let actual_class := dget_default "class_name" (VStr "") window_info in
    Ok (py_eq actual_class expected_class))
  else Ok true).

Definition check_title_pattern (trigger : value) (window_info : pydict)
  : result bool :=
  rbind (py_contains "title_pattern" trigger) (fun present =>
  if present then
    rbind (py_subscript trigger "title_pattern") (fun pattern =>
    let title := dget_default "title" (VStr "") window_info in
    py_re_search pattern title)
  else Ok true).

Definition match_condition (rule : value) (event_type : string)
    (window_info : pydict) : result bool :=
  rbind (py_get rule "trigger" (VDict [])) (fun trigger =>
  rbind (py_get trigger "event_type" VNone) (fun et =>
  if negb (py_eq et (VStr event_type)) then Ok false else
  rbind (check_executable_name trigger window_info) (fun exe_ok =>
  if negb exe_ok then Ok false else
  rbind (check_window_class trigger window_info) (fun class_ok =>
  if negb class_ok then Ok false else
  rbind (check_title_pattern trigger window_info) (fun title_ok =>
  if negb title_ok then Ok false else Ok true))))).

Definition _match_rule_condition (rule : value) (event_type : string)
    (window_info : pydict) : prog (sys World) bool :=
  run! modify (fun s => {| engine := engine s; out := out s;
                           evaluated := evaluated s ++ [rule];
                           objects := objects s |}) in
  try_except
    (lift_result (match_condition rule event_type window_info))
    (fun _ =>
       run! slog ERROR "Error matching rule condition: {e}" in
       ret false).

Definition window_filter (window_info : pydict) (action : value) : result bool :=
  rbind (py_get action "is_visible" (VBool false)) (fun need_visible =>
  if truthy need_visible
     && negb (truthy (dget_default "is_visible" (VBool false) window_info))
  then Ok false else
  rbind (py_get action "is_top_level" (VBool false)) (fun need_top =>
  if truthy need_top
     && negb (truthy (dget_default "is_top_level" (VBool false) window_info))
  then Ok false else
  rbind (py_get action "same_executable" (VBool false)) (fun _ =>
  Ok true))).

Definition _window_matches_filter (window_info : pydict) (action : value)
  : prog (sys World) bool :=
  try_except
    (lift_result (window_filter window_info action))
    (fun _ =>
       run! slog ERROR "Error checking window filter: {e}" in
       ret false).

(** The loop of [_filter_target_windows] over the items of the store *)
Fixpoint collect_targets (action : value) (new_window_info : pydict)
    (items : list (Z * pydict)) : prog (sys World) (list pydict) :=
  match items with
  | [] => ret []
  | (hwnd, window_info) :: rest =>
      let! exclude :=
        lift_result (py_get action "exclude_trigger_window" (VBool false)) in
      if truthy exclude
         && py_eq (VInt hwnd) (dget_default "hwnd" VNone new_window_info)
      then collect_targets action new_window_info rest
      else
        let! keep := _window_matches_filter window_info action in
        let! tail := collect_targets action new_window_info rest in
        ret (if keep then window_info :: tail else tail)
  end.

Definition _filter_target_windows (rule : value) (new_window_info : pydict)
  : prog (sys World) (list pydict) :=
  try_except
    (let! action := lift_result (py_get rule "action" (VDict [])) in
     let! st := gets get_window_state in
     collect_targets action new_window_info st)
    (fun _ =>
       run! slog ERROR "Error filtering target windows: {e}" in
       ret []).

(** [self._rule_execution_count[name] += 1] on a [defaultdict(int)] *)
Definition count_execution (name : value) : prog (sys World) unit :=
  let! key := lift_result (py_hash name) in
  modify_engine (fun e =>
    {| rules_config := rules_config e;
       _internal_window_state := _internal_window_state e;
       _event_count := _event_count e;
       _rule_execution_count :=
         dset key (default 0 (dget key (_rule_execution_count e)) + 1)
              (_rule_execution_count e) |}).

(** The body of the loop over the sorted rules, in three parts: the
    dispatch of the action of a rule that has targets, what is done with
    a rule that matched, and the test in front of it. *)
Definition dispatch_action (rule name : value) (target_windows : list pydict)
    (window_info : pydict) : prog (sys World) unit :=
  let! action := lift_result (py_subscript rule "action") in
  let! action_type := lift_result (py_subscript action "type") in
  let! success :=
    lift_out (perform_action action_type target_windows window_info) in
  if success then
    run! count_execution name in
    slog INFO "Successfully executed rule '{name}' on {len} windows"
  else slog WARNING "Failed to execute rule '{name}'".

Definition apply_rule (event_type : string) (window_info : pydict)
    (rule : value) : prog (sys World) unit :=
  let! name := lift_result (py_subscript rule "name") in
  run! slog INFO "Rule '{name}' matched for event {event_type}" in
  let! target_windows := _filter_target_windows rule window_info in
  match target_windows with
  | [] => slog DEBUG "Rule '{name}' matched but no target windows found"
  | _ => dispatch_action rule name target_windows window_info
  end.

Definition evaluate_rule (event_type : string) (window_info : pydict)
    (rule : value) : prog (sys World) unit :=
  let! matched := _match_rule_condition rule event_type window_info in
  if matched then apply_rule event_type window_info rule else ret tt.

(** The second half of [process_event]: the enabled rules, sorted, are
    evaluated one after the other. *)
Definition evaluate_rules (event_type : string) (window_info : pydict)
  : prog (sys World) unit :=
  let! rules := gets (fun s => rules_config (engine s)) in
  let! enabled_rules := lift_result (get_enabled_rules rules) in
  let! sorted_rules := lift_result (sort_rules_by_priority enabled_rules) in
  for_each (evaluate_rule event_type window_info) sorted_rules.

(** [process_event]: the rules read the dictionary of the event after
    the store was updated; nothing changes a dictionary while they are
    evaluated, so it is read once. *)
Definition process_event_body (event_id hwnd : Z) (window_info : ref)
  : prog (sys World) unit :=
  run! modify_engine (fun e =>
         {| rules_config := rules_config e;
            _internal_window_state := _internal_window_state e;
            _event_count := _event_count e + 1;
            _rule_execution_count := _rule_execution_count e |}) in
  let event_type := event_type_mapping event_id in
  run! slog DEBUG "Processing event {event_type} for window {title} (HWND: {hwnd})" in
  run! _update_window_state event_type hwnd window_info in
  let! new_window_info := read window_info in
  evaluate_rules event_type new_window_info.

Definition process_event (event_id hwnd : Z) (window_info : ref)
  : prog (sys World) unit :=
  try_except (process_event_body event_id hwnd window_info)
    (fun _ => slog ERROR "Error processing event: {e}").

(** [process_event] as a callback that is handed a dictionary of its
    own: one made for the call, which nothing else refers to. *)
Definition with_new_dict (callback : Z -> Z -> ref -> prog (sys World) unit)
    (event_id hwnd : Z) (window_info : pydict) : prog (sys World) unit :=
  let! r := new_object window_info in
  callback event_id hwnd r.

Definition refresh_window_state : prog (sys World) unit :=
  try_except
    (run! slog INFO "Refreshing window state..." in
     _initialize_window_state)
    (fun _ => slog ERROR "Error refreshing window state: {e}").

Definition clear_statistics : prog (sys World) unit :=
  run! modify_engine (fun e =>
         {| rules_config := rules_config e;
            _internal_window_state := _internal_window_state e;
            _event_count := 0;
            _rule_execution_count := [] |}) in
  slog INFO "Statistics cleared".
End engine.

(** [get_statistics] *)
Record statistics := {
  total_events_processed : Z;
  current_windows_tracked : nat;
  rule_execution_counts : list (hkey * Z);
  enabled_rules : result nat;
}.

Definition get_statistics {World} (s : sys World) : statistics :=
  {| total_events_processed := _event_count (engine s);
     current_windows_tracked := length (_internal_window_state (engine s));
     rule_execution_counts := _rule_execution_count (engine s);
     enabled_rules :=
       rbind (get_enabled_rules (rules_config (engine s)))
             (fun l => Ok (length l)) |}.

(** ** src/core/event_monitor.py *)

(** An entry of [current_windows]: the dictionary literal of
    [enum_callback], whose three keys are always present. *)
Record basic_info := {
  b_hwnd : Z;
  b_title : string;
  b_class_name : string;
}.

(** The differencer of the polling loop.  [set(d.keys())] is the domain
    of the snapshot. *)
Definition new_windows (current_windows previous_windows : gmap Z basic_info)
  : gset Z :=
  dom current_windows ∖ dom previous_windows.

Definition closed_windows (current_windows previous_windows : gmap Z basic_info)
  : gset Z :=
  dom previous_windows ∖ dom current_windows.

(** The test of the loop over the handles in both snapshots *)
Definition title_or_class_differs
    (current_windows previous_windows : gmap Z basic_info) (hwnd : Z) : bool :=
  match current_windows !! hwnd, previous_windows !! hwnd with
  | Some c, Some p =>
      negb (String.eqb (b_title c) (b_title p))
      || negb (String.eqb (b_class_name c) (b_class_name p))
  | _, _ => false
  end.

Definition changed_windows (current_windows previous_windows : gmap Z basic_info)
  : gset Z :=
  filter (fun hwnd =>
            title_or_class_differs current_windows previous_windows hwnd = true)
         (dom current_windows ∩ dom previous_windows).

(** The handles the differencer reports nothing for, as the specification
    names them: present in both snapshots with the same title and the same
    class. *)
Definition same_title_and_class
    (current_windows previous_windows : gmap Z basic_info) (hwnd : Z) : bool :=
  match current_windows !! hwnd, previous_windows !! hwnd with
  | Some c, Some p =>
      String.eqb (b_title c) (b_title p)
      && String.eqb (b_class_name c) (b_class_name p)
  | _, _ => false
  end.

Definition unchanged_windows (current_windows previous_windows : gmap Z basic_info)
  : gset Z :=
  filter (fun hwnd =>
            same_title_and_class current_windows previous_windows hwnd = true)
         (dom current_windows ∪ dom previous_windows).

(** The minimal window information of a closed window *)
Definition closed_window_info (hwnd : Z) (previous : basic_info) : pydict :=
  [("hwnd", VInt hwnd);
   ("title", VStr (b_title previous));
   ("class_name", VStr (b_class_name previous));
   ("pid", VNone);
   ("exe_path", VNone);
   ("is_visible", VBool false);
   ("is_top_level", VBool false);
   ("window_state", VInt SW_SHOWNORMAL)].

Definition system_classes : list string :=
  ["Shell_TrayWnd"; "Shell_SecondaryTrayWnd"; "NotifyIconOverflowWindow";
   "Windows.UI.Core.CoreWindow"; "ApplicationFrameWindow"; "ImmersiveLauncher";
   "SearchUI"; "Shell_CharmWindow"; "MultitaskingViewFrame"; "Shell_AppWnd"].

(** The float literals [0.1], [60.0], [3.0] and the [5] of [time.sleep(5)],
    as binary64 values *)
Definition float_0_1 : spec_float := S754_finite false 7205759403792794 (-56).
Definition float_60 : spec_float := S754_finite false 8444249301319680 (-47).
Definition float_3 : spec_float := S754_finite false 6755399441055744 (-51).
Definition float_5 : spec_float := S754_finite false 5629499534213120 (-50).

Record EventMonitor := {
  running : bool;
  polling_interval : spec_float;
}.

Definition EventMonitor_init : EventMonitor :=
  {| running := false; polling_interval := float_3 |}.

Definition set_polling_interval (interval : spec_float)
  : prog (EventMonitor * list log_entry) bool :=
  let warn msg : prog (EventMonitor * list log_entry) unit :=
    modify (fun s => (s.1, s.2 ++ [(WARNING, msg)])) in
  let! interval :=
    if SFltb interval float_0_1 then
      run! warn "Polling interval too low, setting to 0.1 seconds" in
      ret float_0_1
    else if SFltb float_60 interval then
      run! warn "Polling interval too high, setting to 60 seconds" in
      ret float_60
    else ret interval in
  run! modify (fun s : EventMonitor * list log_entry =>
         ({| running := running s.1; polling_interval := interval |}, s.2)) in
  run! modify (fun s : EventMonitor * list log_entry =>
         (s.1, s.2 ++ [(INFO, "Polling interval changed from {old_interval}s to {interval}s")])) in
  ret true.

Definition get_polling_interval (monitor : EventMonitor) : spec_float :=
  polling_interval monitor.

Section monitor.
Context {World : Type} `{WindowAccess World}.
(** The callback given to [EventMonitor]: [process_event] of the engine *)
Context (event_callback : Z -> Z -> pydict -> prog (sys World) unit).

Definition is_system_window (hwnd : Z) : prog (outside World) bool :=
  try_except
    (let! class_name := os_call (GetClassName hwnd) in
     let! title := os_call (GetWindowText hwnd) in
     ret (bool_decide (class_name ∈ system_classes) || String.eqb title ""))
    (fun _ =>
       run! olog DEBUG "Error checking if system window {hwnd}: {e}" in
       ret true).

Definition enum_callback (hwnd : Z) (windows : gmap Z basic_info)
  : prog (outside World) (gmap Z basic_info) :=
  let! visible := os_call (IsWindowVisible hwnd) in
  if visible then
    let! parent := os_call (GetParent hwnd) in
    if parent =? 0 then
      let! system := is_system_window hwnd in
      if negb system then
        try_except
          (let! title := os_call (GetWindowText hwnd) in
           let! class_name := os_call (GetClassName hwnd) in
           if negb (String.eqb title "") then
             ret (<[hwnd := {| b_hwnd := hwnd; b_title := title;
                               b_class_name := class_name |}]> windows)
           else ret windows)
          (fun _ => ret windows)
      else ret windows
    else ret windows
  else ret windows.

Fixpoint enum_all (hwnds : list Z) (windows : gmap Z basic_info)
  : prog (outside World) (gmap Z basic_info) :=
  match hwnds with
  | [] => ret windows
  | hwnd :: rest =>
      let! windows := enum_callback hwnd windows in
      enum_all rest windows
  end.

(** One iteration of the polling loop up to the sleep: the result is the
    new [previous_windows] and the number of seconds to sleep.  A set is
    visited in the order of [elements]. *)
Definition poll_cycle_body (monitor : EventMonitor)
    (previous_windows : gmap Z basic_info)
  : prog (sys World) (gmap Z basic_info * spec_float) :=
  let! hwnds := lift_out (os_call EnumWindows) in
  let! current_windows := lift_out (enum_all hwnds ∅) in
  let new := new_windows current_windows previous_windows in
  let closed := closed_windows current_windows previous_windows in
  let changed := changed_windows current_windows previous_windows in
  run! for_each (fun hwnd =>
         run! slog DEBUG "Detected new window: {title} (HWND: {hwnd})" in
         let! window_info := lift_out (os_call (get_window_info hwnd)) in
         match window_info with
         | [] => ret tt
         | _ => event_callback EVENT_OBJECT_CREATE hwnd window_info
         end) (elements new) in
  run! for_each (fun hwnd =>
         run! slog DEBUG "Detected closed window (HWND: {hwnd})" in
         match previous_windows !! hwnd with
         | Some previous =>
             event_callback EVENT_OBJECT_DESTROY hwnd
               (closed_window_info hwnd previous)
         | None => raise KeyError
         end) (elements closed) in
  run! for_each (fun hwnd =>
         run! slog DEBUG "Detected changed window: {title} (HWND: {hwnd})" in
         let! window_info := lift_out (os_call (get_window_info hwnd)) in
         match window_info with
         | [] => ret tt
         | _ => event_callback EVENT_OBJECT_NAMECHANGE hwnd window_info
         end) (elements changed) in
  let current_interval := polling_interval monitor in
  ret (current_windows, current_interval).

Definition poll_cycle (monitor : EventMonitor)
    (previous_windows : gmap Z basic_info)
  : prog (sys World) (gmap Z basic_info * spec_float) :=
  try_except (poll_cycle_body monitor previous_windows)
    (fun _ =>
       run! slog ERROR "Error in polling loop: {e}" in
       ret (previous_windows, float_5)).

(** [_event_hook_callback]: the entry point for events pushed by the
    system; of its seven arguments the event and the handle are used.
    [not hwnd or is_system_window(hwnd)] asks about the window only when
    the handle is not zero. *)
Definition _event_hook_callback (event hwnd : Z) : prog (sys World) unit :=
  try_except
    (let! ignored :=
       if hwnd =? 0 then ret true else lift_out (is_system_window hwnd) in
     if ignored then ret tt else
     let! window_info := lift_out (os_call (get_window_info hwnd)) in
     run! slog DEBUG "Event: {event_name} - Window: {title} (HWND: {hwnd}, Class: {class_name})" in
     event_callback event hwnd window_info)
    (fun _ => slog ERROR "Error in event hook callback: {e}").

(** The first [cycles] iterations of the loop of [_run_message_loop],
    for a monitor that stays as it is meanwhile; [time.sleep] changes
    nothing in the state. *)
Fixpoint _run_message_loop (cycles : nat) (monitor : EventMonitor)
    (previous_windows : gmap Z basic_info)
  : prog (sys World) (gmap Z basic_info) :=
  match cycles with
  | O => ret previous_windows
  | S cycles' =>
      if running monitor then
        let! cycle := poll_cycle monitor previous_windows in
        _run_message_loop cycles' monitor cycle.1
      else ret previous_windows
  end.
End monitor.

(** ** src/utils/cache.py *)

(** [time.time()] reads the clock of the world. *)
Class Clock (World : Type) := {
  time_time : World -> spec_float * World;
}.

(** The [-] of binary64, and the literals [600.0] and [300.0] *)
Definition float_sub : spec_float -> spec_float -> spec_float := SFsub 53 1024.
Definition float_600 : spec_float := S754_finite false 5277655813324800 (-43).
Definition float_300 : spec_float := S754_finite false 5277655813324800 (-44).

(** [d[k]] and [d.move_to_end(k)] of an [OrderedDict] *)
Definition subscript {K V} `{EqDecision K} (k : K) (d : list (K * V)) : result V :=
  match dget k d with Some v => Ok v | None => Raise KeyError end.

Definition move_to_end {K V} `{EqDecision K} (k : K) (d : list (K * V))
  : result (list (K * V)) :=
  match dget k d with
  | Some v => Ok (ddel k d ++ [(k, v)])
  | None => Raise KeyError
  end.

Record LRUCache (V : Type) := {
  max_size : Z;
  ttl : spec_float;
  cache : list (string * V);
  timestamps : list (string * spec_float);
}.
Arguments max_size {V} _.
Arguments ttl {V} _.
Arguments cache {V} _.
Arguments timestamps {V} _.

Definition LRUCache_init {V} (max_size : Z) (ttl : spec_float) : LRUCache V :=
  {| max_size := max_size; ttl := ttl; cache := []; timestamps := [] |}.

(** [LRUCache.size] *)
Definition LRUCache_size {V} (self : LRUCache V) : Z :=
  Z.of_nat (length (cache self)).

(** The methods of [LRUCache] run on the cache and on what is outside of
    it: the world, where the clock is, and the log. *)
Section LRUCache.
Context {V World : Type} `{Clock World}.
Abbreviation state := (LRUCache V * outside World)%type.

Definition self : prog state (LRUCache V) := gets fst.

Definition set_cache (c : list (string * V)) : prog state unit :=
  modify (fun s : state =>
    ({| max_size := max_size s.1; ttl := ttl s.1;
        cache := c; timestamps := timestamps s.1 |}, s.2)).

Definition set_timestamps (ts : list (string * spec_float)) : prog state unit :=
  modify (fun s : state =>
    ({| max_size := max_size s.1; ttl := ttl s.1;
        cache := cache s.1; timestamps := ts |}, s.2)).

Definition time : prog state spec_float :=
  fun s => let (t, w) := time_time (os s.2) in
           (Ok t, (s.1, {| os := w; log := log s.2 |})).

(** [LRUCache._remove]; [del] raises on a key that is not there. *)
Definition LRUCache_remove (key : string) : prog state unit :=
  let! c := self in
  if dmem key (cache c) then
    run! set_cache (ddel key (cache c)) in
    if dmem key (timestamps c) then set_timestamps (ddel key (timestamps c))
    else raise KeyError
  else ret tt.

Definition LRUCache_get (key : string) : prog state (option V) :=
  let! c := self in
  if dmem key (cache c) then
    let! now := time in
    let! timestamp := lift_result (subscript key (timestamps c)) in
    if SFltb (ttl c) (float_sub now timestamp) then
      run! LRUCache_remove key in
      ret None
    else
      let! moved := lift_result (move_to_end key (cache c)) in
      run! set_cache moved in
      let! value := lift_result (subscript key moved) in
      ret (Some value)
  else ret None.

(** [next(iter(self.cache))] is taken on a dictionary that holds [key];
    on an empty one it would raise. *)
Definition LRUCache_set (key : string) (value : V) : prog state unit :=
  let! c := self in
  run! (if dmem key (cache c) then LRUCache_remove key else ret tt) in
  let! c := self in
  run! set_cache (dset key value (cache c)) in
  let! now := time in
  let! c := self in
  run! set_timestamps (dset key now (timestamps c)) in
  if max_size c <? Z.of_nat (length (cache c)) then
    match dkeys (cache c) with
    | oldest_key :: _ => LRUCache_remove oldest_key
    | [] => raise KeyError
    end
  else ret tt.

Definition LRUCache_clear : prog state unit :=
  run! set_cache [] in set_timestamps [].

Definition LRUCache_cleanup_expired : prog state Z :=
  let! current_time := time in
  let! c := self in
  let expired_keys :=
    map fst (List.filter (fun entry : string * spec_float =>
                            SFltb (ttl c) (float_sub current_time entry.2))
                         (timestamps c)) in
  run! for_each LRUCache_remove expired_keys in
  run! (match expired_keys with
        | [] => ret tt
        | _ => modify (fun s : state =>
                 (s.1, {| os := os s.2;
                          log := log s.2 ++ [(DEBUG, "Cleaned up {len(expired_keys)} expired cache entries")] |}))
        end) in
  ret (Z.of_nat (length expired_keys)).
End LRUCache.

Record ExpensiveOperationCache := {
  exe_path_cache : LRUCache string;
  folder_path_cache : LRUCache string;
  window_info_cache : LRUCache pydict;
}.

(** [ExpensiveOperationCache()], without the thread it starts *)
Definition ExpensiveOperationCache_init : ExpensiveOperationCache :=
  {| exe_path_cache := LRUCache_init 200 float_600;
     folder_path_cache := LRUCache_init 100 float_300;
     window_info_cache := LRUCache_init 500 float_60 |}.

(** The global [cache] of the module is part of the state of whatever
    uses it. *)
Section ExpensiveOperationCache.
Context {World : Type} `{Clock World}.
Abbreviation state := (ExpensiveOperationCache * outside World)%type.

Definition on_exe_path_cache {A} (m : prog (LRUCache string * outside World) A)
  : prog state A :=
  fun s => let (r, s') := m (exe_path_cache s.1, s.2) in
           (r, ({| exe_path_cache := s'.1;
                   folder_path_cache := folder_path_cache s.1;
                   window_info_cache := window_info_cache s.1 |}, s'.2)).

Definition on_folder_path_cache {A} (m : prog (LRUCache string * outside World) A)
  : prog state A :=
  fun s => let (r, s') := m (folder_path_cache s.1, s.2) in
           (r, ({| exe_path_cache := exe_path_cache s.1;
                   folder_path_cache := s'.1;
                   window_info_cache := window_info_cache s.1 |}, s'.2)).

Definition on_window_info_cache {A} (m : prog (LRUCache pydict * outside World) A)
  : prog state A :=
  fun s => let (r, s') := m (window_info_cache s.1, s.2) in
           (r, ({| exe_path_cache := exe_path_cache s.1;
                   folder_path_cache := folder_path_cache s.1;
                   window_info_cache := s'.1 |}, s'.2)).

(** The methods of the global [cache] *)
Definition cache_get_executable_path (pid : Z) : prog state (option string) :=
  on_exe_path_cache (LRUCache_get ("exe_" +:+ pretty pid)).
Definition cache_set_executable_path (pid : Z) (exe_path : string)
  : prog state unit :=
  on_exe_path_cache (LRUCache_set ("exe_" +:+ pretty pid) exe_path).
Definition cache_get_folder_path (hwnd : Z) : prog state (option string) :=
  on_folder_path_cache (LRUCache_get ("folder_" +:+ pretty hwnd)).
Definition cache_set_folder_path (hwnd : Z) (folder_path : string)
  : prog state unit :=
  on_folder_path_cache (LRUCache_set ("folder_" +:+ pretty hwnd) folder_path).
Definition cache_get_window_info (hwnd : Z) : prog state (option pydict) :=
  on_window_info_cache (LRUCache_get ("window_" +:+ pretty hwnd)).
Definition cache_set_window_info (hwnd : Z) (window_info : pydict)
  : prog state unit :=
  on_window_info_cache (LRUCache_set ("window_" +:+ pretty hwnd) window_info).

(** The wrapper of the three decorators: [lookup] and [store] are the
    two methods of the cache, [found] what the wrapper returns of a
    cached value, [storable] the value it caches of a result that is
    true. *)
Definition cached {C T} (lookup : Z -> prog state (option C))
    (store : Z -> C -> prog state unit) (found : C -> T)
    (storable : T -> option C) (func : Z -> prog state T) (key : Z)
  : prog state T :=
  let! cached_result := lookup key in
  match cached_result with
  | Some c => ret (found c)
  | None =>
      let! result := func key in
      run! (match storable result with
            | Some c => store key c
            | None => ret tt
            end) in
      ret result
  end.

(** A result that is true: a string that is not empty, a dictionary
    that is not empty. *)
Definition true_string (result : option string) : option string :=
  match result with
  | Some "" | None => None
  | Some s => Some s
  end.

Definition true_dict (result : pydict) : option pydict :=
  match result with [] => None | _ => Some result end.

Definition cached_executable_path
  : (Z -> prog state (option string)) -> Z -> prog state (option string) :=
  cached cache_get_executable_path cache_set_executable_path Some true_string.

Definition cached_folder_path
  : (Z -> prog state (option string)) -> Z -> prog state (option string) :=
  cached cache_get_folder_path cache_set_folder_path Some true_string.

Definition cached_window_info
  : (Z -> prog state pydict) -> Z -> prog state pydict :=
  cached cache_get_window_info cache_set_window_info id true_dict.
End ExpensiveOperationCache.

(** [ExpensiveOperationCache.get_stats] *)
Record cache_stats := {
  exe_path_cache_size : Z;
  folder_path_cache_size : Z;
  window_info_cache_size : Z;
  total_cache_size : Z;
}.

Definition cache_get_stats (c : ExpensiveOperationCache) : cache_stats :=
  {| exe_path_cache_size := LRUCache_size (exe_path_cache c);
     folder_path_cache_size := LRUCache_size (folder_path_cache c);
     window_info_cache_size := LRUCache_size (window_info_cache c);
     total_cache_size :=
       LRUCache_size (exe_path_cache c) + LRUCache_size (folder_path_cache c)
       + LRUCache_size (window_info_cache c) |}.

(** ** src/utils/win32_helpers.py

    The helpers run on the global cache and on what is outside: the
    desktop, which they ask through [win32gui] (the queries of
    [WindowAccess]), [win32process] and [psutil], and the log of their
    module. *)

(** What [psutil.Process(pid).exe()] gives: the path, one of the three
    errors the code expects ([NoSuchProcess], [AccessDenied],
    [ZombieProcess]), or another exception. *)
Inductive psutil_result :=
| PsExe (exe : string)
| PsProcessError
| PsRaise (e : exn).

(** [GetWindowThreadProcessId(hwnd)[1]], [GetWindowPlacement(hwnd)[1]],
    [psutil.Process(pid).exe()], and [OpenProcess], [GetModuleFileNameEx]
    and [CloseHandle] taken together *)
Class ProcessAccess (World : Type) := {
  GetWindowThreadProcessId : Z -> World -> result Z * World;
  GetWindowPlacement : Z -> World -> result Z * World;
  psutil_exe : Z -> World -> psutil_result * World;
  GetModuleFileNameEx : Z -> World -> result string * World;
}.

Module win32_helpers.
Section helpers.
Context {World : Type} `{WindowAccess World} `{ProcessAccess World}
        `{Clock World}.
Abbreviation state := (ExpensiveOperationCache * outside World)%type.

Definition call {A} (f : World -> result A * World) : prog state A :=
  fun s => let (r, w) := f (os s.2) in
           (r, (s.1, {| os := w; log := log s.2 |})).

Definition logger (lvl : level) (msg : string) : prog state unit :=
  modify (fun s : state =>
    (s.1, {| os := os s.2; log := log s.2 ++ [(lvl, msg)] |})).

(** The function under [@cached_executable_path] *)
Definition get_executable_path_from_pid_body (pid : Z)
  : prog state (option string) :=
  fun s =>
    match psutil_exe pid (os s.2) with
    | (PsExe exe, w) => (Ok (Some exe), (s.1, {| os := w; log := log s.2 |}))
    | (PsProcessError, w) =>
        try_except
          (let! exe_path := call (GetModuleFileNameEx pid) in
           ret (Some exe_path))
          (fun _ =>
             run! logger WARNING "Failed to get executable path for PID {pid}: {e}" in
             ret None)
          (s.1, {| os := w; log := log s.2 |})
    | (PsRaise e, w) => (Raise e, (s.1, {| os := w; log := log s.2 |}))
    end.

Definition get_executable_path_from_pid : Z -> prog state (option string) :=
  cached_executable_path get_executable_path_from_pid_body.

Definition optional {A} (inject : A -> value) (x : option A) : value :=
  match x with Some a => inject a | None => VNone end.

(** The dictionary [get_window_info] returns when a query failed *)
Definition no_window_info (hwnd : Z) : pydict :=
  [("hwnd", VInt hwnd); ("title", VStr ""); ("class_name", VStr "");
   ("pid", VNone); ("exe_path", VNone); ("is_visible", VBool false);
   ("is_top_level", VBool false); ("window_state", VInt SW_SHOWNORMAL)].

(** The function under [@cached_window_info] *)
Definition get_window_info_body (hwnd : Z) : prog state pydict :=
  try_except
    (let! title := call (GetWindowText hwnd) in
     let! class_name := call (GetClassName hwnd) in
     let! pid :=
       try_except
         (let! pid := call (GetWindowThreadProcessId hwnd) in ret (Some pid))
         (fun _ =>
            run! logger WARNING "Failed to get PID for window {hwnd}: {e}" in
            ret None) in
     let! exe_path :=
       match pid with
       | Some p => if p =? 0 then ret None else get_executable_path_from_pid p
       | None => ret None
       end in
     let! is_visible := call (IsWindowVisible hwnd) in
     let! parent := call (GetParent hwnd) in
     let! window_state :=
       try_except
         (call (GetWindowPlacement hwnd))
         (fun _ =>
            run! logger WARNING "Failed to get window placement for {hwnd}: {e}" in
            ret SW_SHOWNORMAL) in
     ret [("hwnd", VInt hwnd); ("title", VStr title);
          ("class_name", VStr class_name); ("pid", optional VInt pid);
          ("exe_path", optional VStr exe_path);
          ("is_visible", VBool is_visible);
          ("is_top_level", VBool (parent =? 0));
          ("window_state", VInt window_state)])
    (fun _ =>
       run! logger ERROR "Error getting window info for {hwnd}: {e}" in
       ret (no_window_info hwnd)).

Definition get_window_info : Z -> prog state pydict :=
  cached_window_info get_window_info_body.

(** The callback of [enum_top_level_windows]: [and] asks the next
    question only when the answer before was true. *)
Definition enum_windows_callback (hwnd : Z) (windows : list Z)
  : prog state (list Z) :=
  try_except
    (let! visible := call (IsWindowVisible hwnd) in
     if visible then
       let! parent := call (GetParent hwnd) in
       if parent =? 0 then
         let! title := call (GetWindowText hwnd) in
         if negb (String.eqb title "") then ret (windows ++ [hwnd])
         else ret windows
       else ret windows
     else ret windows)
    (fun _ =>
       run! logger DEBUG "Error in enum_windows_callback for {hwnd}: {e}" in
       ret windows).

Fixpoint enum_each (hwnds : list Z) (windows : list Z)
  : prog state (list Z) :=
  match hwnds with
  | [] => ret windows
  | hwnd :: rest =>
      let! windows := enum_windows_callback hwnd windows in
      enum_each rest windows
  end.

(** The list the generator yields from *)
Definition enum_top_level_windows : prog state (list Z) :=
  try_except
    (let! hwnds := call EnumWindows in
     enum_each hwnds [])
    (fun _ =>
       run! logger ERROR "Error enumerating windows: {e}" in
       ret []).
End helpers.
End win32_helpers.

(** ** Notions used to state the properties *)

(** The integer priority of a rule, when it has one: the key under
    ['priority'], 0 when the key is absent. *)
Definition int_priority (rule : value) : option Z :=
  match priority_key rule with
  | Ok v => int_of_value v
  | Raise _ => None
  end.

Definition priority_of (rule : value) : Z := default 0 (int_priority rule).

(** The test of [get_enabled_rules] on one rule *)
Definition rule_enabled (rule : value) : bool :=
  match py_get rule "enabled" (VBool false) with
  | Ok v => truthy v
  | Raise _ => false
  end.

Definition is_ok {A} (r : result A) : bool :=
  match r with Ok _ => true | Raise _ => false end.

(** A rule record as [create_rule] builds it and [_validate_rule] admits
    it, with the types of the signature of [create_rule]: a name that can
    key the execution counts, an action with a type, an integer priority. *)
Definition rule_well_typed (rule : value) : bool :=
  match py_subscript rule "name", py_subscript rule "action" with
  | Ok name, Ok action =>
      is_ok (py_hash name) && is_ok (py_subscript action "type")
      && bool_decide (is_Some (int_priority rule))
  | _, _ => false
  end.

(** What [_validate_rule] asks of a rule record, in the words of the
    specification: the four required fields are present, trigger and
    action are objects, the event type is one of the six event kinds and
    the action type one of the five action types. *)
Definition well_formed_rule (rule : value) : Prop :=
  exists d name enabled trigger action event_type action_type,
    rule = VDict d
    /\ dget "name" d = Some name
    /\ dget "enabled" d = Some enabled
    /\ dget "trigger" d = Some (VDict trigger)
    /\ dget "action" d = Some (VDict action)
    /\ dget "event_type" trigger = Some event_type
    /\ In event_type (map VStr valid_event_types)
    /\ dget "type" action = Some action_type
    /\ In action_type (map VStr valid_action_types).

(** When a trigger matches, in the words of the specification. *)
Definition trigger_matches `{PyLib} (rule : value) (event_type : string)
    (window_info : pydict) : Prop :=
  exists d trigger,
    rule = VDict d
    /\ dget_default "trigger" (VDict []) d = VDict trigger
    /\ dget "event_type" trigger = Some (VStr event_type)
    /\ (forall v, dget "executable_name" trigger = Some v ->
          exists expected path,
            v = VStr expected
            /\ dget "exe_path" window_info = Some (VStr path)
            /\ path <> ""
            /\ str_lower (os_path_basename path) = str_lower expected)
    /\ (forall v, dget "window_class" trigger = Some v ->
          py_eq (dget_default "class_name" (VStr "") window_info) v = true)
    /\ (forall v, dget "title_pattern" trigger = Some v ->
          exists pattern title,
            v = VStr pattern
            /\ dget_default "title" (VStr "") window_info = VStr title
            /\ re_search pattern title = Ok true).

(** The test of [enable_rule] and [disable_rule] on one rule:
    [rule.get('name') == rule_name] *)
Definition named (rule_name : value) (rule : value) : bool :=
  match rule with
  | VDict d => py_eq (dget_default "name" VNone d) rule_name
  | _ => false
  end.

(** A well-formed [LRUCache]: a dictionary has each key once, and the
    two dictionaries have the same keys. *)
Definition LRUCache_ok {V} (c : LRUCache V) : Prop :=
  List.NoDup (dkeys (cache c)) /\ List.NoDup (dkeys (timestamps c))
  /\ forall k, dmem k (cache c) = dmem k (timestamps c).

(** The test of the cache on the age of an entry:
    [now - timestamp > self.ttl] *)
Definition expired {V} (c : LRUCache V) (now timestamp : spec_float) : bool :=
  SFltb (ttl c) (float_sub now timestamp).

(** The cache with other entries, without a key, and with a key set at
    the end of both dictionaries *)
Definition with_entries {V} (c : LRUCache V) (entries : list (string * V))
    (stamps : list (string * spec_float)) : LRUCache V :=
  {| max_size := max_size c; ttl := ttl c;
     cache := entries; timestamps := stamps |}.

Definition without {V} (key : string) (c : LRUCache V) : LRUCache V :=
  with_entries c (ddel key (cache c)) (ddel key (timestamps c)).

Definition with_last {V} (key : string) (value : V) (now : spec_float)
    (c : LRUCache V) : LRUCache V :=
  with_entries c (ddel key (cache c) ++ [(key, value)])
                 (ddel key (timestamps c) ++ [(key, now)]).

(** What is outside after the clock was read *)
Definition with_os {World} (o : outside World) (w : World) : outside World :=
  {| os := w; log := log o |}.

(** The windows [_filter_target_windows] selects for an action that is a
    dictionary: the test it makes on one item of the store.  The flag
    ['same_executable'] is read and not used. *)
Definition is_target (action new_window_info : pydict) (item : Z * pydict) : bool :=
  negb (truthy (dget_default "exclude_trigger_window" (VBool false) action)
        && py_eq (VInt item.1) (dget_default "hwnd" VNone new_window_info))
  && (negb (truthy (dget_default "is_visible" (VBool false) action))
      || truthy (dget_default "is_visible" (VBool false) item.2))
  && (negb (truthy (dget_default "is_top_level" (VBool false) action))
      || truthy (dget_default "is_top_level" (VBool false) item.2)).

(** How often a rule name was counted *)
Definition count_of (key : hkey) (counts : list (hkey * Z)) : Z :=
  default 0 (dget key counts).

(** The keys under which an execution of [rule] is counted *)
Definition counted_as (rule : value) (key : hkey) : Prop :=
  exists name, py_subscript rule "name" = Ok name /\ py_hash name = Ok key.

(** Between two states of the engine no count has gone down, and the
    counts that have gone up are those of keys in [keys]. *)
Definition counts_grow {World} (keys : hkey -> Prop) (s s' : sys World) : Prop :=
  forall key,
    count_of key (_rule_execution_count (engine s))
    <= count_of key (_rule_execution_count (engine s'))
    /\ (count_of key (_rule_execution_count (engine s))
        < count_of key (_rule_execution_count (engine s')) -> keys key).

(** Every entry of the store of [s'] is an entry of the store of [s], or
    the non-empty information, with a title, of a handle in [hwnds]. *)
Definition entries_titled {World} (hwnds : list Z) (s s' : sys World) : Prop :=
  forall h info,
    dget h (get_window_state s') = Some info ->
    dget h (get_window_state s) = Some info
    \/ (In h hwnds /\ info <> []
        /\ truthy (dget_default "title" VNone info) = true).

(** Between two states of the engine only the store of windows and what
    is outside have changed. *)
Definition store_only {World} (s s' : sys World) : Prop :=
  rules_config (engine s') = rules_config (engine s)
  /\ _event_count (engine s') = _event_count (engine s)
  /\ _rule_execution_count (engine s') = _rule_execution_count (engine s)
  /\ evaluated s' = evaluated s.

(** *** A journal of the commands

    To state which commands a piece of code gives, a desktop is paired
    with the journal of the commands it has received: the four primitives
    of the window manager append the command, the handle they were given
    and what they answered; the queries leave the journal as it is. *)
Record call := {
  call_command : string;
  call_handle : value;
  call_outcome : result bool;
}.

Record recorded (World : Type) := {
  inner : World;
  journal : list call;
}.
Arguments inner {World} _.
Arguments journal {World} _.

Definition observe {World A} (query : World -> result A * World)
  : recorded World -> result A * recorded World :=
  fun w => let (r, w') := query (inner w) in
           (r, {| inner := w'; journal := journal w |}).

Definition record {World} (name : string)
    (primitive : value -> World -> result bool * World) (hwnd : value)
  : recorded World -> result bool * recorded World :=
  fun w => let (r, w') := primitive hwnd (inner w) in
           (r, {| inner := w';
                  journal := journal w
                             ++ [{| call_command := name; call_handle := hwnd;
                                    call_outcome := r |}] |}).

#[export] Instance recorded_access {World} `{WindowAccess World}
  : WindowAccess (recorded World) := {|
  EnumWindows := observe EnumWindows;
  IsWindowVisible := fun hwnd => observe (IsWindowVisible hwnd);
  GetParent := fun hwnd => observe (GetParent hwnd);
  GetWindowText := fun hwnd => observe (GetWindowText hwnd);
  GetClassName := fun hwnd => observe (GetClassName hwnd);
  GetForegroundWindow := observe GetForegroundWindow;
  enum_top_level_windows := observe enum_top_level_windows;
  get_window_info := fun hwnd => observe (get_window_info hwnd);
  get_explorer_folder_path := fun hwnd => observe (get_explorer_folder_path hwnd);
  enum_explorer_windows_with_paths := observe enum_explorer_windows_with_paths;
  minimize_window := record "minimize" minimize_window;
  close_window := record "close" close_window;
  bring_to_foreground := record "foreground" bring_to_foreground;
  hide_window := record "hide" hide_window;
|}.

(** The calls a program has added to the journal all satisfy [allowed]. *)
Definition journal_adds {World} (allowed : call -> Prop)
    (o o' : outside (recorded World)) : Prop :=
  exists added,
    journal (os o') = journal (os o) ++ added /\ Forall allowed added.

Definition succeeded (c : call) : Prop := call_outcome c = Ok true.

(** A specification of a program by the calls it adds to the journal:
    they all satisfy [allowed], and when the program returns [a] they
    satisfy [good a] together. *)
Definition adds_calls {World A} (allowed : call -> Prop)
    (good : A -> list call -> Prop) (m : prog (outside (recorded World)) A)
  : Prop :=
  forall o, exists added,
    journal (os (m o).2) = journal (os o) ++ added
    /\ Forall allowed added
    /\ forall a, (m o).1 = Ok a -> good a added.

(** The windows [_minimize_others_of_same_app] may minimize: the targets
    other than the window of the event that are visible and top-level and
    whose executable has the base name of the executable of that window,
    whatever the case of the letters. *)
Definition may_minimize `{PyLib} (target_windows : list pydict)
    (new_window_info : pydict) (c : call) : Prop :=
  call_command c = "minimize"
  /\ exists window_info name,
       In window_info target_windows
       /\ call_handle c = dget_default "hwnd" VNone window_info
       /\ py_eq (call_handle c) (dget_default "hwnd" VNone new_window_info) = false
       /\ truthy (dget_default "is_visible" (VBool false) window_info) = true
       /\ truthy (dget_default "is_top_level" (VBool false) window_info) = true
       /\ basename_lower (dget_default "exe_path" (VStr "") window_info) = Ok name
       /\ basename_lower (dget_default "exe_path" (VStr "") new_window_info)
          = Ok name.

(** The commands [_close_duplicate_path] may give: closing a window other
    than the window of the event, and raising a window. *)
Definition may_close_duplicate (new_window_info : pydict) (c : call) : Prop :=
  (call_command c = "close"
   /\ exists hwnd, call_handle c = VInt hwnd
                   /\ py_eq (VInt hwnd) (dget_default "hwnd" VNone new_window_info)
                      = false)
  \/ call_command c = "foreground".

(** The calls of a handler that applies one primitive to every target *)
Definition applied_to (name : string) (target_windows : list pydict)
    (added : list call) : Prop :=
  Forall (fun c => call_command c = name) added
  /\ map call_handle added
     = map (dget_default "hwnd" VNone) (take (length added) target_windows).

(** The entries a program has added to the log all satisfy [allowed]. *)
Definition log_adds {World} (allowed : log_entry -> Prop)
    (o o' : outside World) : Prop :=
  exists added, log o' = log o ++ added /\ Forall allowed added.

(** A callback that only writes down what it is called with, in the
    ghost trace, and what it wrote: the event and the handle. *)
Definition remember_event {World} (event_id hwnd : Z) (window_info : pydict)
  : prog (sys World) unit :=
  modify (fun s =>
    {| engine := engine s; out := out s;
       evaluated := evaluated s
                    ++ [VList [VInt event_id; VInt hwnd; VDict window_info]];
       objects := objects s |}).

Definition remembered (entry : value) : option (Z * Z) :=
  match entry with
  | VList [VInt event_id; VInt hwnd; VDict _] => Some (event_id, hwnd)
  | _ => None
  end.

(** What a program returns, when it returns, satisfies [post]. *)
Definition returns {S A} (post : A -> Prop) (m : prog S A) : Prop :=
  forall s a s', m s = (Ok a, s') -> post a.

(** A window information dictionary of the handle [hwnd], as
    [get_window_info] builds it: the eight keys in their order, each with
    a value of its type. *)
Definition window_info_of (hwnd : Z) (info : pydict) : Prop :=
  exists title class_name pid exe_path is_visible is_top_level window_state,
    info = [("hwnd", VInt hwnd); ("title", VStr title);
            ("class_name", VStr class_name);
            ("pid", win32_helpers.optional VInt pid);
            ("exe_path", win32_helpers.optional VStr exe_path);
            ("is_visible", VBool is_visible);
            ("is_top_level", VBool is_top_level);
            ("window_state", VInt window_state)].

(** The cache of window information is well formed and holds, under the
    key of a handle, window information of that handle. *)
Definition window_cache_sound (c : ExpensiveOperationCache) : Prop :=
  LRUCache_ok (window_info_cache c)
  /\ forall hwnd info,
       dget ("window_" +:+ pretty hwnd) (cache (window_info_cache c)) = Some info ->
       window_info_of hwnd info.

(** The value an interval is clamped to *)
Definition clamp_interval (interval : spec_float) : spec_float :=
  if SFltb interval float_0_1 then float_0_1
  else if SFltb float_60 interval then float_60
  else interval.

Definition is_nan (x : spec_float) : bool :=
  match x with S754_nan => true | _ => false end.

(** A program [preserves] a relation on states when the state it leaves
    is related to the one it started from, whether it returns or raises;
    it is [total] when it never raises. *)
Definition preserves {S A} (R : S -> S -> Prop) (m : prog S A) : Prop :=
  forall s, R s (m s).2.

Definition total {S A} (m : prog S A) : Prop :=
  forall s, exists a, (m s).1 = Ok a.

(** Relations between the state before and the state after a step of the
    engine: the engine object is the same; the engine is the same but for
    the execution counts; the ghost trace is the same; every entry of the
    store is still there, and the entries of the handles not in [hwnds]
    are the same. *)
Definition engine_unchanged {World} (s s' : sys World) : Prop :=
  engine s' = engine s.

Definition windows_unchanged {World} (s s' : sys World) : Prop :=
  rules_config (engine s') = rules_config (engine s)
  /\ _internal_window_state (engine s') = _internal_window_state (engine s)
  /\ _event_count (engine s') = _event_count (engine s)
  /\ objects s' = objects s.

Definition evaluated_unchanged {World} (s s' : sys World) : Prop :=
  evaluated s' = evaluated s.

Definition entries_kept {World} (hwnds : list Z) (s s' : sys World) : Prop :=
  (forall h, is_Some (dget h (get_window_state s)) ->
             is_Some (dget h (get_window_state s')))
  /\ (forall h, ~ In h hwnds ->
                dget h (get_window_state s') = dget h (get_window_state s)).

(** Relations that do not look at what is outside the engine, at the
    ghost trace, at the execution counts *)
Definition ignores_outside {World} (R : sys World -> sys World -> Prop) : Prop :=
  forall s o, R s {| engine := engine s; out := o; evaluated := evaluated s;
                     objects := objects s |}.

Definition ignores_evaluated {World} (R : sys World -> sys World -> Prop) : Prop :=
  forall s l, R s {| engine := engine s; out := out s; evaluated := l;
                     objects := objects s |}.

Definition ignores_counts {World} (R : sys World -> sys World -> Prop) : Prop :=
  forall s c,
    R s {| engine := {| rules_config := rules_config (engine s);
                        _internal_window_state := _internal_window_state (engine s);
                        _event_count := _event_count (engine s);
                        _rule_execution_count := c |};
           out := out s; evaluated := evaluated s; objects := objects s |}.

(** The state with another outside, the outside with one more log entry *)
Definition with_out {World} (s : sys World) (o : outside World) : sys World :=
  {| engine := engine s; out := o; evaluated := evaluated s;
     objects := objects s |}.

Definition add_log {World} (lvl : level) (msg : string) (o : outside World)
  : outside World :=
  {| os := os o; log := log o ++ [(lvl, msg)] |}.

(** The entry [apply_rule] ends the log with: what came of a rule that
    matched *)
Definition outcome_entries : list log_entry :=
  [(INFO, "Successfully executed rule '{name}' on {len} windows");
   (WARNING, "Failed to execute rule '{name}'");
   (DEBUG, "Rule '{name}' matched but no target windows found")].

(** The store [_update_window_state] leaves, which dictionary is under
    which handle, and what the dictionaries hold afterwards *)
Definition next_window_state (event_type : string) (hwnd : Z)
    (window_info : ref) (st : list (Z * ref)) : list (Z * ref) :=
  if String.eqb event_type "CREATE" || String.eqb event_type "SHOW" then
    dset hwnd window_info st
  else if String.eqb event_type "DESTROY" || String.eqb event_type "HIDE" then
    ddel hwnd st
  else st.

Definition next_objects (event_type : string) (hwnd : Z)
    (window_info : ref) (st : list (Z * ref)) (objs : list (ref * pydict))
  : list (ref * pydict) :=
  if String.eqb event_type "NAMECHANGE" then
    match dget hwnd st with
    | Some entry =>
        dset entry (dupdate (deref entry objs) (deref window_info objs)) objs
    | None => objs
    end
  else objs.

(** The events the polling loop hands to its callback: creations and name
    changes, and destructions of a handle of the previous snapshot, with
    the minimal information made from that snapshot. *)
Definition delivered_by_poll (previous_windows : gmap Z basic_info)
    (event_id hwnd : Z) (window_info : pydict) : Prop :=
  event_id = EVENT_OBJECT_CREATE
  \/ event_id = EVENT_OBJECT_NAMECHANGE
  \/ (event_id = EVENT_OBJECT_DESTROY
      /\ exists previous, previous_windows !! hwnd = Some previous
                          /\ window_info = closed_window_info hwnd previous).

(** The six event identifiers [event_type_mapping] knows *)
Definition recognized_event (event_id : Z) : bool :=
  bool_decide (In event_id [EVENT_OBJECT_CREATE; EVENT_OBJECT_DESTROY;
                            EVENT_OBJECT_SHOW; EVENT_OBJECT_HIDE;
                            EVENT_SYSTEM_FOREGROUND; EVENT_OBJECT_NAMECHANGE]).

(** ** A small desktop to run the definitions on

    The desktop is the journal of the commands it has received.  Three
    windows are open: a Notepad window (handle 1), a file browser
    (handle 2) and a mail window (handle 3). *)
Module Demo.
Definition desktop := list (string * value).

Definition ascii_lower (c : ascii) : ascii :=
  let n := nat_of_ascii c in
  if (65 <=? n)%nat && (n <=? 90)%nat then ascii_of_nat (n + 32) else c.

Fixpoint lower (s : string) : string :=
  match s with
  | EmptyString => EmptyString
  | String c s' => String (ascii_lower c) (lower s')
  end.

(** the part after the last separator *)
Fixpoint basename (s : string) : string :=
  match s with
  | EmptyString => EmptyString
  | String c s' =>
      if is_substring "\" s' || is_substring "/" s' then basename s'
      else if Ascii.eqb c "\" || Ascii.eqb c "/" then s'
      else s
  end.

#[export] Instance pylib : PyLib.
Proof.
  refine {| re_search := fun pattern text => Ok (is_substring pattern text);
            str_lower := lower;
            os_path_basename := basename;
            sorted_other := fun _ => Raise TypeError |}.
  intros keyed sorted Hs. discriminate Hs.
Defined.

Definition notepad : pydict :=
  [("hwnd", VInt 1); ("title", VStr "Untitled - Notepad");
   ("class_name", VStr "Notepad"); ("pid", VInt 4242);
   ("exe_path", VStr "C:\Windows\System32\NOTEPAD.EXE");
   ("is_visible", VBool true); ("is_top_level", VBool true);
   ("window_state", VInt 1)].

Definition browser : pydict :=
  [("hwnd", VInt 2); ("title", VStr "test");
   ("class_name", VStr "CabinetWClass"); ("pid", VInt 77);
   ("exe_path", VStr "C:\Windows\explorer.exe");
   ("is_visible", VBool true); ("is_top_level", VBool true);
   ("window_state", VInt 1)].

Definition mail : pydict :=
  [("hwnd", VInt 3); ("title", VStr "Mail");
   ("class_name", VStr "Mail"); ("pid", VInt 913);
   ("exe_path", VStr "C:\Program Files\Mail\mail.exe");
   ("is_visible", VBool true); ("is_top_level", VBool true);
   ("window_state", VInt 1)].

Definition info_of (hwnd : Z) : pydict :=
  if hwnd =? 1 then notepad
  else if hwnd =? 2 then browser
  else if hwnd =? 3 then mail
  else [("hwnd", VInt hwnd); ("title", VStr ""); ("class_name", VStr "");
        ("pid", VNone); ("exe_path", VNone); ("is_visible", VBool false);
        ("is_top_level", VBool false); ("window_state", VInt 1)].

Definition command (name : string) (hwnd : value) (w : desktop)
  : result bool * desktop :=
  (Ok true, w ++ [(name, hwnd)]).

#[export] Instance access : WindowAccess desktop := {|
  EnumWindows := fun w => (Ok [1; 2; 3], w);
  IsWindowVisible := fun hwnd w => (Ok true, w);
  GetParent := fun hwnd w => (Ok 0, w);
  GetWindowText := fun hwnd w =>
    (Ok (match dget_default "title" VNone (info_of hwnd) with
         | VStr t => t | _ => "" end), w);
  GetClassName := fun hwnd w =>
    (Ok (match dget_default "class_name" VNone (info_of hwnd) with
         | VStr t => t | _ => "" end), w);
  GetForegroundWindow := fun w => (Ok (VInt 1), w);
  enum_top_level_windows := fun w => (Ok [1; 2; 3], w);
  get_window_info := fun hwnd w => (Ok (info_of hwnd), w);
  get_explorer_folder_path := fun hwnd w =>
    (Ok (if py_eq hwnd (VInt 2) then Some "C:\Users\test" else None), w);
  enum_explorer_windows_with_paths := fun w => (Ok [(2, "C:\Users\test")], w);
  minimize_window := command "minimize";
  close_window := command "close";
  bring_to_foreground := command "foreground";
  hide_window := command "hide";
|}.

Definition rule_raise_notepad : value :=
  VDict [("name", VStr "Raise Notepad"); ("enabled", VBool true);
         ("priority", VInt 50);
         ("trigger", VDict [("event_type", VStr "CREATE");
                            ("executable_name", VStr "notepad.exe")]);
         ("action", VDict [("type", VStr "BRING_TO_FOREGROUND")])].

Definition rule_unknown_action : value :=
  VDict [("name", VStr "Shake"); ("enabled", VBool true);
         ("priority", VInt 80);
         ("trigger", VDict [("event_type", VStr "CREATE")]);
         ("action", VDict [("type", VStr "SHAKE_WINDOW")])].

Definition rule_bad_event : value :=
  VDict [("name", VStr "Moved"); ("enabled", VBool true);
         ("trigger", VDict [("event_type", VStr "MOVE")]);
         ("action", VDict [("type", VStr "CLOSE_WINDOW")])].

Definition rule_disabled : value :=
  VDict [("name", VStr "Hide browsers"); ("enabled", VBool false);
         ("priority", VInt 50);
         ("trigger", VDict [("event_type", VStr "CREATE");
                            ("window_class", VStr "CabinetWClass")]);
         ("action", VDict [("type", VStr "HIDE_WINDOW")])].

(** a record with a list as name: it passes [_validate_rule], and its
    name cannot key the execution counts *)
Definition rule_list_name : value :=
  VDict [("name", VList [VStr "Raise"; VStr "all"]); ("enabled", VBool true);
         ("priority", VInt 90);
         ("trigger", VDict [("event_type", VStr "CREATE")]);
         ("action", VDict [("type", VStr "BRING_TO_FOREGROUND")])].

Definition rule_close_duplicates : value :=
  VDict [("name", VStr "Close duplicate folders"); ("enabled", VBool true);
         ("priority", VInt 50);
         ("trigger", VDict [("event_type", VStr "CREATE");
                            ("window_class", VStr "CabinetWClass")]);
         ("action", VDict [("type", VStr "CLOSE_DUPLICATE_PATH")])].

Definition rules : list value :=
  [rule_raise_notepad; rule_unknown_action; rule_disabled;
   rule_close_duplicates].

(** the enabled rules of [rules] *)
Definition enabled : list value :=
  [rule_raise_notepad; rule_unknown_action; rule_close_duplicates].

(** the rules as objects, numbered as they come *)
Definition rule_objects : list (ref * value) :=
  imap (fun i rule => (i, rule)) rules.

(** a rules file: [rules] and three records that are not well formed *)
Definition rules_file : value :=
  VList [rule_raise_notepad; rule_bad_event; VStr "name enabled trigger action";
         rule_unknown_action; VInt 3; rule_disabled; rule_close_duplicates].

(** two snapshots: window 1 changed its title, window 5 is gone, window 2
    is new, window 3 is as it was *)
Definition previous_snapshot : gmap Z basic_info :=
  {[ 1 := {| b_hwnd := 1; b_title := "Untitled"; b_class_name := "Notepad" |};
     3 := {| b_hwnd := 3; b_title := "Mail"; b_class_name := "Mail" |};
     5 := {| b_hwnd := 5; b_title := "Old"; b_class_name := "Notepad" |} ]}.

Definition current_snapshot : gmap Z basic_info :=
  {[ 1 := {| b_hwnd := 1; b_title := "Untitled - Notepad";
             b_class_name := "Notepad" |};
     2 := {| b_hwnd := 2; b_title := "test"; b_class_name := "CabinetWClass" |};
     3 := {| b_hwnd := 3; b_title := "Mail"; b_class_name := "Mail" |} ]}.

(** the binary64 values of [0.01], [120.0] and [2.5] *)
Definition float_0_01 : spec_float := S754_finite false 5764607523034235 (-59).
Definition float_120 : spec_float := S754_finite false 8444249301319680 (-46).
Definition float_2_5 : spec_float := S754_finite false 5629499534213120 (-51).

(** a callback that only records what it is called with, in the ghost
    trace *)
Definition record_event (event_id hwnd : Z) (window_info : pydict)
  : prog (sys desktop) unit :=
  modify (fun s =>
    {| engine := engine s; out := out s;
       evaluated := evaluated s
                    ++ [VList [VInt event_id; VInt hwnd; VDict window_info]];
       objects := objects s |}).

(** an engine with rules and windows, each window with a dictionary of
    its own: the dictionaries are numbered as the windows come *)
Definition start (rules : list value) (windows : list (Z * pydict))
  : sys desktop :=
  {| engine := {| rules_config := rules;
                  _internal_window_state :=
                    imap (fun i (item : Z * pydict) => (item.1, i)) windows;
                  _event_count := 0;
                  _rule_execution_count := [] |};
     out := {| os := []; log := [] |};
     evaluated := [];
     objects := imap (fun i (item : Z * pydict) => (i, item.2)) windows |}.

(** an engine in which the handles 1 and 2 have one and the same
    dictionary, and handle 3 has its own; dictionary 2 is in no entry *)
Definition shared : sys desktop :=
  {| engine := {| rules_config := [];
                  _internal_window_state := [(1, 0%nat); (2, 0%nat); (3, 1%nat)];
                  _event_count := 0;
                  _rule_execution_count := [] |};
     out := {| os := []; log := [] |};
     evaluated := [];
     objects := [(0%nat, notepad); (1%nat, mail);
                 (2%nat, [("title", VStr "Renamed")])] |}.

(** a clock that gives the readings of its list, one for each call, and
    [0.0] when the list is over *)
#[export] Instance readings : Clock (list spec_float) := {|
  time_time := fun w => match w with
                        | t :: rest => (t, rest)
                        | [] => (S754_zero false, [])
                        end |}.

Definition at_times (times : list spec_float) : outside (list spec_float) :=
  {| os := times; log := [] |}.

(** a cache of executable paths that is full with two entries, the
    first stored at [3.0] and the second at [5.0] *)
Definition small_cache : LRUCache string :=
  {| max_size := 2; ttl := float_60;
     cache := [("exe_1", "C:\a.exe"); ("exe_2", "C:\b.exe")];
     timestamps := [("exe_1", float_3); ("exe_2", float_5)] |}.

(** on the small desktop the time stays at [5.0]; the process of a
    window is the one of its information, and only the process of Notepad
    tells its executable *)
#[export] Instance clock : Clock desktop := {|
  time_time := fun w => (float_5, w) |}.

#[export] Instance processes : ProcessAccess desktop := {|
  GetWindowThreadProcessId := fun hwnd w =>
    (match dget_default "pid" VNone (info_of hwnd) with
     | VInt pid => Ok pid
     | _ => Raise OSError
     end, w);
  GetWindowPlacement := fun hwnd w => (Ok SW_SHOWNORMAL, w);
  psutil_exe := fun pid w =>
    (if pid =? 4242 then PsExe "C:\Windows\System32\NOTEPAD.EXE"
     else PsProcessError, w);
  GetModuleFileNameEx := fun pid w => (Raise OSError, w);
|}.

(** a function under a decorator, which finds nothing *)
Definition no_path (id : Z)
  : prog (ExpensiveOperationCache * outside (list spec_float)) (option string) :=
  ret None.

(** a function under [@cached_window_info], which knows the windows of
    the small desktop, and one which must not be called *)
Definition look_up (hwnd : Z)
  : prog (ExpensiveOperationCache * outside (list spec_float)) pydict :=
  ret (info_of hwnd).

Definition not_called (hwnd : Z)
  : prog (ExpensiveOperationCache * outside (list spec_float)) pydict :=
  raise OSError.
End Demo.

(** * Lemmas and theorems *)

(** ** Dictionaries *)
Section pydict_lemmas.
Context {K V : Type} `{EqDecision K}.
Implicit Types (k : K) (v : V) (d : list (K * V)).

Lemma dget_dset_eq k v d : dget k (dset k v d) = Some v.
Proof.
  induction d as [| [k' v'] d IH]; simpl.
  - rewrite decide_True; trivial.
  - destruct (decide (k = k')) as [-> | Hne]; simpl.
    + rewrite decide_True; trivial.
    + rewrite decide_False; trivial.
Qed.

Lemma dget_dset_ne k k' v d : k <> k' -> dget k' (dset k v d) = dget k' d.
Proof.
  intros Hne. induction d as [| [k0 v0] d IH]; simpl.
  - rewrite decide_False; [trivial | congruence].
  - destruct (decide (k = k0)) as [-> | Hk]; simpl.
    + rewrite !decide_False; [trivial | congruence | congruence].
    + destruct (decide (k' = k0)); trivial.
Qed.

Lemma dget_ddel_eq k d : dget k (ddel k d) = None.
Proof.
  induction d as [| [k' v'] d IH]; simpl; trivial.
  destruct (decide (k = k')) as [-> | Hne]; simpl; trivial.
  rewrite decide_False; trivial.
Qed.

Lemma dget_ddel_ne k k' d : k <> k' -> dget k' (ddel k d) = dget k' d.
Proof.
  intros Hne. induction d as [| [k0 v0] d IH]; simpl; trivial.
  destruct (decide (k = k0)) as [-> | Hk]; simpl.
  - rewrite decide_False; [trivial | congruence].
  - destruct (decide (k' = k0)); trivial.
Qed.

Lemma dmem_true k d : dmem k d = true <-> is_Some (dget k d).
Proof.
  unfold dmem. destruct (dget k d); split; intros Hx; eauto.
  - discriminate.
  - destruct Hx; discriminate.
Qed.

Lemma dmem_false k d : dmem k d = false <-> dget k d = None.
Proof. unfold dmem. destruct (dget k d); split; congruence. Qed.

Lemma ddel_absent k d : dget k d = None -> ddel k d = d.
Proof.
  induction d as [| [k' v'] d IH]; simpl; trivial.
  destruct (decide (k = k')); [discriminate |]. intros Hd. f_equal. auto.
Qed.

Lemma dget_app k d1 d2 :
  dget k (d1 ++ d2) = match dget k d1 with Some v => Some v | None => dget k d2 end.
Proof.
  induction d1 as [| [k' v'] d1 IH]; simpl; trivial.
  destruct (decide (k = k')); trivial.
Qed.

Lemma dget_in k v d : dget k d = Some v -> In (k, v) d.
Proof.
  induction d as [| [k' v'] d IH]; simpl; [discriminate |].
  destruct (decide (k = k')) as [-> | Hne]; intros Hd.
  - left. congruence.
  - right. auto.
Qed.

Lemma dget_nodup k v d :
  List.NoDup (dkeys d) -> In (k, v) d -> dget k d = Some v.
Proof.
  induction d as [| [k' v'] d IH]; simpl; [tauto |].
  intros Hnd [Heq | Hin].
  - injection Heq as -> ->. rewrite decide_True; trivial.
  - apply List.NoDup_cons_iff in Hnd as [Hk Hnd].
    destruct (decide (k = k')) as [-> | Hne]; [| auto].
    exfalso. apply Hk. unfold dkeys.
    apply in_map_iff. exists (k', v). auto.
Qed.

(** [d.update(other)]: the keys of [other] take its values, the other
    keys keep theirs. *)
Lemma dget_dupdate_rev k d other :
  dget k (dupdate d other) =
  match dget k (rev other) with Some v => Some v | None => dget k d end.
Proof.
  unfold dupdate. revert d.
  induction other as [| [k' v'] other IH]; intros d; simpl; trivial.
  rewrite IH, dget_app. destruct (dget k (rev other)); trivial.
  simpl. destruct (decide (k = k')) as [-> | Hne].
  - apply dget_dset_eq.
  - apply dget_dset_ne. congruence.
Qed.

Lemma dget_rev_nodup k d :
  List.NoDup (dkeys d) -> dget k (rev d) = dget k d.
Proof.
  intros Hnd. destruct (dget k d) as [v |] eqn:Hd.
  - apply dget_nodup.
    + unfold dkeys. rewrite map_rev. apply NoDup_rev. exact Hnd.
    + apply in_rev. rewrite rev_involutive. apply dget_in. exact Hd.
  - destruct (dget k (rev d)) as [v |] eqn:Hr; trivial.
    apply dget_in in Hr. apply in_rev in Hr.
    apply (dget_nodup _ _ _ Hnd) in Hr. congruence.
Qed.

Lemma dget_dupdate k d other :
  List.NoDup (dkeys other) ->
  dget k (dupdate d other) =
  match dget k other with Some v => Some v | None => dget k d end.
Proof. intros Hnd. rewrite dget_dupdate_rev, dget_rev_nodup; trivial. Qed.
End pydict_lemmas.

(** ** Programs *)

(** The constructs of a program preserve a preorder when their parts do. *)
Section frames.
Context {S : Type} (R : S -> S -> Prop) `{!PreOrder R}.

Lemma preserves_ret {A} (a : A) : preserves R (ret a).
Proof. intros s. reflexivity. Qed.

Lemma preserves_raise {A} e : preserves R (raise (A := A) e).
Proof. intros s. reflexivity. Qed.

Lemma preserves_lift_result {A} (r : result A) : preserves R (lift_result r).
Proof. intros s. reflexivity. Qed.

Lemma preserves_gets {A} (f : S -> A) : preserves R (gets f).
Proof. intros s. reflexivity. Qed.

Lemma preserves_modify (f : S -> S) : (forall s, R s (f s)) -> preserves R (modify f).
Proof. intros Hf s. apply Hf. Qed.

Lemma preserves_bind {A B} (m : prog S A) (f : A -> prog S B) :
  preserves R m -> (forall a, preserves R (f a)) -> preserves R (bind m f).
Proof.
  intros Hm Hf s. unfold bind. specialize (Hm s).
  destruct (m s) as [[a | e] s1]; simpl in *; trivial.
  etransitivity; [exact Hm | apply Hf].
Qed.

Lemma preserves_try_except {A} (body : prog S A) handler :
  preserves R body -> (forall e, preserves R (handler e)) ->
  preserves R (try_except body handler).
Proof.
  intros Hb Hh s. unfold try_except. specialize (Hb s).
  destruct (body s) as [[a | e] s1]; simpl in *; trivial.
  etransitivity; [exact Hb | apply Hh].
Qed.

Lemma preserves_for_each {A} (body : A -> prog S unit) l :
  (forall x, In x l -> preserves R (body x)) -> preserves R (for_each body l).
Proof.
  induction l as [| x l IH]; intros Hb; simpl.
  - apply preserves_ret.
  - apply preserves_bind; [apply Hb; left; trivial |].
    intros _. apply IH. intros y Hy. apply Hb. right. trivial.
Qed.
End frames.

Lemma total_try_except {S A} (body : prog S A) handler :
  (forall e, total (handler e)) -> total (try_except body handler).
Proof.
  intros Hh s. unfold try_except.
  destruct (body s) as [[a | e] s1]; simpl; [eauto | apply Hh].
Qed.

Lemma total_bind {S A B} (m : prog S A) (f : A -> prog S B) :
  total m -> (forall a, total (f a)) -> total (bind m f).
Proof.
  intros Hm Hf s. unfold bind. destruct (Hm s) as [a Ha].
  destruct (m s) as [[a' | e] s1]; simpl in *; [apply Hf | discriminate].
Qed.

Lemma total_ret {S A} (a : A) : total (ret (S := S) a).
Proof. intros s. exists a. reflexivity. Qed.

Lemma total_modify {S} (f : S -> S) : total (modify f).
Proof. intros s. exists tt. reflexivity. Qed.

(** ** The differencer *)

Lemma elem_of_changed_windows (current previous : gmap Z basic_info) (h : Z) :
  h ∈ changed_windows current previous <->
  exists c p, current !! h = Some c /\ previous !! h = Some p
              /\ (b_title c <> b_title p \/ b_class_name c <> b_class_name p).
Proof.
  unfold changed_windows, title_or_class_differs.
  rewrite elem_of_filter, elem_of_intersection, !elem_of_dom.
  split.
  - intros [Hd [[c Hc] [p Hp]]]. exists c, p. rewrite Hc, Hp in Hd.
    repeat split; trivial.
    apply orb_true_iff in Hd as [Hd | Hd]; apply negb_true_iff in Hd;
      apply String.eqb_neq in Hd; auto.
  - intros (c & p & Hc & Hp & Hne). rewrite Hc, Hp. split; [| eauto].
    apply orb_true_iff.
    destruct Hne as [Hne | Hne]; apply String.eqb_neq in Hne; rewrite Hne; auto.
Qed.

Lemma elem_of_unchanged_windows (current previous : gmap Z basic_info) (h : Z) :
  h ∈ unchanged_windows current previous <->
  exists c p, current !! h = Some c /\ previous !! h = Some p
              /\ b_title c = b_title p /\ b_class_name c = b_class_name p.
Proof.
  unfold unchanged_windows, same_title_and_class.
  rewrite elem_of_filter, elem_of_union, !elem_of_dom.
  split.
  - intros [Hs _]. destruct (current !! h) as [c|]; [| discriminate].
    destruct (previous !! h) as [p|]; [| discriminate].
    apply andb_true_iff in Hs as [Ht Hc]. apply String.eqb_eq in Ht, Hc.
    exists c, p. auto.
  - intros (c & p & Hc & Hp & Ht & Hcl). rewrite Hc, Hp. split; [| eauto].
    apply andb_true_iff. split; apply String.eqb_eq; assumption.
Qed.

(** C1: the differencer of the polling loop: the created handles are
    those of the current snapshot that the previous one does not have,
    the destroyed handles those of the previous snapshot that the current
    one does not have, the changed handles those of both whose title or
    class differs; these three sets and the set of the unchanged handles
    are pairwise disjoint and together make up the handles of the two
    snapshots; a snapshot compared with itself gives three empty sets. *)
Theorem differencer_partition (current previous : gmap Z basic_info) :
  let created := new_windows current previous in
  let destroyed := closed_windows current previous in
  let changed := changed_windows current previous in
  let unchanged := unchanged_windows current previous in
  (forall h, h ∈ created <-> h ∈ dom current /\ h ∉ dom previous)
  /\ (forall h, h ∈ destroyed <-> h ∈ dom previous /\ h ∉ dom current)
  /\ (forall h, h ∈ changed <->
        exists c p, current !! h = Some c /\ previous !! h = Some p
                    /\ (b_title c <> b_title p
                        \/ b_class_name c <> b_class_name p))
  /\ created ## destroyed /\ created ## changed /\ created ## unchanged
  /\ destroyed ## changed /\ destroyed ## unchanged /\ changed ## unchanged
  /\ created ∪ destroyed ∪ changed ∪ unchanged = dom previous ∪ dom current
  /\ new_windows current current = ∅
  /\ closed_windows current current = ∅
  /\ changed_windows current current = ∅.
Proof.
  intros created destroyed changed unchanged.
  assert (Hcreated : forall h, h ∈ created <-> h ∈ dom current /\ h ∉ dom previous)
    by (intros h; unfold created, new_windows; apply elem_of_difference).
  assert (Hdestroyed : forall h, h ∈ destroyed <-> h ∈ dom previous /\ h ∉ dom current)
    by (intros h; unfold destroyed, closed_windows; apply elem_of_difference).
  pose proof (elem_of_changed_windows current previous) as Hchanged.
  pose proof (elem_of_unchanged_windows current previous) as Hunchanged.
  fold changed in Hchanged. fold unchanged in Hunchanged.
  assert (Hin : forall (m : gmap Z basic_info) h b, m !! h = Some b -> h ∈ dom m)
    by (intros m h b Hm; apply elem_of_dom; eauto).
  split; [exact Hcreated |]. split; [exact Hdestroyed |].
  split; [exact Hchanged |].
  repeat split.
  - intros h [_ Hn]%Hcreated [Hp _]%Hdestroyed. auto.
  - intros h [_ Hn]%Hcreated (c & p & _ & Hp & _)%Hchanged. eauto.
  - intros h [_ Hn]%Hcreated (c & p & _ & Hp & _)%Hunchanged. eauto.
  - intros h [_ Hn]%Hdestroyed (c & p & Hc & _)%Hchanged. eauto.
  - intros h [_ Hn]%Hdestroyed (c & p & Hc & _)%Hunchanged. eauto.
  - intros h (c & p & Hc & Hp & Hne)%Hchanged (c' & p' & Hc' & Hp' & Ht & Hcl)%Hunchanged.
    rewrite Hc in Hc'. rewrite Hp in Hp'. simplify_eq. tauto.
  - apply set_eq. intros h.
    rewrite !elem_of_union, Hcreated, Hdestroyed, Hchanged, Hunchanged, !elem_of_dom.
    split.
    + intros [[[[Hc _] | [Hp _]] | (c & p & Hc & _)] | (c & p & Hc & _)]; eauto.
    + intros Hdom.
      destruct (current !! h) as [c|] eqn:Hc, (previous !! h) as [p|] eqn:Hp.
      * destruct (String.eqb_spec (b_title c) (b_title p)) as [Ht | Ht];
          [| left; right; exists c, p; auto].
        destruct (String.eqb_spec (b_class_name c) (b_class_name p)) as [Hcl | Hcl];
          [right | left; right]; exists c, p; auto.
      * left. left. left. split; [eauto |]. intros [? ?]; discriminate.
      * left. left. right. split; [eauto |]. intros [? ?]; discriminate.
      * destruct Hdom as [[? ?] | [? ?]]; discriminate.
  - apply set_eq. intros h. unfold new_windows.
    rewrite elem_of_difference, elem_of_empty. tauto.
  - apply set_eq. intros h. unfold closed_windows.
    rewrite elem_of_difference, elem_of_empty. tauto.
  - apply set_eq. intros h. rewrite elem_of_changed_windows, elem_of_empty.
    split; [| tauto].
    intros (c & p & Hc & Hp & Hne). rewrite Hc in Hp. simplify_eq. tauto.
Qed.

(** ** Sorting by priority *)
Section sorting.
Context {A : Type}.
Implicit Types (x : Z * A) (l : list (Z * A)).

Lemma insert_desc_perm x l : Permutation (x :: l) (insert_desc x l).
Proof.
  induction l as [| y l IH]; simpl; [reflexivity |].
  destruct (x.1 <? y.1); [| reflexivity].
  rewrite perm_swap. apply perm_skip. exact IH.
Qed.

Lemma sorted_desc_perm l : Permutation l (sorted_desc l).
Proof.
  induction l as [| x l IH]; simpl; [reflexivity |].
  rewrite <- insert_desc_perm. apply perm_skip. exact IH.
Qed.

Lemma insert_desc_sorted x l :
  StronglySorted (fun a b => b.1 <= a.1) l ->
  StronglySorted (fun a b => b.1 <= a.1) (insert_desc x l).
Proof.
  induction l as [| y l IH]; intros Hs; simpl.
  - constructor; constructor.
  - apply StronglySorted_inv in Hs as [Hl Hy].
    destruct (Z.ltb_spec x.1 y.1) as [Hlt | Hge].
    + constructor; [auto |].
      apply (Permutation_Forall (insert_desc_perm x l)).
      constructor; [lia | exact Hy].
    + constructor; [constructor; assumption |].
      constructor; [exact Hge |].
      eapply List.Forall_impl; [| exact Hy]. simpl. intros z Hz. lia.
Qed.

Lemma sorted_desc_sorted l :
  StronglySorted (fun a b => b.1 <= a.1) (sorted_desc l).
Proof.
  induction l as [| x l IH]; simpl; [constructor |].
  apply insert_desc_sorted. exact IH.
Qed.

(** Stability: an element only moves behind elements of greater key. *)
Lemma insert_desc_filter p x l :
  List.filter (fun y => y.1 =? p) (insert_desc x l)
  = List.filter (fun y => y.1 =? p) (x :: l).
Proof.
  induction l as [| y l IH]; simpl; [reflexivity |].
  destruct (Z.ltb_spec x.1 y.1) as [Hlt | Hge]; [| reflexivity].
  simpl in *. rewrite IH.
  destruct (Z.eqb_spec x.1 p) as [Hx | Hx],
           (Z.eqb_spec y.1 p) as [Hy | Hy]; trivial.
  lia.
Qed.

Lemma sorted_desc_stable p l :
  List.filter (fun y => y.1 =? p) (sorted_desc l)
  = List.filter (fun y => y.1 =? p) l.
Proof.
  induction l as [| x l IH]; simpl; [reflexivity |].
  rewrite insert_desc_filter. simpl. rewrite IH. reflexivity.
Qed.
End sorting.

Lemma strongly_sorted_lookup {A} (R : A -> A -> Prop) (l : list A) i j a b :
  StronglySorted R l -> (i < j)%nat -> l !! i = Some a -> l !! j = Some b ->
  R a b.
Proof.
  intros Hs. revert i j. induction Hs as [| x l Hs IH Hx]; intros i j Hij Hi Hj.
  - discriminate.
  - destruct j as [| j]; [lia |]. simpl in Hj.
    destruct i as [| i]; simpl in Hi.
    + injection Hi as <-. rewrite List.Forall_forall in Hx. apply Hx.
      apply list_elem_of_In. eapply list_elem_of_lookup_2. exact Hj.
    + apply (IH i j); [lia | assumption | assumption].
Qed.

Section rules_order.
Context `{PyLib}.

Lemma get_enabled_rules_filter rules enabled :
  get_enabled_rules rules = Ok enabled ->
  enabled = List.filter rule_enabled rules.
Proof.
  revert enabled. induction rules as [| rule rules IH]; simpl; intros enabled He.
  - congruence.
  - unfold rule_enabled.
    destruct (py_get rule "enabled" (VBool false)) as [v | e]; [| discriminate].
    simpl in He.
    destruct (get_enabled_rules rules) as [tail | e]; [| discriminate].
    simpl in He. injection He as <-. rewrite (IH tail eq_refl).
    destruct (truthy v); reflexivity.
Qed.

Lemma get_enabled_rules_dicts rules :
  Forall (fun r => isinstance_dict r = true) rules ->
  get_enabled_rules rules = Ok (List.filter rule_enabled rules).
Proof.
  induction 1 as [| rule rules Hd _ IH]; simpl; [reflexivity |].
  rewrite IH. unfold rule_enabled.
  destruct rule; try discriminate. simpl.
  destruct (truthy _); reflexivity.
Qed.

Lemma decorate_snd rules keyed :
  decorate rules = Ok keyed -> map snd keyed = rules.
Proof.
  revert keyed. induction rules as [| rule rules IH]; simpl; intros keyed Hd.
  - injection Hd as <-. reflexivity.
  - destruct (priority_key rule) as [k | e]; [| discriminate]. simpl in Hd.
    destruct (decorate rules) as [tail | e]; [| discriminate]. simpl in Hd.
    injection Hd as <-. simpl. f_equal. auto.
Qed.

Lemma int_keys_snd keyed l :
  int_keys keyed = Some l -> map snd l = map snd keyed.
Proof.
  revert l. induction keyed as [| [k rule] keyed IH]; simpl; intros l Hk.
  - injection Hk as <-. reflexivity.
  - destruct (int_of_value k) as [z |]; [| discriminate].
    destruct (int_keys keyed) as [tail |]; [| discriminate].
    injection Hk as <-. simpl. f_equal. auto.
Qed.

Lemma sort_rules_by_priority_perm rules sorted :
  sort_rules_by_priority rules = Ok sorted -> Permutation rules sorted.
Proof.
  unfold sort_rules_by_priority. intros Hs.
  destruct (decorate rules) as [keyed | e] eqn:Hd; [| discriminate].
  simpl in Hs. apply decorate_snd in Hd. subst rules.
  destruct (int_keys keyed) as [l |] eqn:Hk.
  - injection Hs as <-. apply int_keys_snd in Hk.
    rewrite <- Hk. apply Permutation_map. apply sorted_desc_perm.
  - destruct keyed as [| x [| y keyed]].
    + injection Hs as <-. reflexivity.
    + injection Hs as <-. reflexivity.
    + apply sorted_other_perm. exact Hs.
Qed.

(** On integer priorities the result is the stable sort. *)
Lemma sort_rules_by_priority_int rules :
  Forall (fun r => is_Some (int_priority r)) rules ->
  sort_rules_by_priority rules
  = Ok (map snd (sorted_desc (map (fun r => (priority_of r, r)) rules))).
Proof.
  intros Hi. unfold sort_rules_by_priority.
  assert (Hd : exists keyed,
             decorate rules = Ok keyed
             /\ int_keys keyed = Some (map (fun r => (priority_of r, r)) rules)).
  { induction Hi as [| rule rules [z Hz] _ (keyed & Hd & Hk)]; simpl.
    - eauto.
    - unfold priority_of. rewrite Hz. unfold int_priority in Hz.
      destruct (priority_key rule) as [k | e]; [| discriminate]. simpl.
      rewrite Hd. simpl. eexists. split; [reflexivity |].
      simpl. rewrite Hz, Hk. reflexivity. }
  destruct Hd as (keyed & -> & Hk). simpl. rewrite Hk. reflexivity.
Qed.

Lemma map_snd_filter_key (p : Z) (l : list (Z * value)) :
  Forall (fun x => x.1 = priority_of x.2) l ->
  List.filter (fun r => priority_of r =? p) (map snd l)
  = map snd (List.filter (fun y => y.1 =? p) l).
Proof.
  induction 1 as [| [z r] l Hx _ IH]; simpl; [reflexivity |].
  simpl in Hx. subst z. rewrite IH.
  destruct (priority_of r =? p); reflexivity.
Qed.

Lemma keyed_by_priority rules :
  Forall (fun x : Z * value => x.1 = priority_of x.2)
         (map (fun r => (priority_of r, r)) rules).
Proof. induction rules; simpl; constructor; auto. Qed.

Lemma map_snd_keyed rules :
  map snd (map (fun r : value => (priority_of r, r)) rules) = rules.
Proof. induction rules; simpl; [| f_equal]; auto. Qed.

(** C6: the enabled rules sorted by priority: every enabled rule is in
    the result once, a rule of higher priority stands before every rule
    of lower priority, and the rules of one priority stand in the order
    they have in the list of rules. *)
Theorem sort_enabled_rules_stable_descending (rules : list value) :
  Forall (fun r => isinstance_dict r = true) rules ->
  Forall (fun r => rule_enabled r = true -> is_Some (int_priority r)) rules ->
  exists enabled sorted,
    get_enabled_rules rules = Ok enabled
    /\ sort_rules_by_priority enabled = Ok sorted
    /\ enabled = List.filter rule_enabled rules
    /\ Permutation enabled sorted
    /\ (forall i j r1 r2,
          sorted !! i = Some r1 -> sorted !! j = Some r2 ->
          priority_of r2 < priority_of r1 -> (i < j)%nat)
    /\ (forall p,
          List.filter (fun r => priority_of r =? p) sorted
          = List.filter (fun r => rule_enabled r && (priority_of r =? p)) rules).
Proof.
  intros Hdict Hint.
  set (enabled := List.filter rule_enabled rules).
  assert (Henabled : Forall (fun r => is_Some (int_priority r)) enabled).
  { apply List.Forall_forall. intros r Hr. unfold enabled in Hr.
    apply filter_In in Hr as [Hr Hen].
    rewrite List.Forall_forall in Hint. auto. }
  set (keyed := map (fun r => (priority_of r, r)) enabled).
  exists enabled, (map snd (sorted_desc keyed)).
  split; [apply get_enabled_rules_dicts; exact Hdict |].
  split; [apply sort_rules_by_priority_int; exact Henabled |].
  split; [reflexivity |].
  assert (Hkeyed : Forall (fun x : Z * value => x.1 = priority_of x.2)
                          (sorted_desc keyed)).
  { apply (Permutation_Forall (sorted_desc_perm keyed)).
    apply keyed_by_priority. }
  split; [| split].
  - rewrite <- (map_snd_keyed enabled) at 1. fold keyed.
    apply Permutation_map. apply sorted_desc_perm.
  - intros i j r1 r2 Hi Hj Hlt.
    rewrite list_lookup_fmap in Hi, Hj.
    destruct (sorted_desc keyed !! i) as [x1 |] eqn:H1; [| discriminate].
    destruct (sorted_desc keyed !! j) as [x2 |] eqn:H2; [| discriminate].
    simpl in Hi, Hj. injection Hi as <-. injection Hj as <-.
    rewrite List.Forall_forall in Hkeyed.
    assert (Hp1 : x1.1 = priority_of x1.2)
      by (apply Hkeyed, list_elem_of_In; eapply list_elem_of_lookup_2; eauto).
    assert (Hp2 : x2.1 = priority_of x2.2)
      by (apply Hkeyed, list_elem_of_In; eapply list_elem_of_lookup_2; eauto).
    destruct (Nat.lt_trichotomy i j) as [Hij | [Hij | Hij]]; trivial.
    + subst j. rewrite H1 in H2. injection H2 as <-. lia.
    + pose proof (strongly_sorted_lookup _ _ j i x2 x1
                    (sorted_desc_sorted keyed) Hij H2 H1) as Hle.
      simpl in Hle. lia.
  - intros p. rewrite map_snd_filter_key by exact Hkeyed.
    rewrite sorted_desc_stable.
    rewrite <- map_snd_filter_key by apply keyed_by_priority.
    unfold keyed. rewrite map_snd_keyed. unfold enabled.
    clear. induction rules as [| r rules IH]; simpl; [reflexivity |].
    destruct (rule_enabled r); simpl; [| exact IH].
    destruct (priority_of r =? p); [f_equal |]; exact IH.
Qed.
End rules_order.

(** ** Frames of the engine *)
Section engine_frames.
Context {World : Type} `{WindowAccess World} `{PyLib}.
Implicit Types (s : sys World) (R : sys World -> sys World -> Prop).

Lemma engine_unchanged_preorder : PreOrder (@engine_unchanged World).
Proof.
  split; [intros s; reflexivity |].
  intros s1 s2 s3 H12 H23. unfold engine_unchanged in *. congruence.
Qed.

Lemma windows_unchanged_preorder : PreOrder (@windows_unchanged World).
Proof.
  split; [intros s; repeat split |].
  intros s1 s2 s3 (? & ? & ? & ?) (? & ? & ? & ?).
  unfold windows_unchanged. repeat split; congruence.
Qed.

Lemma evaluated_unchanged_preorder : PreOrder (@evaluated_unchanged World).
Proof.
  split; [intros s; reflexivity |].
  intros s1 s2 s3 H12 H23. unfold evaluated_unchanged in *. congruence.
Qed.

Lemma entries_kept_preorder hwnds : PreOrder (@entries_kept World hwnds).
Proof.
  split; [intros s; split; auto |].
  intros s1 s2 s3 [Hk12 He12] [Hk23 He23]. split.
  - auto.
  - intros h Hh. rewrite He23, He12; trivial.
Qed.

#[local] Existing Instances engine_unchanged_preorder
  windows_unchanged_preorder evaluated_unchanged_preorder
  entries_kept_preorder.

Lemma engine_unchanged_outside : ignores_outside (@engine_unchanged World).
Proof. intros s o. reflexivity. Qed.
Lemma engine_unchanged_evaluated : ignores_evaluated (@engine_unchanged World).
Proof. intros s l. reflexivity. Qed.
Lemma windows_unchanged_outside : ignores_outside (@windows_unchanged World).
Proof. intros s o. repeat split. Qed.
Lemma windows_unchanged_evaluated : ignores_evaluated (@windows_unchanged World).
Proof. intros s l. repeat split. Qed.
Lemma windows_unchanged_counts : ignores_counts (@windows_unchanged World).
Proof. intros s c. repeat split. Qed.
Lemma evaluated_unchanged_outside : ignores_outside (@evaluated_unchanged World).
Proof. intros s o. reflexivity. Qed.
Lemma evaluated_unchanged_counts : ignores_counts (@evaluated_unchanged World).
Proof. intros s c. reflexivity. Qed.
Lemma entries_kept_outside hwnds : ignores_outside (@entries_kept World hwnds).
Proof. intros s o. split; auto. Qed.

Lemma preserves_lift_out R {A} (m : prog (outside World) A) :
  ignores_outside R -> preserves R (lift_out m).
Proof.
  intros HR s. unfold lift_out. destruct (m (out s)) as [r o]. apply HR.
Qed.

Lemma preserves_slog R lvl msg : ignores_outside R -> preserves R (slog lvl msg).
Proof. apply preserves_lift_out. Qed.

Lemma total_slog lvl msg : total (slog (World := World) lvl msg).
Proof. intros s. exists tt. reflexivity. Qed.

Lemma total_lift_out {A} (m : prog (outside World) A) :
  total m -> total (lift_out m).
Proof.
  intros Hm s. unfold lift_out. destruct (Hm (out s)) as [a Ha].
  destruct (m (out s)) as [r o]. simpl in *. eauto.
Qed.
End engine_frames.

Create HintDb frames.
#[export] Hint Resolve engine_unchanged_outside engine_unchanged_evaluated
  windows_unchanged_outside windows_unchanged_evaluated windows_unchanged_counts
  evaluated_unchanged_outside evaluated_unchanged_counts entries_kept_outside
  engine_unchanged_preorder windows_unchanged_preorder
  evaluated_unchanged_preorder entries_kept_preorder
  : frames.

(** Decompose a program along its constructs. *)
Ltac frame :=
  repeat first
    [ solve [auto with frames]
    | apply preserves_ret
    | apply preserves_raise
    | apply preserves_lift_result
    | apply preserves_gets
    | apply preserves_slog; solve [auto with frames]
    | apply preserves_lift_out; solve [auto with frames]
    | apply preserves_bind; [solve [typeclasses eauto] | | intros ?]
    | apply preserves_try_except; [solve [typeclasses eauto] | | intros ?]
    | match goal with
      | |- preserves _ (if ?b then _ else _) => destruct b
      | |- preserves _ (match ?x with _ => _ end) => destruct x
      end ].

Section engine_steps.
Context {World : Type} `{WindowAccess World} `{PyLib}.
Context (R : sys World -> sys World -> Prop) `{!PreOrder R}.
Implicit Types (s : sys World).

Lemma preserves_collect_targets action new_window_info items :
  ignores_outside R ->
  preserves R (collect_targets action new_window_info items).
Proof.
  intros Ho. induction items as [| [hwnd window_info] items IH]; simpl; frame.
Qed.
#[local] Hint Resolve preserves_collect_targets : frames.

Lemma preserves_filter_target_windows rule new_window_info :
  ignores_outside R ->
  preserves R (_filter_target_windows rule new_window_info).
Proof. intros Ho. unfold _filter_target_windows. frame. Qed.
#[local] Hint Resolve preserves_filter_target_windows : frames.

Lemma preserves_match_rule_condition rule event_type window_info :
  ignores_outside R -> ignores_evaluated R ->
  preserves R (_match_rule_condition rule event_type window_info).
Proof.
  intros Ho He. unfold _match_rule_condition. frame.
  apply preserves_modify. intros s. apply He.
Qed.
#[local] Hint Resolve preserves_match_rule_condition : frames.

Lemma preserves_count_execution name :
  ignores_counts R -> preserves R (count_execution name).
Proof.
  intros Hc. unfold count_execution, modify_engine. frame.
  apply preserves_modify. intros s. apply Hc.
Qed.
#[local] Hint Resolve preserves_count_execution : frames.

Lemma preserves_apply_rule event_type window_info rule :
  ignores_outside R -> ignores_counts R ->
  preserves R (apply_rule event_type window_info rule).
Proof. intros Ho Hc. unfold apply_rule. frame. Qed.
#[local] Hint Resolve preserves_apply_rule : frames.

Lemma preserves_evaluate_rule event_type window_info rule :
  ignores_outside R -> ignores_counts R -> ignores_evaluated R ->
  preserves R (evaluate_rule event_type window_info rule).
Proof. intros Ho Hc He. unfold evaluate_rule. frame. Qed.
#[local] Hint Resolve preserves_evaluate_rule : frames.

Lemma preserves_evaluate_rules event_type window_info :
  ignores_outside R -> ignores_counts R -> ignores_evaluated R ->
  preserves R (evaluate_rules event_type window_info).
Proof.
  intros Ho Hc He. unfold evaluate_rules. frame.
  apply preserves_for_each; [typeclasses eauto |]. intros rule _. frame.
Qed.
End engine_steps.

(** ** The store *)
Section store.
Context {World : Type} `{WindowAccess World} `{PyLib}.
Implicit Types (s : sys World).

#[local] Existing Instances engine_unchanged_preorder
  windows_unchanged_preorder evaluated_unchanged_preorder
  entries_kept_preorder.

Lemma deref_dset r r' d objs :
  deref r (dset r' d objs) = if decide (r = r') then d else deref r objs.
Proof.
  unfold deref. destruct (decide (r = r')) as [-> | Hne].
  - rewrite dget_dset_eq. reflexivity.
  - rewrite dget_dset_ne by congruence. reflexivity.
Qed.

Lemma fresh_ref_store s h r :
  dget h (_internal_window_state (engine s)) = Some r -> r <> fresh_ref s.
Proof.
  intros Hg. apply dget_in in Hg. unfold fresh_ref.
  assert (Hin : r ∈ map snd (_internal_window_state (engine s))
                    ++ dkeys (objects s)).
  { apply elem_of_app. left. apply list_elem_of_In.
    apply (in_map snd) in Hg. exact Hg. }
  apply max_list_elem_of_le in Hin. lia.
Qed.

Lemma view_dset (f : ref -> pydict) h r (st : list (Z * ref)) :
  map (fun item : Z * ref => (item.1, f item.2)) (dset h r st)
  = dset h (f r) (map (fun item : Z * ref => (item.1, f item.2)) st).
Proof.
  induction st as [| [h' r'] st IH]; simpl; [reflexivity |].
  destruct (decide (h = h')); simpl; [reflexivity | rewrite IH; reflexivity].
Qed.

Lemma view_ddel (f : ref -> pydict) h (st : list (Z * ref)) :
  map (fun item : Z * ref => (item.1, f item.2)) (ddel h st)
  = ddel h (map (fun item : Z * ref => (item.1, f item.2)) st).
Proof.
  induction st as [| [h' r'] st IH]; simpl; [reflexivity |].
  destruct (decide (h = h')); simpl; [exact IH | rewrite IH; reflexivity].
Qed.

Lemma dget_get_window_state h s :
  dget h (get_window_state s)
  = option_map (fun r => deref r (objects s))
               (dget h (_internal_window_state (engine s))).
Proof.
  unfold get_window_state.
  induction (_internal_window_state (engine s)) as [| [h' r] st IH]; simpl;
    [reflexivity |].
  destruct (decide (h = h')); [reflexivity | exact IH].
Qed.

(** A new dictionary put under a handle shows under this handle and
    nowhere else. *)
Lemma get_window_state_new_dict s s' hwnd d :
  _internal_window_state (engine s')
  = dset hwnd (fresh_ref s) (_internal_window_state (engine s)) ->
  objects s' = dset (fresh_ref s) d (objects s) ->
  forall h, dget h (get_window_state s')
            = if decide (h = hwnd) then Some d else dget h (get_window_state s).
Proof.
  intros Hst Hobj h. rewrite !dget_get_window_state, Hst, Hobj.
  destruct (decide (h = hwnd)) as [-> | Hne].
  - rewrite dget_dset_eq. simpl. rewrite deref_dset.
    rewrite decide_True by reflexivity. reflexivity.
  - rewrite dget_dset_ne by congruence.
    destruct (dget h (_internal_window_state (engine s))) as [r |] eqn:Hr;
      [| reflexivity].
    simpl. rewrite deref_dset.
    destruct (decide (r = fresh_ref s)) as [Heq | _]; [| reflexivity].
    exfalso. exact (fresh_ref_store s h r Hr Heq).
Qed.

Lemma update_window_state_spec event_type hwnd window_info s :
  let r := _update_window_state event_type hwnd window_info s in
  r.1 = Ok tt
  /\ _internal_window_state (engine r.2)
     = next_window_state event_type hwnd window_info
         (_internal_window_state (engine s))
  /\ objects r.2
     = next_objects event_type hwnd window_info
         (_internal_window_state (engine s)) (objects s)
  /\ rules_config (engine r.2) = rules_config (engine s)
  /\ _event_count (engine r.2) = _event_count (engine s)
  /\ _rule_execution_count (engine r.2) = _rule_execution_count (engine s)
  /\ evaluated r.2 = evaluated s.
Proof.
  unfold _update_window_state, next_window_state, next_objects, bind, gets.
  simpl.
  destruct (String.eqb event_type "CREATE" || String.eqb event_type "SHOW")
    eqn:Hc.
  { simpl. repeat split.
    destruct (String.eqb_spec event_type "NAMECHANGE") as [-> |];
      [discriminate Hc | reflexivity]. }
  destruct (String.eqb event_type "DESTROY" || String.eqb event_type "HIDE")
    eqn:Hd.
  { assert (Hn : String.eqb event_type "NAMECHANGE" = false)
      by (destruct (String.eqb_spec event_type "NAMECHANGE") as [-> |];
          [discriminate Hd | reflexivity]).
    rewrite Hn.
    destruct (dmem hwnd (_internal_window_state (engine s))) eqn:Hm;
      simpl; repeat split.
    apply dmem_false in Hm. symmetry. apply ddel_absent. exact Hm. }
  destruct (String.eqb event_type "NAMECHANGE"); [| simpl; repeat split].
  destruct (dget hwnd (_internal_window_state (engine s)));
    simpl; repeat split.
Qed.

Lemma process_event_spec event_id hwnd window_info s :
  exists s',
    process_event event_id hwnd window_info s = (Ok tt, s')
    /\ _event_count (engine s') = _event_count (engine s) + 1
    /\ _internal_window_state (engine s')
       = next_window_state (event_type_mapping event_id) hwnd window_info
           (_internal_window_state (engine s))
    /\ objects s'
       = next_objects (event_type_mapping event_id) hwnd window_info
           (_internal_window_state (engine s)) (objects s)
    /\ rules_config (engine s') = rules_config (engine s).
Proof.
  unfold process_event, try_except, process_event_body.
  unfold bind at 1. simpl. unfold bind at 1. simpl. unfold bind at 1.
  match goal with
  | |- context [_update_window_state ?et ?h ?w ?s1] =>
      pose proof (update_window_state_spec et h w s1) as Hu;
      destruct (_update_window_state et h w s1) as [r2 s2]
  end.
  simpl in Hu. destruct Hu as (-> & Hst & Hobj & Hrules & Hcount & _ & _).
  unfold bind at 1, read, gets.
  pose proof (preserves_evaluate_rules windows_unchanged
                (event_type_mapping event_id) (deref window_info (objects s2))
                windows_unchanged_outside windows_unchanged_counts
                windows_unchanged_evaluated s2) as (Hr3 & Hs3 & Hc3 & Ho3).
  destruct (evaluate_rules (event_type_mapping event_id)
              (deref window_info (objects s2)) s2)
    as [[[] | e] s3]; simpl in *;
    eexists; (split; [reflexivity |]); simpl;
    rewrite Hc3, Hs3, Hr3, Ho3, Hcount, Hst, Hobj, Hrules; repeat split.
Qed.

Lemma unrecognized_event_type event_id :
  recognized_event event_id = false ->
  exists suffix, event_type_mapping event_id = "UNKNOWN_" +:+ suffix.
Proof.
  unfold recognized_event, event_type_mapping. intros Hr.
  apply bool_decide_eq_false in Hr.
  repeat match goal with
         | |- context [?a =? ?b] =>
             destruct (Z.eqb_spec a b);
             [exfalso; apply Hr; subst; simpl; auto 10 |]
         end.
  eauto.
Qed.

Lemma next_window_state_unknown suffix hwnd window_info st :
  next_window_state ("UNKNOWN_" +:+ suffix) hwnd window_info st = st.
Proof. reflexivity. Qed.

Lemma next_objects_unknown suffix hwnd window_info st objs :
  next_objects ("UNKNOWN_" +:+ suffix) hwnd window_info st objs = objs.
Proof. reflexivity. Qed.
End store.

Lemma bind_ext {S A B} (m m' : prog S A) (f g : A -> prog S B) s :
  m s = m' s -> (forall a s', f a s' = g a s') -> bind m f s = bind m' g s.
Proof.
  intros Hm Hf. unfold bind. rewrite Hm.
  destruct (m' s) as [[a | e] s']; auto.
Qed.

Lemma for_each_ext {S A} (f g : A -> prog S unit) l :
  (forall x, In x l -> forall s, f x s = g x s) ->
  forall s, for_each f l s = for_each g l s.
Proof.
  induction l as [| x l IH]; intros Hfg s; simpl; trivial.
  apply bind_ext.
  - apply Hfg. left. trivial.
  - intros _ s'. apply IH. intros y Hy. apply Hfg. right. trivial.
Qed.

Section poll.
Context {World : Type} `{WindowAccess World}.

(** The polling loop calls its callback on nothing but the events of
    [delivered_by_poll]. *)
Lemma poll_cycle_callback_args
    (cb cb' : Z -> Z -> pydict -> prog (sys World) unit)
    monitor (previous_windows : gmap Z basic_info) :
  (forall event_id hwnd window_info,
      delivered_by_poll previous_windows event_id hwnd window_info ->
      forall s, cb event_id hwnd window_info s = cb' event_id hwnd window_info s) ->
  forall s, poll_cycle cb monitor previous_windows s
            = poll_cycle cb' monitor previous_windows s.
Proof.
  intros Hcb s. unfold poll_cycle, try_except.
  enough (poll_cycle_body cb monitor previous_windows s
          = poll_cycle_body cb' monitor previous_windows s) as ->; trivial.
  unfold poll_cycle_body.
  apply bind_ext; trivial. intros hwnds s1.
  apply bind_ext; trivial. intros current_windows s2.
  apply bind_ext.
  { apply for_each_ext. intros hwnd _ s3.
    apply bind_ext; trivial. intros _ s4.
    apply bind_ext; trivial. intros window_info s5.
    destruct window_info; trivial. apply Hcb. left. trivial. }
  intros _ s3. apply bind_ext.
  { apply for_each_ext. intros hwnd _ s4.
    apply bind_ext; trivial. intros _ s5.
    destruct (previous_windows !! hwnd) as [previous |] eqn:Hp; trivial.
    apply Hcb. right. right. eauto. }
  intros _ s4. apply bind_ext; trivial.
  apply for_each_ext. intros hwnd _ s5.
  apply bind_ext; trivial. intros _ s6.
  apply bind_ext; trivial. intros window_info s7.
  destruct window_info; trivial. apply Hcb. right. left. trivial.
Qed.
End poll.

Section engine_theorems.
Context {World : Type} `{WindowAccess World} `{PyLib}.
Implicit Types (s : sys World).

#[local] Existing Instances engine_unchanged_preorder
  windows_unchanged_preorder evaluated_unchanged_preorder
  entries_kept_preorder.

(** C9: [process_event] returns normally for every event identifier,
    handle and window information, whatever the rules and the desktop
    do; every call adds one to the number of events processed; an event
    identifier that is none of the six recognized ones leaves the store
    of windows as it was. *)
Theorem process_event_is_total event_id hwnd window_info s :
  let r := process_event event_id hwnd window_info s in
  r.1 = Ok tt
  /\ total_events_processed (get_statistics r.2)
     = total_events_processed (get_statistics s) + 1
  /\ (recognized_event event_id = false ->
      get_window_state r.2 = get_window_state s).
Proof.
  destruct (process_event_spec event_id hwnd window_info s)
    as (s' & Hp & Hcount & Hstore & Hobj & _).
  simpl. rewrite Hp. simpl. unfold get_window_state.
  split; [reflexivity |]. split; [exact Hcount |].
  intros Hr. apply unrecognized_event_type in Hr as [suffix Hs].
  rewrite Hstore, Hobj, Hs.
  rewrite next_window_state_unknown, next_objects_unknown. reflexivity.
Qed.

(** C3: the store after [process_event] is determined by the event:
    a creation or a show puts the dictionary that was given under the
    handle, replacing what was there; a destruction or a hide removes the
    entry of the handle; a name change updates the dictionary that is
    under the handle from the given one, key by key, in place, and
    creates no entry: every handle that has this dictionary shows the
    merged fields, and the other dictionaries are as they were.  The
    polling loop delivers a destruction with the minimal information it
    makes from the previous snapshot: the last title and class, not
    visible. *)
Theorem store_update_by_event_kind event_id hwnd (window_info : ref) s :
  let s' := (process_event event_id hwnd window_info s).2 in
  let held := _internal_window_state (engine s) in
  let supplied := deref window_info (objects s) in
  (event_id = EVENT_OBJECT_CREATE \/ event_id = EVENT_OBJECT_SHOW ->
     _internal_window_state (engine s') = dset hwnd window_info held
     /\ objects s' = objects s
     /\ get_window_state s' = dset hwnd supplied (get_window_state s)
     /\ dget hwnd (get_window_state s') = Some supplied)
  /\ (event_id = EVENT_OBJECT_DESTROY \/ event_id = EVENT_OBJECT_HIDE ->
        _internal_window_state (engine s') = ddel hwnd held
        /\ objects s' = objects s
        /\ get_window_state s' = ddel hwnd (get_window_state s)
        /\ dget hwnd (get_window_state s') = None)
  /\ (event_id = EVENT_OBJECT_NAMECHANGE ->
        _internal_window_state (engine s') = held
        /\ match dget hwnd held with
           | Some entry =>
               let merged := dupdate (deref entry (objects s)) supplied in
               (forall r, deref r (objects s')
                          = if decide (r = entry) then merged
                            else deref r (objects s))
               /\ dget hwnd (get_window_state s') = Some merged
               /\ (forall h r,
                     dget h held = Some r ->
                     dget h (get_window_state s')
                     = Some (if decide (r = entry) then merged
                             else deref r (objects s)))
               /\ (List.NoDup (dkeys supplied) ->
                   forall k, dget k merged
                             = match dget k supplied with
                               | Some v => Some v
                               | None => dget k (deref entry (objects s))
                               end)
           | None => objects s' = objects s
           end)
  /\ (forall previous : basic_info,
        let minimal := closed_window_info hwnd previous in
        dget "hwnd" minimal = Some (VInt hwnd)
        /\ dget "title" minimal = Some (VStr (b_title previous))
        /\ dget "class_name" minimal = Some (VStr (b_class_name previous))
        /\ dget "is_visible" minimal = Some (VBool false)
        /\ dkeys minimal = ["hwnd"; "title"; "class_name"; "pid"; "exe_path";
                            "is_visible"; "is_top_level"; "window_state"])
  /\ (forall (cb cb' : Z -> Z -> pydict -> prog (sys World) unit)
             monitor previous_windows,
        (forall e h i, delivered_by_poll previous_windows e h i ->
                       forall s0, cb e h i s0 = cb' e h i s0) ->
        forall s0, poll_cycle cb monitor previous_windows s0
                   = poll_cycle cb' monitor previous_windows s0).
Proof.
  destruct (process_event_spec event_id hwnd window_info s)
    as (s' & Hp & _ & Hstore & Hobj & _).
  cbv zeta. rewrite Hp. cbn [snd].
  split; [| split; [| split; [| split]]].
  - intros Hev.
    assert (Hst : _internal_window_state (engine s')
                  = dset hwnd window_info (_internal_window_state (engine s)))
      by (rewrite Hstore; destruct Hev as [-> | ->]; reflexivity).
    assert (Ho : objects s' = objects s)
      by (rewrite Hobj; destruct Hev as [-> | ->]; reflexivity).
    assert (Hview : get_window_state s'
                    = dset hwnd (deref window_info (objects s))
                           (get_window_state s))
      by (unfold get_window_state; rewrite Hst, Ho;
          apply (view_dset (fun r => deref r (objects s)))).
    split; [exact Hst |]. split; [exact Ho |]. split; [exact Hview |].
    rewrite Hview. apply dget_dset_eq.
  - intros Hev.
    assert (Hst : _internal_window_state (engine s')
                  = ddel hwnd (_internal_window_state (engine s)))
      by (rewrite Hstore; destruct Hev as [-> | ->]; reflexivity).
    assert (Ho : objects s' = objects s)
      by (rewrite Hobj; destruct Hev as [-> | ->]; reflexivity).
    assert (Hview : get_window_state s' = ddel hwnd (get_window_state s))
      by (unfold get_window_state; rewrite Hst, Ho;
          apply (view_ddel (fun r => deref r (objects s)))).
    split; [exact Hst |]. split; [exact Ho |]. split; [exact Hview |].
    rewrite Hview. apply dget_ddel_eq.
  - intros ->.
    assert (Hst : _internal_window_state (engine s')
                  = _internal_window_state (engine s))
      by (rewrite Hstore; reflexivity).
    split; [exact Hst |].
    change (next_objects (event_type_mapping EVENT_OBJECT_NAMECHANGE) hwnd
              window_info (_internal_window_state (engine s)) (objects s))
      with (match dget hwnd (_internal_window_state (engine s)) with
            | Some entry =>
                dset entry (dupdate (deref entry (objects s))
                                    (deref window_info (objects s)))
                     (objects s)
            | None => objects s
            end) in Hobj.
    destruct (dget hwnd (_internal_window_state (engine s))) as [entry |]
      eqn:Hentry; [| exact Hobj].
    assert (Hderef : forall r,
               deref r (objects s')
               = if decide (r = entry)
                 then dupdate (deref entry (objects s))
                              (deref window_info (objects s))
                 else deref r (objects s))
      by (intros r; rewrite Hobj; apply deref_dset).
    assert (Hall : forall h r,
               dget h (_internal_window_state (engine s)) = Some r ->
               dget h (get_window_state s')
               = Some (if decide (r = entry)
                       then dupdate (deref entry (objects s))
                                    (deref window_info (objects s))
                       else deref r (objects s))).
    { intros h r Hh. rewrite dget_get_window_state, Hst, Hh. simpl.
      rewrite Hderef. reflexivity. }
    split; [exact Hderef |]. split.
    { rewrite (Hall hwnd entry Hentry).
      destruct (decide (entry = entry)); [reflexivity | congruence]. }
    split; [exact Hall |].
    intros Hnd k. apply dget_dupdate. exact Hnd.
  - intros previous. repeat split.
  - intros cb cb' monitor previous_windows Hcb s0.
    apply poll_cycle_callback_args. exact Hcb.
Qed.

Lemma initialize_window_state_entries s :
  exists hwnds,
    entries_kept hwnds s (_initialize_window_state s).2
    /\ (forall h, In h hwnds ->
          exists l w, enum_top_level_windows (os (out s)) = (Ok l, w)
                      /\ In h l).
Proof.
  unfold _initialize_window_state, try_except.
  unfold bind at 1. simpl. unfold bind at 1.
  unfold lift_out at 1, os_call at 1. simpl.
  destruct (enum_top_level_windows (os (out s))) as [[l | e] w] eqn:He; simpl.
  - exists l. split; [| eauto].
    match goal with
    | |- context [bind (for_each ?body l) ?k ?s1] =>
        assert (Hloop : preserves (entries_kept l) (bind (for_each body l) k));
        [| specialize (Hloop s1);
           destruct (bind (for_each body l) k s1) as [[[] | e] s2] ]
    end.
    + apply preserves_bind; [typeclasses eauto | | intros _; frame].
      apply preserves_for_each; [typeclasses eauto |]. intros hwnd Hin.
      apply preserves_bind; [typeclasses eauto | frame |].
      intros window_info. destruct window_info as [| kv rest]; [frame |].
      match goal with
      | |- context [truthy ?v] => destruct (truthy v)
      end; [| frame].
      intros s0.
      unfold bind, new_object, gets, set_window_state, modify_engine, modify.
      cbn [fst snd].
      match goal with
      | |- entries_kept _ _ ?s1 =>
          pose proof (get_window_state_new_dict s0 s1 hwnd (kv :: rest)
                        eq_refl eq_refl) as Hnew
      end.
      split.
      * intros h Hs. rewrite Hnew.
        destruct (decide (h = hwnd)); [eauto | exact Hs].
      * intros h Hh. rewrite Hnew. rewrite decide_False; [reflexivity |].
        intros ->. tauto.
    + unfold entries_kept in *. simpl in *. exact Hloop.
    + unfold entries_kept in *. simpl in *. exact Hloop.
  - exists []. split; [| intros h []]. split; auto.
Qed.

(** C10: refreshing the window state, and the initial load it reuses,
    deletes nothing: every handle in the store before is in the store
    after, and the entry of a handle that the enumeration of the open
    windows does not list is the same after as before. *)
Theorem refresh_window_state_keeps_entries s h entry :
  dget h (get_window_state s) = Some entry ->
  (is_Some (dget h (get_window_state (refresh_window_state s).2))
   /\ is_Some (dget h (get_window_state (_initialize_window_state s).2)))
  /\ ((forall l w, enum_top_level_windows (os (out s)) = (Ok l, w) -> ~ In h l) ->
      dget h (get_window_state (refresh_window_state s).2) = Some entry
      /\ dget h (get_window_state (_initialize_window_state s).2) = Some entry).
Proof.
  intros Hentry.
  assert (Hinit : forall s0 : sys World,
             dget h (get_window_state s0) = Some entry ->
             os (out s0) = os (out s) ->
             is_Some (dget h (get_window_state (_initialize_window_state s0).2))
             /\ ((forall l w, enum_top_level_windows (os (out s)) = (Ok l, w) ->
                              ~ In h l) ->
                 dget h (get_window_state (_initialize_window_state s0).2)
                 = Some entry)).
  { intros s0 Hs0 Hos.
    destruct (initialize_window_state_entries s0) as (hwnds & [Hk He] & Hl).
    split.
    - apply Hk. rewrite Hs0. eauto.
    - intros Hnot. rewrite He; trivial. intros Hin.
      destruct (Hl h Hin) as (l & w & Henum & Hinl).
      rewrite Hos in Henum. exact (Hnot l w Henum Hinl). }
  assert (Hrefresh :
            get_window_state (refresh_window_state s).2
            = get_window_state
                (_initialize_window_state
                   (slog INFO "Refreshing window state..." s).2).2).
  { unfold refresh_window_state, try_except. unfold bind at 1. simpl.
    match goal with
    | |- context [_initialize_window_state ?s1] =>
        destruct (_initialize_window_state s1) as [[[] | e] s2]
    end; reflexivity. }
  rewrite Hrefresh.
  destruct (Hinit s Hentry eq_refl) as [H1 H2].
  destruct (Hinit (slog INFO "Refreshing window state..." s).2 Hentry eq_refl)
    as [H3 H4].
  split; [split; assumption |]. intros Hnot. split; auto.
Qed.
End engine_theorems.

(** ** Evaluation of the rules *)

Lemma total_lift_result_ok {S A} (a : A) : total (lift_result (S := S) (Ok a)).
Proof. intros s. exists a. reflexivity. Qed.

Lemma total_gets {S A} (f : S -> A) : total (gets f).
Proof. intros s. exists (f s). reflexivity. Qed.

Lemma total_unit {S} (m : prog S unit) s : total m -> (m s).1 = Ok tt.
Proof. intros Hm. destruct (Hm s) as [[] Ha]. exact Ha. Qed.

Lemma bind_ok {S A B} (m : prog S A) (f : A -> prog S B) s a s' :
  m s = (Ok a, s') -> bind m f s = f a s'.
Proof. intros Hm. unfold bind. rewrite Hm. reflexivity. Qed.

Lemma bind_lift_ok {S A B} (a : A) (f : A -> prog S B) s :
  bind (lift_result (Ok a)) f s = f a s.
Proof. reflexivity. Qed.

Create HintDb totals.
#[export] Hint Resolve total_ret total_modify total_lift_result_ok total_gets
  total_slog : totals.

Ltac totality :=
  repeat first
    [ solve [auto with totals]
    | apply total_try_except; intros ?
    | apply total_bind; [| intros ?]
    | apply total_lift_out
    | match goal with
      | |- total (if ?b then _ else _) => destruct b
      | |- total (match ?x with _ => _ end) => destruct x
      end ].

Section evaluation.
Context {World : Type} `{WindowAccess World} `{PyLib}.
Implicit Types (s : sys World) (o : outside World).

#[local] Existing Instances engine_unchanged_preorder
  windows_unchanged_preorder evaluated_unchanged_preorder.

Lemma total_olog lvl msg : total (olog (World := World) lvl msg).
Proof. intros o. exists tt. reflexivity. Qed.
#[local] Hint Resolve total_olog : totals.

Lemma total_perform_action action_type target_windows new_window_info :
  total (perform_action (World := World) action_type target_windows
           new_window_info).
Proof. unfold perform_action. totality. Qed.

Lemma total_filter_target_windows rule new_window_info :
  total (_filter_target_windows (World := World) rule new_window_info).
Proof. unfold _filter_target_windows. totality. Qed.

Lemma match_rule_condition_ok rule event_type window_info b s :
  match_condition rule event_type window_info = Ok b ->
  _match_rule_condition rule event_type window_info s
  = (Ok b, {| engine := engine s; out := out s;
              evaluated := evaluated s ++ [rule];
              objects := objects s |}).
Proof.
  intros Hm. unfold _match_rule_condition, try_except, bind, modify,
    lift_result. rewrite Hm. reflexivity.
Qed.

Lemma match_rule_condition_raise rule event_type window_info e s :
  match_condition rule event_type window_info = Raise e ->
  _match_rule_condition rule event_type window_info s
  = (Ok false,
     {| engine := engine s;
        out := {| os := os (out s);
                  log := log (out s)
                         ++ [(ERROR, "Error matching rule condition: {e}")] |};
        evaluated := evaluated s ++ [rule];
        objects := objects s |}).
Proof.
  intros Hm. unfold _match_rule_condition, try_except, bind, modify,
    lift_result. rewrite Hm. reflexivity.
Qed.

Lemma match_rule_condition_spec rule event_type window_info s :
  exists b s1,
    _match_rule_condition rule event_type window_info s = (Ok b, s1)
    /\ engine s1 = engine s
    /\ evaluated s1 = evaluated s ++ [rule].
Proof.
  destruct (match_condition rule event_type window_info) as [b | e] eqn:Hm.
  - rewrite (match_rule_condition_ok _ _ _ _ _ Hm). eauto.
  - rewrite (match_rule_condition_raise _ _ _ _ _ Hm). eauto.
Qed.

Lemma evaluate_rule_evaluated event_type window_info rule s :
  evaluated (evaluate_rule event_type window_info rule s).2
  = evaluated s ++ [rule].
Proof.
  unfold evaluate_rule, bind.
  destruct (match_rule_condition_spec rule event_type window_info s)
    as (b & s1 & -> & _ & He).
  destruct b; simpl; [| exact He].
  rewrite <- He.
  apply (preserves_apply_rule evaluated_unchanged event_type window_info rule
           evaluated_unchanged_outside evaluated_unchanged_counts s1).
Qed.

Lemma slog_eq lvl msg s :
  slog lvl msg s = (Ok tt, with_out s (add_log lvl msg (out s))).
Proof. reflexivity. Qed.

Lemma lift_out_eq {A} (m : prog (outside World) A) s r o :
  m (out s) = (r, o) -> lift_out m s = (r, with_out s o).
Proof. intros Hm. unfold lift_out. rewrite Hm. reflexivity. Qed.

(** The dispatch of a rule with an action type: [perform_action] returns
    a truth value, and the rule is counted or the failure logged. *)
Lemma dispatch_action_spec rule name action action_type targets window_info s :
  py_subscript rule "action" = Ok action ->
  py_subscript action "type" = Ok action_type ->
  exists success o,
    perform_action action_type targets window_info (out s) = (Ok success, o)
    /\ dispatch_action rule name targets window_info s
       = if success then
           (run! count_execution name in
            slog INFO "Successfully executed rule '{name}' on {len} windows")
             (with_out s o)
         else slog WARNING "Failed to execute rule '{name}'" (with_out s o).
Proof.
  intros Haction Htype.
  destruct (total_perform_action action_type targets window_info (out s))
    as [success Hs].
  destruct (perform_action action_type targets window_info (out s))
    as [r o] eqn:Hp.
  simpl in Hs. subst r. exists success, o. split; [reflexivity |].
  unfold dispatch_action.
  rewrite Haction, bind_lift_ok, Htype, bind_lift_ok.
  rewrite (bind_ok _ _ _ _ _ (lift_out_eq _ _ _ _ Hp)).
  destruct success; reflexivity.
Qed.

Lemma count_execution_ok name key s :
  py_hash name = Ok key ->
  exists s', count_execution name s = (Ok tt, s')
             /\ out s' = out s /\ evaluated s' = evaluated s.
Proof.
  intros Hk. unfold count_execution. rewrite Hk.
  eexists. split; [reflexivity |]. split; reflexivity.
Qed.

(** A rule of the expected types that matched is applied without an
    exception, and what came of it is the last entry of the log. *)
Lemma apply_rule_ok event_type window_info rule s :
  rule_well_typed rule = true ->
  exists s',
    apply_rule event_type window_info rule s = (Ok tt, s')
    /\ exists l entry, log (out s') = l ++ [entry] /\ In entry outcome_entries.
Proof.
  unfold rule_well_typed. intros Hw.
  destruct (py_subscript rule "name") as [name | e] eqn:Hname;
    [| discriminate].
  destruct (py_subscript rule "action") as [action | e] eqn:Haction;
    [| discriminate].
  apply andb_true_iff in Hw as [Hw _]. apply andb_true_iff in Hw as [Hh Ht].
  destruct (py_hash name) as [key | e] eqn:Hkey; [| discriminate].
  destruct (py_subscript action "type") as [action_type | e] eqn:Htype;
    [| discriminate].
  unfold apply_rule. rewrite Hname, bind_lift_ok.
  rewrite (bind_ok _ _ _ _ _ (slog_eq _ _ _)).
  match goal with
  | |- context [bind _ _ ?s0] => set (s1 := s0)
  end.
  destruct (total_filter_target_windows rule window_info s1) as [targets Hf].
  destruct (_filter_target_windows rule window_info s1) as [r s2] eqn:Hfs.
  simpl in Hf. subst r. rewrite (bind_ok _ _ _ _ _ Hfs).
  destruct targets as [| target targets].
  - rewrite slog_eq. eexists. split; [reflexivity |].
    simpl. do 2 eexists. split; [reflexivity |]. simpl. auto.
  - destruct (dispatch_action_spec rule name action action_type
                (target :: targets) window_info s2 Haction Htype)
      as (success & o & _ & ->).
    destruct success.
    + destruct (count_execution_ok name key (with_out s2 o) Hkey)
        as (s3 & Hc & Ho & _).
      rewrite (bind_ok _ _ _ _ _ Hc), slog_eq.
      eexists. split; [reflexivity |].
      simpl. do 2 eexists. split; [reflexivity |]. simpl. auto.
    + rewrite slog_eq. eexists. split; [reflexivity |].
      simpl. do 2 eexists. split; [reflexivity |]. simpl. auto.
Qed.

Lemma evaluate_rule_ok event_type window_info rule s :
  rule_well_typed rule = true ->
  (evaluate_rule event_type window_info rule s).1 = Ok tt.
Proof.
  intros Hw. unfold evaluate_rule.
  destruct (match_rule_condition_spec rule event_type window_info s)
    as (b & s1 & Hm & _).
  rewrite (bind_ok _ _ _ _ _ Hm). destruct b; [| reflexivity].
  destruct (apply_rule_ok event_type window_info rule s1 Hw) as (s' & -> & _).
  reflexivity.
Qed.

Lemma evaluate_all_ok event_type window_info rules s :
  Forall (fun r => rule_well_typed r = true) rules ->
  exists s',
    for_each (evaluate_rule event_type window_info) rules s = (Ok tt, s')
    /\ evaluated s' = evaluated s ++ rules.
Proof.
  intros Hw. revert s. induction Hw as [| rule rules Hr _ IH]; intros s; simpl.
  - eexists. split; [reflexivity |]. rewrite app_nil_r. reflexivity.
  - pose proof (evaluate_rule_ok event_type window_info rule s Hr) as Hok.
    pose proof (evaluate_rule_evaluated event_type window_info rule s) as Hev.
    destruct (evaluate_rule event_type window_info rule s) as [r s1] eqn:He.
    simpl in Hok, Hev. subst r. rewrite (bind_ok _ _ _ _ _ He).
    destruct (IH s1) as (s' & -> & Hs'). eexists. split; [reflexivity |].
    rewrite Hs', Hev, <- app_assoc. reflexivity.
Qed.

(** Whatever the rules, the rules handed to [_match_rule_condition] are
    taken from the front of the list. *)
Lemma evaluate_all_trace event_type window_info rules s :
  exists l,
    evaluated (for_each (evaluate_rule event_type window_info) rules s).2
    = evaluated s ++ l
    /\ (forall r, In r l -> In r rules).
Proof.
  revert s. induction rules as [| rule rules IH]; intros s; simpl.
  - exists []. rewrite app_nil_r. split; [reflexivity | tauto].
  - pose proof (evaluate_rule_evaluated event_type window_info rule s) as Hev.
    unfold bind.
    destruct (evaluate_rule event_type window_info rule s) as [[[] | e] s1];
      simpl in *.
    + destruct (IH s1) as (l & Hl & Hin). exists (rule :: l).
      rewrite Hl, Hev, <- app_assoc. split; [reflexivity |].
      intros r [<- | Hr]; auto.
    + exists [rule]. split; [exact Hev |]. intros r [<- | []]. auto.
Qed.

Lemma well_typed_int_priority rule :
  rule_well_typed rule = true -> is_Some (int_priority rule).
Proof.
  unfold rule_well_typed. intros Hw.
  destruct (py_subscript rule "name"); [| discriminate].
  destruct (py_subscript rule "action"); [| discriminate].
  apply andb_true_iff in Hw as [_ Hw]. apply bool_decide_eq_true in Hw.
  exact Hw.
Qed.

Lemma evaluate_rules_ok event_type window_info enabled s :
  get_enabled_rules (rules_config (engine s)) = Ok enabled ->
  Forall (fun r => rule_well_typed r = true) enabled ->
  exists sorted s',
    sort_rules_by_priority enabled = Ok sorted
    /\ Permutation enabled sorted
    /\ evaluate_rules event_type window_info s = (Ok tt, s')
    /\ evaluated s' = evaluated s ++ sorted.
Proof.
  intros He Hw.
  assert (Hint : Forall (fun r => is_Some (int_priority r)) enabled).
  { eapply List.Forall_impl; [| exact Hw]. apply well_typed_int_priority. }
  pose proof (sort_rules_by_priority_int enabled Hint) as Hsort.
  pose proof (sort_rules_by_priority_perm enabled _ Hsort) as Hperm.
  assert (Hws : Forall (fun r => rule_well_typed r = true)
                  (map snd (sorted_desc (map (fun r => (priority_of r, r))
                                             enabled)))).
  { apply (Permutation_Forall Hperm). exact Hw. }
  destruct (evaluate_all_ok event_type window_info _ s Hws) as (s' & Hall & Hev).
  eexists _, s'. split; [exact Hsort |]. split; [exact Hperm |].
  split; [| exact Hev].
  unfold evaluate_rules. unfold bind at 1, gets at 1. rewrite He.
  unfold bind at 1, lift_result at 1. rewrite Hsort.
  unfold bind at 1, lift_result at 1. exact Hall.
Qed.

Lemma process_event_steps event_id hwnd window_info s :
  exists s2,
    rules_config (engine s2) = rules_config (engine s)
    /\ evaluated s2 = evaluated s
    /\ process_event event_id hwnd window_info s
       = try_except (evaluate_rules (event_type_mapping event_id)
                       (deref window_info (objects s2)))
           (fun _ => slog ERROR "Error processing event: {e}") s2.
Proof.
  unfold process_event, process_event_body.
  unfold try_except at 1. unfold bind at 1. simpl.
  unfold bind at 1. simpl. unfold bind at 1.
  match goal with
  | |- context [_update_window_state ?et ?h ?w ?s1] =>
      pose proof (update_window_state_spec et h w s1) as Hu;
      destruct (_update_window_state et h w s1) as [r2 s2]
  end.
  simpl in Hu. destruct Hu as (-> & _ & _ & Hrules & _ & _ & Hev).
  exists s2. split; [exact Hrules |]. split; [exact Hev |]. reflexivity.
Qed.
(** C2, corrected: when the enabled rules are records with a name that
    can key the counts, an action with a type and an integer priority,
    [process_event] hands every enabled rule to the matcher, in the order
    of the priorities: a rule that matched does not end the loop.  An
    exception raised while a trigger is matched is caught and logged and
    counts as no match; the dispatch of an action never raises; what came
    of a rule that matched is logged; and the loop goes on with the rules
    that remain.  Without these types the loop can end early: the body
    of the loop has no handler of its own, and the one around the whole
    of [process_event] ends the evaluation. *)
Theorem process_event_evaluates_every_enabled_rule
    event_id hwnd (window_info : ref) s enabled :
  get_enabled_rules (rules_config (engine s)) = Ok enabled ->
  Forall (fun r => rule_well_typed r = true) enabled ->
  let event_type := event_type_mapping event_id in
  let r := process_event event_id hwnd window_info s in
  (exists sorted,
      sort_rules_by_priority enabled = Ok sorted
      /\ Permutation enabled sorted
      /\ evaluated r.2 = evaluated s ++ sorted)
  /\ r.1 = Ok tt
  /\ (forall rule (new_window_info : pydict) s0,
        exists b s1,
          _match_rule_condition rule event_type new_window_info s0 = (Ok b, s1)
          /\ (forall e,
                match_condition rule event_type new_window_info = Raise e ->
                b = false
                /\ log (out s1)
                   = log (out s0)
                     ++ [(ERROR, "Error matching rule condition: {e}")]))
  /\ (forall action_type targets (new_window_info : pydict) o,
        exists success o',
          perform_action action_type targets new_window_info o
          = (Ok success, o'))
  /\ (forall rule (new_window_info : pydict) s0,
        rule_well_typed rule = true ->
        exists s1 l entry,
          apply_rule event_type new_window_info rule s0 = (Ok tt, s1)
          /\ log (out s1) = l ++ [entry]
          /\ In entry outcome_entries).
Proof.
  intros He Hw event_type r.
  destruct (process_event_steps event_id hwnd window_info s)
    as (s2 & Hrules & Hev & Hp).
  rewrite <- Hrules in He.
  destruct (evaluate_rules_ok event_type (deref window_info (objects s2))
              enabled s2 He Hw)
    as (sorted & s' & Hsort & Hperm & Hall & Hev').
  assert (Hr : r = (Ok tt, s')).
  { unfold r. rewrite Hp. unfold try_except. fold event_type.
    rewrite Hall. reflexivity. }
  rewrite Hr. simpl.
  split; [exists sorted; rewrite Hev', Hev; auto |].
  split; [reflexivity |].
  split; [| split].
  - intros rule new_window_info s0.
    destruct (match_condition rule event_type new_window_info) as [b | e] eqn:Hm.
    + rewrite (match_rule_condition_ok _ _ _ _ _ Hm).
      do 2 eexists. split; [reflexivity |]. intros e' He'. discriminate.
    + rewrite (match_rule_condition_raise _ _ _ _ _ Hm).
      do 2 eexists. split; [reflexivity |]. intros e' _. split; reflexivity.
  - intros action_type targets new_window_info o.
    destruct (total_perform_action action_type targets new_window_info o)
      as [success Hs].
    destruct (perform_action action_type targets new_window_info o) as [res o'].
    simpl in Hs. subst res. eauto.
  - intros rule new_window_info s0 Hrule.
    destruct (apply_rule_ok event_type new_window_info rule s0 Hrule)
      as (s1 & Ha & l & entry & Hl & Hin).
    eauto 6.
Qed.

(** The dispatch of an action type that is none of the five: a warning
    and [False]. *)
Lemma perform_action_unknown action_type targets window_info o :
  in_names action_type valid_action_types = false ->
  perform_action action_type targets window_info o
  = (Ok false,
     add_log WARNING "Unknown action type: {action_type}"
       (add_log INFO
          "Performing action: {action_type} on {len(target_windows)} windows"
          o)).
Proof.
  unfold in_names, valid_action_types. simpl. intros Hn.
  repeat (apply orb_false_elim in Hn as [?Hn Hn]).
  unfold perform_action, try_except, bind, olog, modify, ret. simpl.
  rewrite Hn0, Hn1, Hn2, Hn3, Hn4. reflexivity.
Qed.

(** C5: a rule that matches and whose action type is none of the five:
    the dispatch returns [False] and logs the unknown type; the engine
    logs that the rule was not executed (or that it has no targets, in
    which case nothing is dispatched); the execution counts are as
    before; the loop goes on with the remaining rules; and the event has
    been counted. *)
Theorem unknown_action_type_is_not_fatal
    event_type window_info rule name action action_type rest s :
  match_condition rule event_type window_info = Ok true ->
  py_subscript rule "name" = Ok name ->
  py_subscript rule "action" = Ok action ->
  py_subscript action "type" = Ok action_type ->
  in_names action_type valid_action_types = false ->
  let r := evaluate_rule event_type window_info rule s in
  (forall targets o,
      perform_action action_type targets window_info o
      = (Ok false,
         add_log WARNING "Unknown action type: {action_type}"
           (add_log INFO
              "Performing action: {action_type} on {len(target_windows)} windows"
              o)))
  /\ r.1 = Ok tt
  /\ rule_execution_counts (get_statistics r.2)
     = rule_execution_counts (get_statistics s)
  /\ (exists l entry,
        log (out r.2) = l ++ [entry]
        /\ (entry = (WARNING, "Failed to execute rule '{name}'")
            \/ entry = (DEBUG, "Rule '{name}' matched but no target windows found")))
  /\ for_each (evaluate_rule event_type window_info) (rule :: rest) s
     = for_each (evaluate_rule event_type window_info) rest r.2
  /\ (forall event_id hwnd (dict : ref) s0,
        total_events_processed
          (get_statistics (process_event event_id hwnd dict s0).2)
        = total_events_processed (get_statistics s0) + 1).
Proof.
  intros Hm Hname Haction Htype Hunknown r.
  split; [intros targets o; apply perform_action_unknown; exact Hunknown |].
  assert (Hr : exists s',
             r = (Ok tt, s') /\ engine s' = engine s
             /\ exists l entry,
                  log (out s') = l ++ [entry]
                  /\ (entry = (WARNING, "Failed to execute rule '{name}'")
                      \/ entry = (DEBUG,
                            "Rule '{name}' matched but no target windows found"))).
  { unfold r, evaluate_rule.
    rewrite (bind_ok _ _ _ _ _ (match_rule_condition_ok _ _ _ _ s Hm)).
    unfold apply_rule. rewrite Hname, bind_lift_ok.
    rewrite (bind_ok _ _ _ _ _ (slog_eq _ _ _)).
    match goal with
    | |- context [bind _ _ ?s0] => set (s1 := s0)
    end.
    destruct (total_filter_target_windows rule window_info s1) as [targets Hf].
    pose proof (preserves_filter_target_windows engine_unchanged rule
                  window_info engine_unchanged_outside s1) as Hframe.
    destruct (_filter_target_windows rule window_info s1) as [res s2] eqn:Hfs.
    simpl in Hf, Hframe. subst res. rewrite (bind_ok _ _ _ _ _ Hfs).
    unfold engine_unchanged in Hframe.
    destruct targets as [| target targets].
    - rewrite slog_eq. eexists. split; [reflexivity |].
      split; [exact Hframe |]. simpl. eauto.
    - destruct (dispatch_action_spec rule name action action_type
                  (target :: targets) window_info s2 Haction Htype)
        as (success & o & Hp & ->).
      rewrite (perform_action_unknown _ _ _ _ Hunknown) in Hp.
      injection Hp as <- <-. rewrite slog_eq.
      eexists. split; [reflexivity |]. split; [exact Hframe |].
      simpl. eauto. }
  destruct Hr as (s' & Hr & Hengine & Hlog).
  unfold r in *. clear r. rewrite Hr. simpl.
  split; [reflexivity |]. split; [rewrite Hengine; reflexivity |].
  split; [exact Hlog |]. split.
  - unfold bind. rewrite Hr. reflexivity.
  - intros event_id hwnd dict s0.
    destruct (process_event_spec event_id hwnd dict s0)
      as (s1 & -> & Hcount & _).
    exact Hcount.
Qed.
End evaluation.

(** ** Matching a trigger *)

Lemma py_eq_str_r v s : py_eq v (VStr s) = true <-> v = VStr s.
Proof.
  destruct v; simpl; split; intros Hv; try discriminate.
  - apply String.eqb_eq in Hv. congruence.
  - injection Hv as ->. apply String.eqb_refl.
Qed.

Lemma py_eq_str a b : py_eq (VStr a) (VStr b) = true <-> a = b.
Proof. rewrite py_eq_str_r. split; congruence. Qed.

Lemma dget_default_str k (d : pydict) s :
  dget k d = Some (VStr s) -> dget_default k VNone d = VStr s.
Proof. unfold dget_default. intros ->. reflexivity. Qed.

Section matching.
Context `{PyLib}.

Lemma check_executable_name_true trigger window_info :
  check_executable_name (VDict trigger) window_info = Ok true <->
  (forall v, dget "executable_name" trigger = Some v ->
     exists expected path,
       v = VStr expected
       /\ dget "exe_path" window_info = Some (VStr path)
       /\ path <> ""
       /\ str_lower (os_path_basename path) = str_lower expected).
Proof.
  unfold check_executable_name, py_contains, py_subscript, dmem, dget_default.
  simpl. destruct (dget "executable_name" trigger) as [v |]; simpl.
  2: { split; [intros _ v Hv; discriminate | reflexivity]. }
  split.
  - intros Hc v' Hv'. injection Hv' as <-.
    destruct v as [| | | expected | |]; try discriminate. simpl in Hc.
    destruct (dget "exe_path" window_info) as [w |];
      [| simpl in Hc; discriminate].
    destruct (truthy w) eqn:Ht; [| discriminate].
    destruct w as [| | | path | |]; try discriminate. simpl in Hc, Ht.
    injection Hc as Hc. apply String.eqb_eq in Hc.
    exists expected, path. repeat split; trivial.
    intros ->. discriminate.
  - intros Hc. destruct (Hc v eq_refl) as (expected & path & -> & -> & Hp & He).
    simpl. apply String.eqb_neq in Hp. rewrite Hp. simpl.
    rewrite He, String.eqb_refl. reflexivity.
Qed.

Lemma check_window_class_true trigger window_info :
  check_window_class (VDict trigger) window_info = Ok true <->
  (forall v, dget "window_class" trigger = Some v ->
     py_eq (dget_default "class_name" (VStr "") window_info) v = true).
Proof.
  unfold check_window_class, py_contains, py_subscript, dmem. simpl.
  destruct (dget "window_class" trigger) as [v |]; simpl.
  - split.
    + intros Hc v' Hv'. injection Hv' as <-. congruence.
    + intros Hc. rewrite (Hc v eq_refl). reflexivity.
  - split; [intros _ v Hv; discriminate | reflexivity].
Qed.

Lemma check_title_pattern_true trigger window_info :
  check_title_pattern (VDict trigger) window_info = Ok true <->
  (forall v, dget "title_pattern" trigger = Some v ->
     exists pattern title,
       v = VStr pattern
       /\ dget_default "title" (VStr "") window_info = VStr title
       /\ re_search pattern title = Ok true).
Proof.
  unfold check_title_pattern, py_contains, py_subscript, dmem. simpl.
  destruct (dget "title_pattern" trigger) as [v |]; simpl.
  2: { split; [intros _ v Hv; discriminate | reflexivity]. }
  split.
  - intros Hc v' Hv'. injection Hv' as <-. unfold py_re_search in Hc.
    destruct v as [| | | pattern | |]; try discriminate.
    destruct (dget_default "title" (VStr "") window_info)
      as [| | | title | |]; try discriminate.
    eauto.
  - intros Hc. destruct (Hc v eq_refl) as (pattern & title & -> & -> & Hs).
    exact Hs.
Qed.

Lemma match_condition_true rule event_type window_info :
  match_condition rule event_type window_info = Ok true <->
  trigger_matches rule event_type window_info.
Proof.
  unfold match_condition, trigger_matches. split.
  - intros Hm. destruct rule as [| | | | | d]; try discriminate.
    simpl in Hm.
    destruct (dget_default "trigger" (VDict []) d)
      as [| | | | | trigger] eqn:Ht; try discriminate.
    simpl in Hm.
    destruct (py_eq (dget_default "event_type" VNone trigger) (VStr event_type))
      eqn:He; [| discriminate].
    simpl in Hm. apply py_eq_str_r in He.
    destruct (check_executable_name (VDict trigger) window_info)
      as [[|] | e] eqn:H1; try discriminate.
    simpl in Hm.
    destruct (check_window_class (VDict trigger) window_info)
      as [[|] | e] eqn:H2; try discriminate.
    simpl in Hm.
    destruct (check_title_pattern (VDict trigger) window_info)
      as [[|] | e] eqn:H3; try discriminate.
    exists d, trigger. split; [reflexivity |]. split; [exact Ht |].
    split.
    { unfold dget_default in He.
      destruct (dget "event_type" trigger); [congruence | discriminate]. }
    split; [apply check_executable_name_true; exact H1 |].
    split; [apply check_window_class_true; exact H2 |].
    apply check_title_pattern_true; exact H3.
  - intros (d & trigger & -> & Ht & He & H1 & H2 & H3). simpl.
    rewrite Ht. simpl. rewrite (dget_default_str _ _ _ He).
    rewrite (proj2 (py_eq_str_r _ _) eq_refl). simpl.
    rewrite (proj2 (check_executable_name_true _ _) H1). simpl.
    rewrite (proj2 (check_window_class_true _ _) H2). simpl.
    rewrite (proj2 (check_title_pattern_true _ _) H3). reflexivity.
Qed.
End matching.

Section matching_engine.
Context {World : Type} `{WindowAccess World} `{PyLib}.

(** C4: [_match_rule_condition] returns a truth value, leaves the engine
    as it is, and returns [True] exactly when the event type is the one
    of the trigger; and, when the trigger has an executable name, the
    window has a non-empty executable path whose base name is that name
    up to case; and, when the trigger has a window class, the class of
    the window is equal to it (for strings: the same string); and, when
    the trigger has a title pattern, [re.search] finds the pattern in
    the title. *)
Theorem match_rule_condition_exactly_when rule event_type window_info
    (s : sys World) :
  (exists b s1,
      _match_rule_condition rule event_type window_info s = (Ok b, s1)
      /\ engine s1 = engine s)
  /\ ((_match_rule_condition rule event_type window_info s).1 = Ok true
      <-> trigger_matches rule event_type window_info)
  /\ (forall a b, py_eq (VStr a) (VStr b) = true <-> a = b).
Proof.
  split; [| split].
  - destruct (match_rule_condition_spec rule event_type window_info s)
      as (b & s1 & Hm & He & _).
    eauto.
  - rewrite <- match_condition_true.
    destruct (match_condition rule event_type window_info) as [b | e] eqn:Hm.
    + rewrite (match_rule_condition_ok _ _ _ _ s Hm). reflexivity.
    + rewrite (match_rule_condition_raise _ _ _ _ s Hm). simpl.
      split; discriminate.
  - apply py_eq_str.
Qed.
End matching_engine.

(** ** Validation of the rules *)

Lemma in_names_true v names : in_names v names = true <-> In v (map VStr names).
Proof.
  unfold in_names. rewrite existsb_exists, in_map_iff. split.
  - intros (n & Hn & Hv). apply py_eq_str_r in Hv. eauto.
  - intros (n & Hv & Hn). exists n. split; [exact Hn |].
    apply py_eq_str_r. congruence.
Qed.

Lemma in_names_false v names :
  in_names v names = false <-> ~ In v (map VStr names).
Proof.
  rewrite <- in_names_true. destruct (in_names v names); split; congruence.
Qed.

#[local] Arguments in_names : simpl never.

(** The three ways the loop over the required fields ends *)
Lemma check_required_cases fields rule lg :
  (check_required fields rule lg = (Ok true, lg)
   /\ forall f, In f fields -> py_contains f rule = Ok true)
  \/ (exists msg, check_required fields rule lg = (Ok false, lg ++ [(WARNING, msg)]))
  \/ (exists e, check_required fields rule lg = (Raise e, lg)).
Proof.
  induction fields as [| field fields IH]; simpl.
  - left. split; [reflexivity | tauto].
  - unfold bind at 1, lift_result at 1.
    destruct (py_contains field rule) as [[|] | e] eqn:Hc; simpl.
    + destruct IH as [[-> Hall] | IH]; [| right; exact IH].
      left. split; [reflexivity |]. intros f [<- | Hf]; auto.
    + right. left. eexists. reflexivity.
    + right. right. eexists. reflexivity.
Qed.

Lemma validate_rule_body_dict d lg :
  (well_formed_rule (VDict d)
   /\ _validate_rule_body (VDict d) lg = (Ok true, lg))
  \/ (~ well_formed_rule (VDict d)
      /\ exists msg,
           _validate_rule_body (VDict d) lg = (Ok false, lg ++ [(WARNING, msg)])).
Proof.
  unfold _validate_rule_body, required_fields, well_formed_rule.
  unfold check_required, py_contains, py_get, py_subscript, isinstance_dict,
    dget_default, dmem, bind, lift_result, logging, modify, ret.
  destruct (dget "name" d) as [name |] eqn:Hname; simpl.
  2: { right. split; [| eauto]. intros (? & ? & ? & ? & ? & ? & ? & Hd & ?).
       injection Hd as <-. intuition congruence. }
  destruct (dget "enabled" d) as [enabled |] eqn:Henabled; simpl.
  2: { right. split; [| eauto]. intros (? & ? & ? & ? & ? & ? & ? & Hd & ?).
       injection Hd as <-. intuition congruence. }
  destruct (dget "trigger" d) as [trigger |] eqn:Htrigger; simpl.
  2: { right. split; [| eauto]. intros (? & ? & ? & ? & ? & ? & ? & Hd & ?).
       injection Hd as <-. intuition congruence. }
  destruct (dget "action" d) as [action |] eqn:Haction; simpl.
  2: { right. split; [| eauto]. intros (? & ? & ? & ? & ? & ? & ? & Hd & ?).
       injection Hd as <-. intuition congruence. }
  destruct trigger as [| | | | | td];
    try (right; split; [| eauto];
         intros (? & ? & ? & ? & ? & ? & ? & Hd & ?);
         injection Hd as <-; intuition congruence).
  destruct action as [| | | | | ad];
    try (right; split; [| eauto];
         intros (? & ? & ? & ? & ? & ? & ? & Hd & ?);
         injection Hd as <-; intuition congruence).
  simpl.
  destruct (dget "event_type" td) as [event_type |] eqn:Hevent; simpl.
  2: { right. split; [| eauto].
       intros (? & ? & ? & ? & ? & ? & ? & Hd & ? & ? & Ht & Ha & He & ?).
       injection Hd as <-. rewrite Htrigger in Ht. injection Ht as <-.
       congruence. }
  destruct (dget "type" ad) as [action_type |] eqn:Htype; simpl.
  2: { right. split; [| eauto].
       intros (? & ? & ? & ? & ? & ? & ? & Hd & ? & ? & Ht & Ha & He & ? & Hty & ?).
       injection Hd as <-. rewrite Haction in Ha. injection Ha as <-.
       congruence. }
  destruct (in_names event_type valid_event_types) eqn:Hie; simpl.
  2: { right. split; [| eauto]. apply in_names_false in Hie.
       intros (? & ? & ? & ? & ? & ? & ? & Hd & ? & ? & Ht & Ha & He & Hin & ?).
       injection Hd as <-. rewrite Htrigger in Ht. injection Ht as <-.
       rewrite Hevent in He. injection He as <-. apply Hie. exact Hin. }
  destruct (in_names action_type valid_action_types) eqn:Hia; simpl.
  2: { right. split; [| eauto]. apply in_names_false in Hia.
       intros (? & ? & ? & ? & ? & ? & ? & Hd & ? & ? & Ht & Ha & He & ? & Hty & Hin).
       injection Hd as <-. rewrite Haction in Ha. injection Ha as <-.
       rewrite Htype in Hty. injection Hty as <-. apply Hia. exact Hin. }
  left. split; [| reflexivity].
  apply in_names_true in Hie, Hia.
  exists d, name, enabled, td, ad, event_type, action_type.
  repeat split; trivial.
Qed.

Lemma validate_rule_body_other rule lg :
  isinstance_dict rule = false ->
  (exists msg, _validate_rule_body rule lg = (Ok false, lg ++ [(WARNING, msg)]))
  \/ (exists e, _validate_rule_body rule lg = (Raise e, lg)).
Proof.
  intros Hd. unfold _validate_rule_body.
  destruct (check_required_cases required_fields rule lg)
    as [[Hc _] | [[msg Hc] | [e Hc]]].
  - right. unfold bind at 1. rewrite Hc. simpl.
    destruct rule; try discriminate; eexists; reflexivity.
  - left. exists msg. unfold bind at 1. rewrite Hc. reflexivity.
  - right. exists e. unfold bind at 1. rewrite Hc. reflexivity.
Qed.

(** A rule passes [_validate_rule] exactly when it is well formed; a rule
    that does not pass costs one warning. *)
Lemma validate_rule_spec rule index lg :
  (well_formed_rule rule /\ _validate_rule rule index lg = (Ok true, lg))
  \/ (~ well_formed_rule rule
      /\ exists msg,
           _validate_rule rule index lg = (Ok false, lg ++ [(WARNING, msg)])).
Proof.
  unfold _validate_rule, try_except.
  destruct (isinstance_dict rule) eqn:Hd.
  - destruct rule as [| | | | | d]; try discriminate.
    destruct (validate_rule_body_dict d lg) as [[Hw ->] | [Hw [msg ->]]]; eauto.
  - right. split.
    + intros (d & ? & ? & ? & ? & ? & ? & -> & _). discriminate.
    + destruct (validate_rule_body_other rule lg Hd) as [[msg ->] | [e ->]].
      * eauto.
      * eexists. reflexivity.
Qed.

Lemma validate_each_spec rules : forall index lg,
  exists loaded warnings,
    validate_each index rules lg = (Ok loaded, lg ++ warnings)
    /\ (forall rule, In rule loaded <-> In rule rules /\ well_formed_rule rule)
    /\ sublist loaded rules
    /\ Forall (fun entry => entry.1 = WARNING) warnings
    /\ (length warnings + length loaded = length rules)%nat.
Proof.
  induction rules as [| rule rules IH]; intros index lg; simpl.
  - exists [], []. rewrite app_nil_r. split; [reflexivity |].
    split; [intros r; simpl; tauto |].
    split; [constructor |]. split; [constructor | reflexivity].
  - destruct (validate_rule_spec rule index lg) as [[Hw Hv] | [Hw [msg Hv]]];
      unfold bind at 1; rewrite Hv.
    + destruct (IH (S index) lg) as (loaded & warnings & Hl & Hin & Hsub & Hwarn & Hlen).
      unfold bind at 1. rewrite Hl. simpl.
      exists (rule :: loaded), warnings. split; [reflexivity |].
      split; [| split; [| split]].
      * intros r. simpl. rewrite Hin. split.
        -- intros [<- | [? ?]]; auto.
        -- intros [[<- | ?] ?]; auto.
      * constructor. exact Hsub.
      * exact Hwarn.
      * simpl. lia.
    + destruct (IH (S index) (lg ++ [(WARNING, msg)]))
        as (loaded & warnings & Hl & Hin & Hsub & Hwarn & Hlen).
      unfold bind at 1. rewrite Hl. simpl.
      exists loaded, ((WARNING, msg) :: warnings).
      split; [rewrite <- app_assoc; reflexivity |].
      split; [| split; [| split]].
      * intros r. simpl. rewrite Hin. split.
        -- intros [? ?]; auto.
        -- intros [[<- | ?] ?]; [contradiction | auto].
      * constructor. exact Hsub.
      * constructor; [reflexivity | exact Hwarn].
      * simpl. lia.
Qed.

Section loaded_rules.
Context {World : Type} `{WindowAccess World} `{PyLib}.
Implicit Types (s : sys World).

(** The rules [process_event] hands to the matcher are rules of the
    engine. *)
Lemma process_event_evaluates_rules_of_engine event_id hwnd window_info s :
  exists l,
    evaluated (process_event event_id hwnd window_info s).2 = evaluated s ++ l
    /\ forall r, In r l -> In r (rules_config (engine s)).
Proof.
  destruct (process_event_steps event_id hwnd window_info s)
    as (s2 & Hrules & Hev & ->).
  rewrite <- Hrules, <- Hev. clear Hrules Hev.
  unfold try_except, evaluate_rules.
  unfold bind at 1, gets at 1. unfold bind at 1, lift_result at 1.
  destruct (get_enabled_rules (rules_config (engine s2))) as [enabled | e] eqn:He.
  2: { exists []. simpl. rewrite app_nil_r. split; [reflexivity | tauto]. }
  unfold bind at 1, lift_result at 1.
  destruct (sort_rules_by_priority enabled) as [sorted | e] eqn:Hs.
  2: { exists []. simpl. rewrite app_nil_r. split; [reflexivity | tauto]. }
  destruct (evaluate_all_trace (event_type_mapping event_id)
              (deref window_info (objects s2)) sorted s2) as (l & Hl & Hin).
  exists l. split.
  - destruct (for_each _ sorted s2) as [[[] | e] s3]; simpl in *; exact Hl.
  - intros r Hr. apply Hin in Hr.
    apply (Permutation_in _ (Permutation_sym
             (sort_rules_by_priority_perm enabled sorted Hs))) in Hr.
    rewrite (get_enabled_rules_filter _ _ He) in Hr.
    apply filter_In in Hr. tauto.
Qed.

(** C7: loading a list of rule records keeps, in their order, the
    records that are well formed (the four required fields, a trigger and
    an action that are objects, an event type among the six and an action
    type among the five) and drops the others, each with one warning in
    the log; the load itself succeeds; and an engine given the loaded
    rules hands no dropped record to its matcher. *)
Theorem load_rules_drops_malformed_rules (rules : list value) lg :
  exists loaded warnings,
    load_rules (VList rules) lg
    = (Ok loaded,
       lg ++ warnings
          ++ [(INFO, "Loaded {len(validated_rules)} rules from {filepath}")])
    /\ (forall rule, In rule loaded <-> In rule rules /\ well_formed_rule rule)
    /\ sublist loaded rules
    /\ Forall (fun entry => entry.1 = WARNING) warnings
    /\ (length warnings + length loaded = length rules)%nat
    /\ (forall rule index lg0,
          ~ well_formed_rule rule ->
          exists msg,
            _validate_rule rule index lg0
            = (Ok false, lg0 ++ [(WARNING, msg)]))
    /\ (forall rule index lg0,
          well_formed_rule rule ->
          _validate_rule rule index lg0 = (Ok true, lg0))
    /\ (forall event_id hwnd window_info s rule,
          rules_config (engine s) = loaded ->
          In rule (evaluated (process_event event_id hwnd window_info s).2) ->
          In rule (evaluated s) \/ (In rule rules /\ well_formed_rule rule)).
Proof.
  destruct (validate_each_spec rules 0%nat lg)
    as (loaded & warnings & Hl & Hin & Hsub & Hwarn & Hlen).
  exists loaded, warnings.
  split.
  { unfold load_rules, try_except. unfold bind at 1. rewrite Hl.
    unfold bind, logging, modify, ret. simpl. rewrite <- app_assoc.
    reflexivity. }
  split; [exact Hin |]. split; [exact Hsub |]. split; [exact Hwarn |].
  split; [exact Hlen |]. split; [| split].
  - intros rule index lg0 Hw.
    destruct (validate_rule_spec rule index lg0) as [[Hw' _] | [_ Hv]];
      [contradiction | exact Hv].
  - intros rule index lg0 Hw.
    destruct (validate_rule_spec rule index lg0) as [[_ Hv] | [Hw' _]];
      [exact Hv | contradiction].
  - intros event_id hwnd window_info s rule Hrules Hr.
    destruct (process_event_evaluates_rules_of_engine event_id hwnd
                window_info s) as (l & Hev & Hsubset).
    rewrite Hev in Hr. apply in_app_or in Hr as [Hr | Hr]; [auto |].
    right. apply Hin. rewrite <- Hrules. auto.
Qed.
End loaded_rules.

(** ** The polling interval *)

Lemma SFcompare_antisym a b c :
  SFcompare a b = Some c -> SFcompare b a = Some (CompOpp c).
Proof.
  destruct a as [sa | sa | | sa ma ea], b as [sb | sb | | sb mb eb];
    simpl; intros Hc; try discriminate;
    try (injection Hc as <-; destruct sa; try destruct sb; reflexivity).
  injection Hc as <-. f_equal.
  destruct sa, sb; simpl; trivial;
    rewrite (Z.compare_antisym ea eb); destruct (ea ?= eb); simpl; trivial.
  - rewrite CompOpp_involutive. exact (Pos.compare_cont_antisym mb ma Eq).
  - symmetry. exact (Pos.compare_cont_antisym ma mb Eq).
Qed.

Lemma SFltb_false_SFleb a b :
  is_nan a = false -> is_nan b = false ->
  SFltb a b = false -> SFleb b a = true.
Proof.
  unfold SFltb, SFleb. intros Ha Hb Hlt.
  destruct (SFcompare a b) as [c |] eqn:Hc.
  - rewrite (SFcompare_antisym _ _ _ Hc). destruct c; simpl; congruence.
  - destruct a, b; simpl in *; discriminate.
Qed.

Lemma SFleb_true_SFltb a b : SFleb a b = true -> SFltb b a = false.
Proof.
  unfold SFltb, SFleb. intros Hle.
  destruct (SFcompare a b) as [c |] eqn:Hc; [| discriminate].
  rewrite (SFcompare_antisym _ _ _ Hc). destruct c; simpl; congruence.
Qed.

Lemma below_and_above_absurd x :
  SFltb x float_0_1 = true -> SFltb float_60 x = true -> False.
Proof.
  unfold SFltb, SFcompare, float_0_1, float_60.
  destruct x as [s | s | | s m e]; try destruct s; try discriminate.
  destruct (Z.compare_spec e (-56)), (Z.compare_spec (-47) e);
    try discriminate; lia.
Qed.

Section polling.
Context {World : Type} `{WindowAccess World}.

(** A cycle of the polling loop that completes sleeps for the interval
    the monitor holds. *)
Lemma poll_cycle_body_interval
    (cb : Z -> Z -> pydict -> prog (sys World) unit)
    monitor previous_windows s current_windows seconds s' :
  poll_cycle_body cb monitor previous_windows s
  = (Ok (current_windows, seconds), s') ->
  seconds = polling_interval monitor.
Proof.
  unfold poll_cycle_body. intros Hp.
  repeat match type of Hp with
         | bind ?m ?f ?s0 = _ =>
             unfold bind at 1 in Hp;
             destruct (m s0) as [[? | ?] ?]; [| discriminate Hp]
         end.
  unfold ret in Hp. injection Hp as _ <- _. reflexivity.
Qed.

(** A cycle of the polling loop always comes to its sleep: for the
    interval of the monitor when its body completes, for 5 seconds when
    its body raises. *)
Lemma poll_cycle_sleep (cb : Z -> Z -> pydict -> prog (sys World) unit)
    monitor previous_windows s :
  exists windows seconds s',
    poll_cycle cb monitor previous_windows s = (Ok (windows, seconds), s')
    /\ (((poll_cycle_body cb monitor previous_windows s).1
         = Ok (windows, seconds)
         /\ seconds = polling_interval monitor)
        \/ (exists e,
              (poll_cycle_body cb monitor previous_windows s).1 = Raise e
              /\ windows = previous_windows /\ seconds = float_5)).
Proof.
  unfold poll_cycle, try_except.
  destruct (poll_cycle_body cb monitor previous_windows s)
    as [[[windows seconds] | e] s'] eqn:Hb.
  - exists windows, seconds, s'. split; [reflexivity |]. left.
    split; [reflexivity |]. eapply poll_cycle_body_interval. exact Hb.
  - do 3 eexists. split; [reflexivity |]. right. exists e. auto.
Qed.

(** C8, corrected: for every requested interval, [set_polling_interval]
    returns [True] and stores 0.1 for a request below 0.1, 60.0 for a
    request above 60.0, and the request itself in every other case; the
    stored value of a request that is a number lies between 0.1 and
    60.0, while a request that is not a number is neither below 0.1 nor
    above 60.0 and is stored as it is; and the stored value is what
    [get_polling_interval] returns and what the polling loop sleeps for
    at the end of a cycle that completes (a cycle that fails sleeps for 5
    seconds). *)
Theorem set_polling_interval_clamps (interval : spec_float) monitor lg :
  exists lg',
    let monitor' := {| running := running monitor;
                       polling_interval := clamp_interval interval |} in
    set_polling_interval interval (monitor, lg) = (Ok true, (monitor', lg'))
    /\ (SFltb interval float_0_1 = true -> clamp_interval interval = float_0_1)
    /\ (SFltb float_60 interval = true -> clamp_interval interval = float_60)
    /\ (SFleb float_0_1 interval = true -> SFleb interval float_60 = true ->
        clamp_interval interval = interval)
    /\ (is_nan interval = false ->
        SFleb float_0_1 (clamp_interval interval) = true
        /\ SFleb (clamp_interval interval) float_60 = true)
    /\ get_polling_interval monitor' = clamp_interval interval
    /\ (forall (cb : Z -> Z -> pydict -> prog (sys World) unit)
               previous_windows s,
          exists windows seconds s',
            poll_cycle cb monitor' previous_windows s
            = (Ok (windows, seconds), s')
            /\ (((poll_cycle_body cb monitor' previous_windows s).1
                 = Ok (windows, seconds)
                 /\ seconds = clamp_interval interval)
                \/ (exists e,
                      (poll_cycle_body cb monitor' previous_windows s).1
                      = Raise e
                      /\ windows = previous_windows /\ seconds = float_5))).
Proof.
  assert (Hstore : exists lg',
             set_polling_interval interval (monitor, lg)
             = (Ok true, ({| running := running monitor;
                             polling_interval := clamp_interval interval |},
                          lg'))).
  { unfold set_polling_interval, clamp_interval, bind, modify, ret.
    destruct (SFltb interval float_0_1); simpl; [eauto |].
    destruct (SFltb float_60 interval); simpl; eauto. }
  destruct Hstore as [lg' Hstore]. exists lg'. simpl.
  split; [exact Hstore |].
  assert (Hsleep := fun cb previous_windows s =>
            poll_cycle_sleep cb
              {| running := running monitor;
                 polling_interval := clamp_interval interval |}
              previous_windows s).
  simpl in Hsleep.
  unfold clamp_interval in *.
  destruct (SFltb interval float_0_1) eqn:Hlo.
  { repeat split; trivial.
    - intros Hhi. destruct (below_and_above_absurd interval Hlo Hhi).
    - intros Hle. apply SFleb_true_SFltb in Hle. congruence. }
  destruct (SFltb float_60 interval) eqn:Hhi.
  { repeat split; trivial.
    - discriminate.
    - intros _ Hle. apply SFleb_true_SFltb in Hle. congruence. }
  repeat split; trivial; try discriminate.
  - apply SFltb_false_SFleb; trivial.
  - apply SFltb_false_SFleb; trivial.
Qed.
End polling.

(** ** More of config.py *)

Section sorting_again.
Context {A : Type}.
Implicit Types (x : Z * A) (l : list (Z * A)).

(** An element not smaller than the head stays in front. *)
Lemma insert_desc_front x l :
  Forall (fun y => y.1 <= x.1) l -> insert_desc x l = x :: l.
Proof.
  destruct 1 as [| y l Hy _]; simpl; [reflexivity |].
  destruct (Z.ltb_spec x.1 y.1); [lia | reflexivity].
Qed.

Lemma sorted_desc_fixed l :
  StronglySorted (fun a b => b.1 <= a.1) l -> sorted_desc l = l.
Proof.
  induction 1 as [| x l _ IH Hx]; simpl; [reflexivity |].
  rewrite IH. apply insert_desc_front. exact Hx.
Qed.

Lemma insert_desc_filter_any (p : Z * A -> bool) x l :
  StronglySorted (fun a b => b.1 <= a.1) l ->
  List.filter p (insert_desc x l)
  = if p x then insert_desc x (List.filter p l) else List.filter p l.
Proof.
  induction 1 as [| y l Hs IH Hy]; simpl.
  - destruct (p x); reflexivity.
  - destruct (Z.ltb_spec x.1 y.1) as [Hlt | Hge]; simpl.
    + rewrite IH. destruct (p y), (p x); simpl; trivial.
      destruct (Z.ltb_spec x.1 y.1); [reflexivity | lia].
    + destruct (p x); [| reflexivity].
      symmetry. apply insert_desc_front.
      assert (Hall : Forall (fun z => z.1 <= x.1) (y :: l)).
      { constructor; [exact Hge |].
        eapply List.Forall_impl; [| exact Hy]. simpl. intros z Hz. lia. }
      rewrite List.Forall_forall in Hall. apply List.Forall_forall.
      intros z Hz. apply Hall.
      change (In z (List.filter p (y :: l))) in Hz.
      apply filter_In in Hz. tauto.
Qed.

Lemma sorted_desc_filter (p : Z * A -> bool) l :
  List.filter p (sorted_desc l) = sorted_desc (List.filter p l).
Proof.
  induction l as [| x l IH]; simpl; [reflexivity |].
  rewrite insert_desc_filter_any by apply sorted_desc_sorted.
  rewrite IH. destruct (p x); reflexivity.
Qed.
End sorting_again.

Section config_again.
Context `{PyLib}.

Lemma int_priority_dict rule :
  is_Some (int_priority rule) -> isinstance_dict rule = true.
Proof.
  intros [z Hz]. unfold int_priority, priority_key in Hz.
  destruct rule; simpl in *; try discriminate. reflexivity.
Qed.

Lemma keyed_map_snd (l : list (Z * value)) :
  Forall (fun x => x.1 = priority_of x.2) l ->
  map (fun r => (priority_of r, r)) (map snd l) = l.
Proof.
  induction 1 as [| [z r] l Hx _ IH]; simpl; [reflexivity |].
  simpl in Hx. subst z. rewrite IH. reflexivity.
Qed.

Lemma keyed_filter (p : value -> bool) rules :
  map (fun r => (priority_of r, r)) (List.filter p rules)
  = List.filter (fun x => p x.2) (map (fun r => (priority_of r, r)) rules).
Proof.
  induction rules as [| r rules IH]; simpl; [reflexivity |].
  destruct (p r); simpl; rewrite IH; reflexivity.
Qed.

Lemma map_snd_filter_snd (p : value -> bool) (l : list (Z * value)) :
  map snd (List.filter (fun x => p x.2) l) = List.filter p (map snd l).
Proof.
  induction l as [| [z r] l IH]; simpl; [reflexivity |].
  destruct (p r); simpl; rewrite IH; reflexivity.
Qed.

(** X1: sorting rules that have integer priorities is idempotent, and it
    commutes with the selection of the enabled rules: sorting the enabled
    rules, as [process_event] does, gives the enabled rules of the sorted
    list. *)
Theorem sort_rules_by_priority_idempotent (rules : list value) :
  Forall (fun r => is_Some (int_priority r)) rules ->
  exists sorted enabled,
    sort_rules_by_priority rules = Ok sorted
    /\ sort_rules_by_priority sorted = Ok sorted
    /\ get_enabled_rules rules = Ok enabled
    /\ get_enabled_rules sorted = sort_rules_by_priority enabled.
Proof.
  intros Hint.
  set (keyed := map (fun r => (priority_of r, r)) rules).
  assert (Hkeyed : Forall (fun x : Z * value => x.1 = priority_of x.2)
                          (sorted_desc keyed)).
  { apply (Permutation_Forall (sorted_desc_perm keyed)).
    apply keyed_by_priority. }
  assert (Hperm : Permutation rules (map snd (sorted_desc keyed))).
  { rewrite <- (map_snd_keyed rules) at 1. apply Permutation_map.
    apply sorted_desc_perm. }
  assert (Hsorted_int : Forall (fun r => is_Some (int_priority r))
                               (map snd (sorted_desc keyed))).
  { apply (Permutation_Forall Hperm). exact Hint. }
  assert (Hdicts : forall l, Forall (fun r => is_Some (int_priority r)) l ->
                             Forall (fun r => isinstance_dict r = true) l).
  { intros l Hl. eapply List.Forall_impl; [| exact Hl].
    intros r. apply int_priority_dict. }
  assert (Henabled_int : Forall (fun r => is_Some (int_priority r))
                                (List.filter rule_enabled rules)).
  { apply List.Forall_forall. intros r Hr. apply filter_In in Hr as [Hr _].
    rewrite List.Forall_forall in Hint. auto. }
  exists (map snd (sorted_desc keyed)), (List.filter rule_enabled rules).
  split; [apply sort_rules_by_priority_int; exact Hint |].
  split.
  { rewrite sort_rules_by_priority_int by exact Hsorted_int.
    rewrite keyed_map_snd by exact Hkeyed.
    rewrite sorted_desc_fixed by apply sorted_desc_sorted. reflexivity. }
  split; [apply get_enabled_rules_dicts; auto |].
  rewrite get_enabled_rules_dicts by auto.
  rewrite sort_rules_by_priority_int by exact Henabled_int.
  f_equal. rewrite keyed_filter. fold keyed.
  rewrite <- sorted_desc_filter. rewrite map_snd_filter_snd. reflexivity.
Qed.

(** *** [create_rule] *)

(** X2: a record built by [create_rule] passes [_validate_rule] exactly
    when its trigger and its action are dictionaries that name one of
    the six event types and one of the five action types; it is enabled
    exactly when the [enabled] it was given is true, and its priority is
    the one it was given. *)
Theorem create_rule_validates
    (name enabled trigger action priority description : value) index lg :
  let rule := create_rule name enabled trigger action priority description in
  ((_validate_rule rule index lg).1 = Ok true
   <-> exists t a event_type action_type,
         trigger = VDict t /\ action = VDict a
         /\ dget "event_type" t = Some event_type
         /\ In event_type (map VStr valid_event_types)
         /\ dget "type" a = Some action_type
         /\ In action_type (map VStr valid_action_types))
  /\ rule_enabled rule = truthy enabled
  /\ priority_key rule = Ok priority.
Proof.
  simpl. split; [| split; reflexivity].
  destruct (validate_rule_spec
              (create_rule name enabled trigger action priority description)
              index lg) as [[Hw Hv] | [Hw [msg Hv]]]; rewrite Hv; simpl.
  - split; [intros _ | reflexivity].
    destruct Hw as (d & n & e & t & a & et & at_ & Hd & Hn & He & Ht & Ha
                    & Het & Hin & Hat & Hia).
    injection Hd as <-. simpl in Ht, Ha.
    injection Ht as ->. injection Ha as ->.
    exists t, a, et, at_. auto 10.
  - split; [discriminate |].
    intros (t & a & et & at_ & -> & -> & Het & Hin & Hat & Hia).
    exfalso. apply Hw. unfold well_formed_rule, create_rule.
    eexists _, name, enabled, t, a, et, at_.
    split; [reflexivity |]. simpl. auto 10.
Qed.

(** *** [enable_rule] and [disable_rule] *)

Lemma first_named_missing rule_name rules objs :
  Forall (fun x => isinstance_dict (rule_at x objs) = true) rules ->
  Forall (fun x => named rule_name (rule_at x objs) = false) rules ->
  first_named rule_name rules objs = Ok None.
Proof.
  induction 1 as [| r rules Hd _ IH]; intros Hn; simpl; [reflexivity |].
  apply Forall_cons_1 in Hn as [Hr Hn].
  destruct (rule_at r objs); try discriminate. simpl in Hr. rewrite Hr.
  apply IH. exact Hn.
Qed.

Lemma first_named_found rule_name before r d after objs :
  Forall (fun x => isinstance_dict (rule_at x objs) = true) before ->
  Forall (fun x => named rule_name (rule_at x objs) = false) before ->
  rule_at r objs = VDict d ->
  py_eq (dget_default "name" VNone d) rule_name = true ->
  first_named rule_name (before ++ r :: after) objs = Ok (Some (r, d)).
Proof.
  intros Hd. induction Hd as [| x rules Hx _ IH]; intros Hn Hr Hm; simpl.
  - rewrite Hr, Hm. reflexivity.
  - apply Forall_cons_1 in Hn as [Hnx Hn].
    destruct (rule_at x objs); try discriminate. simpl in Hnx. rewrite Hnx.
    apply IH; assumption.
Qed.

Lemma rule_at_dset x r v objs :
  rule_at x (dset r v objs) = if decide (x = r) then v else rule_at x objs.
Proof.
  unfold rule_at. destruct (decide (x = r)) as [-> | Hne].
  - rewrite dget_dset_eq. reflexivity.
  - rewrite dget_dset_ne by congruence. reflexivity.
Qed.

Lemma rule_enabled_dset enabled d :
  rule_enabled (VDict (dset "enabled" (VBool enabled) d)) = enabled.
Proof.
  unfold rule_enabled. simpl. unfold dget_default.
  rewrite dget_dset_eq. reflexivity.
Qed.

Lemma filter_map_list {T U} (p : U -> bool) (f : T -> U) (l : list T) :
  List.filter p (map f l) = map f (List.filter (fun x => p (f x)) l).
Proof.
  induction l as [| x l IH]; simpl; [reflexivity |].
  rewrite IH. destruct (p (f x)); reflexivity.
Qed.

(** X3: [disable_rule] and [enable_rule] change the dictionary of the
    first rule that has the name, and no other dictionary: it keeps its
    other keys, and every place of the list that has this dictionary
    shows the change, the first one and any later one; the rules that
    are other dictionaries are as they were, also those of the same
    name.  The enabled rules afterwards are the places of this
    dictionary, when it was enabled, and the places of the others that
    were enabled before. *)
Theorem toggle_rule_first_of_name
    (enabled : bool) (rule_name : value) before (r : ref) d after objs lg :
  Forall (fun x => isinstance_dict (rule_at x objs) = true) (before ++ after) ->
  Forall (fun x => named rule_name (rule_at x objs) = false) before ->
  rule_at r objs = VDict d ->
  py_eq (dget_default "name" VNone d) rule_name = true ->
  let toggle := if enabled then enable_rule else disable_rule in
  let rules := before ++ r :: after in
  let d' := dset "enabled" (VBool enabled) d in
  exists msg objs',
    toggle rules rule_name (objs, lg) = (Ok true, (objs', lg ++ [(INFO, msg)]))
    /\ (forall x, rule_at x objs'
                  = if decide (x = r) then VDict d' else rule_at x objs)
    /\ (forall k, k <> "enabled" -> dget k d' = dget k d)
    /\ (forall x, rule_enabled (rule_at x objs')
                  = if decide (x = r) then enabled
                    else rule_enabled (rule_at x objs))
    /\ get_enabled_rules (map (fun x => rule_at x objs') rules)
       = Ok (map (fun x => rule_at x objs')
                 (List.filter (fun x => if decide (x = r) then enabled
                                        else rule_enabled (rule_at x objs))
                              rules)).
Proof.
  intros Hd Hn Hr Hm. cbv zeta.
  apply Forall_app in Hd as [Hb Ha].
  assert (Hfound := first_named_found rule_name before r d after objs
                      Hb Hn Hr Hm).
  set (objs' := dset r (VDict (dset "enabled" (VBool enabled) d)) objs).
  assert (Hat : forall x,
             rule_at x objs'
             = if decide (x = r)
               then VDict (dset "enabled" (VBool enabled) d)
               else rule_at x objs)
    by (intros x; apply rule_at_dset).
  assert (Hen : forall x,
             rule_enabled (rule_at x objs')
             = if decide (x = r) then enabled
               else rule_enabled (rule_at x objs)).
  { intros x. rewrite Hat. destruct (decide (x = r)); [| reflexivity].
    apply rule_enabled_dset. }
  assert (Hget : get_enabled_rules
                   (map (fun x => rule_at x objs') (before ++ r :: after))
                 = Ok (map (fun x => rule_at x objs')
                           (List.filter
                              (fun x => if decide (x = r) then enabled
                                        else rule_enabled (rule_at x objs))
                              (before ++ r :: after)))).
  { rewrite get_enabled_rules_dicts.
    - rewrite filter_map_list. f_equal. f_equal. apply filter_ext.
      intros x. apply Hen.
    - apply Forall_map.
      assert (Hall : Forall (fun x => isinstance_dict (rule_at x objs) = true)
                       (before ++ r :: after)).
      { apply Forall_app. split; [exact Hb |].
        constructor; [rewrite Hr; reflexivity | exact Ha]. }
      eapply List.Forall_impl; [| exact Hall].
      intros x Hx. simpl. rewrite Hat.
      destruct (decide (x = r)); [reflexivity | exact Hx]. }
  destruct enabled.
  - eexists _, objs'. split; [| split; [exact Hat |
                                 split; [| split; [exact Hen | exact Hget]]]].
    + unfold enable_rule, toggle_rule. unfold bind at 1. simpl.
      unfold bind at 1, lift_result. rewrite Hfound. reflexivity.
    + intros k Hk. apply dget_dset_ne. congruence.
  - eexists _, objs'. split; [| split; [exact Hat |
                                 split; [| split; [exact Hen | exact Hget]]]].
    + unfold disable_rule, toggle_rule. unfold bind at 1. simpl.
      unfold bind at 1, lift_result. rewrite Hfound. reflexivity.
    + intros k Hk. apply dget_dset_ne. congruence.
Qed.

(** X4: a name no rule has: [enable_rule] and [disable_rule] answer
    [False], warn, and leave the rules as they are; so do they leave
    them when a record in front of the first rule of the name is not a
    dictionary, where they raise. *)
Theorem toggle_rule_unknown_name
    (enabled : bool) (rule_name : value) rules objs lg :
  Forall (fun x => named rule_name (rule_at x objs) = false) rules ->
  let toggle := if enabled then enable_rule else disable_rule in
  (toggle rules rule_name (objs, lg)).2.1 = objs
  /\ (Forall (fun x => isinstance_dict (rule_at x objs) = true) rules ->
      toggle rules rule_name (objs, lg)
      = (Ok false, (objs, lg ++ [(WARNING, "Rule not found: {rule_name}")]))).
Proof.
  intros Hn. simpl. split.
  - assert (Hs : first_named rule_name rules objs = Ok None
                 \/ exists x, first_named rule_name rules objs = Raise x).
    { induction Hn as [| r rules Hr _ IH]; simpl; [auto |].
      destruct (rule_at r objs); eauto. simpl in Hr. rewrite Hr. exact IH. }
    destruct enabled;
      [unfold enable_rule | unfold disable_rule];
      unfold toggle_rule; unfold bind at 1; simpl;
      unfold bind at 1, lift_result;
      destruct Hs as [-> | [x ->]]; reflexivity.
  - intros Hd.
    destruct enabled;
      [unfold enable_rule | unfold disable_rule];
      unfold toggle_rule; unfold bind at 1; simpl;
      unfold bind at 1, lift_result;
      rewrite first_named_missing by assumption; reflexivity.
Qed.

(** *** Loading the rules of the application *)

Lemma load_rules_list rules lg :
  exists loaded lg',
    load_rules (VList rules) lg = (Ok loaded, lg')
    /\ (forall rule, In rule loaded <-> In rule rules /\ well_formed_rule rule)
    /\ sublist loaded rules.
Proof.
  destruct (validate_each_spec rules 0%nat lg)
    as (loaded & warnings & Hl & Hin & Hsub & _).
  exists loaded. eexists. split; [| split; [exact Hin | exact Hsub]].
  unfold load_rules, try_except. unfold bind at 1. rewrite Hl.
  reflexivity.
Qed.

Lemma load_rules_from_cases file lg :
  (exists rules loaded lg',
      file = Parsed (VList rules)
      /\ load_rules_from file lg = (Ok loaded, lg')
      /\ (forall rule, In rule loaded <-> In rule rules /\ well_formed_rule rule)
      /\ sublist loaded rules)
  \/ ((forall rules, file <> Parsed (VList rules))
      /\ exists e lg', load_rules_from file lg = (Raise e, lg')).
Proof.
  destruct file as [| e | | rules]; simpl.
  - right. split; [discriminate |]. eexists _, _. reflexivity.
  - right. split; [discriminate |]. eexists _, _. reflexivity.
  - right. split; [discriminate |]. eexists _, _. reflexivity.
  - destruct rules as [| | | | l |];
      try (right; split; [discriminate |]; eexists _, _; reflexivity).
    left. destruct (load_rules_list l lg) as (loaded & lg' & Hl & Hin & Hsub).
    exists l, loaded, lg'. auto.
Qed.

(** X5: [get_default_rules] never raises.  When the file holds a JSON
    list it returns the well-formed records of the list, in their order;
    in every other case (no file, a file that cannot be read, invalid
    JSON, JSON that is not a list) it returns the empty list and the log
    ends with its error. *)
Theorem get_default_rules_never_raises (file : file_content) lg :
  exists loaded lg',
    get_default_rules file lg = (Ok loaded, lg')
    /\ (forall rule, In rule loaded -> well_formed_rule rule)
    /\ (forall rules,
          file = Parsed (VList rules) ->
          (forall rule, In rule loaded <-> In rule rules /\ well_formed_rule rule)
          /\ sublist loaded rules)
    /\ ((forall rules, file <> Parsed (VList rules)) ->
        loaded = []
        /\ last lg' = Some (ERROR, "Error loading default rules: {e}")).
Proof.
  unfold get_default_rules, try_except.
  destruct (load_rules_from_cases file lg)
    as [(rules & loaded & lg' & -> & Hl & Hin & Hsub)
       | (Hno & e & lg' & Hl)]; rewrite Hl.
  - exists loaded, lg'. split; [reflexivity |].
    split; [intros r Hr; apply Hin in Hr; tauto |].
    split.
    + intros rules' Heq. injection Heq as <-. auto.
    + intros Hne. exfalso. apply (Hne rules). reflexivity.
  - eexists [], _. split; [reflexivity |].
    split; [intros r [] |]. split.
    + intros rules Heq. exfalso. apply (Hno rules). exact Heq.
    + intros _. split; [reflexivity |].
      unfold bind, logging, modify, ret. simpl. apply last_snoc.
Qed.

(** X6: [ConfigManager.load_rules] never raises and returns well-formed
    records only: those of the user's file when that file holds a JSON
    list, and what [get_default_rules] returns when the user's file is
    missing or cannot be loaded. *)
Theorem config_manager_load_rules_never_raises
    (user_rules default_rules : file_content) lg :
  exists loaded lg',
    ConfigManager_load_rules user_rules default_rules lg = (Ok loaded, lg')
    /\ (forall rule, In rule loaded -> well_formed_rule rule)
    /\ (forall rules,
          user_rules = Parsed (VList rules) ->
          (forall rule, In rule loaded <-> In rule rules /\ well_formed_rule rule)
          /\ sublist loaded rules)
    /\ ((forall rules, user_rules <> Parsed (VList rules)) ->
        exists lg0, get_default_rules default_rules lg0 = (Ok loaded, lg')).
Proof.
  unfold ConfigManager_load_rules, try_except.
  assert (Hdefault : forall lg0,
             exists loaded lg',
               get_default_rules default_rules lg0 = (Ok loaded, lg')
               /\ (forall rule, In rule loaded -> well_formed_rule rule)).
  { intros lg0. unfold get_default_rules, try_except.
    destruct (load_rules_from_cases default_rules lg0)
      as [(rules & loaded & lg' & -> & Hl & Hin & Hsub)
         | (Hno & e & lg' & Hl)]; rewrite Hl.
    - exists loaded, lg'. split; [reflexivity |].
      intros r Hr. apply Hin in Hr. tauto.
    - eexists [], _. split; [reflexivity |]. intros r []. }
  destruct (load_rules_from_cases user_rules lg)
    as [(rules & loaded & lg' & -> & Hl & Hin & Hsub)
       | (Hno & e & lg' & Hl)].
  - simpl in Hl. simpl. rewrite Hl.
    exists loaded, lg'. split; [reflexivity |].
    split; [intros r Hr; apply Hin in Hr; tauto |].
    split.
    + intros rules' Heq. injection Heq as <-. auto.
    + intros Hne. exfalso. apply (Hne rules). reflexivity.
  - destruct user_rules as [| x | | v].
    + destruct (Hdefault lg) as (loaded & lg1 & Hd & Hw). rewrite Hd.
      exists loaded, lg1. split; [reflexivity |]. split; [exact Hw |].
      split; [discriminate |]. intros _. eauto.
    + rewrite Hl. unfold bind at 1, logging, modify. simpl.
      match goal with
      | |- context [get_default_rules _ ?l] =>
          destruct (Hdefault l) as (loaded & lg1 & Hd & Hw)
      end.
      rewrite Hd. exists loaded, lg1. split; [reflexivity |].
      split; [exact Hw |]. split; [discriminate |]. intros _. eauto.
    + rewrite Hl. unfold bind at 1, logging, modify. simpl.
      match goal with
      | |- context [get_default_rules _ ?l] =>
          destruct (Hdefault l) as (loaded & lg1 & Hd & Hw)
      end.
      rewrite Hd. exists loaded, lg1. split; [reflexivity |].
      split; [exact Hw |]. split; [discriminate |]. intros _. eauto.
    + rewrite Hl. unfold bind at 1, logging, modify. simpl.
      match goal with
      | |- context [get_default_rules _ ?l] =>
          destruct (Hdefault l) as (loaded & lg1 & Hd & Hw)
      end.
      rewrite Hd. exists loaded, lg1. split; [reflexivity |].
      split; [exact Hw |]. split.
      * intros rules Heq. exfalso. apply (Hno rules). exact Heq.
      * intros _. eauto.
Qed.
End config_again.

(** ** The cache *)

Section pydict_keys.
Context {K V : Type} `{EqDecision K}.
Implicit Types (k : K) (v : V) (d : list (K * V)).

Lemma dget_none_keys k d : dget k d = None <-> ~ In k (dkeys d).
Proof.
  induction d as [| [k' v'] d IH]; simpl; [tauto |].
  destruct (decide (k = k')) as [-> | Hne].
  - split; [discriminate | intros Hn; exfalso; apply Hn; auto].
  - rewrite IH. split; [intros Hn [Heq | Hin]; [congruence | auto] | tauto].
Qed.

Lemma dmem_keys k d : dmem k d = true <-> In k (dkeys d).
Proof.
  unfold dmem. destruct (dget k d) eqn:Hg.
  - split; [intros _ | trivial].
    destruct (in_dec (fun a b => decide (a = b)) k (dkeys d)) as [Hi | Hn];
      trivial.
    apply dget_none_keys in Hn. congruence.
  - split; [discriminate |]. intros Hi. apply dget_none_keys in Hg. tauto.
Qed.

Lemma dset_absent k v d : dget k d = None -> dset k v d = d ++ [(k, v)].
Proof.
  induction d as [| [k' v'] d IH]; simpl; [reflexivity |].
  destruct (decide (k = k')); [discriminate |].
  intros Hg. rewrite IH by exact Hg. reflexivity.
Qed.

Lemma dkeys_ddel k k' d :
  In k' (dkeys (ddel k d)) <-> k' <> k /\ In k' (dkeys d).
Proof.
  induction d as [| [k0 v0] d IH]; simpl; [tauto |].
  destruct (decide (k = k0)) as [-> | Hne]; simpl; rewrite IH.
  - split; [tauto |]. intros [Hn [Heq | Hin]]; [congruence | tauto].
  - split.
    + intros [<- | [Hn Hin]]; [split; [congruence | auto] | tauto].
    + tauto.
Qed.

Lemma nodup_ddel k d : List.NoDup (dkeys d) -> List.NoDup (dkeys (ddel k d)).
Proof.
  induction d as [| [k0 v0] d IH]; simpl; [trivial |].
  intros Hnd. apply List.NoDup_cons_iff in Hnd as [Hn Hnd].
  destruct (decide (k = k0)); [auto |]. simpl.
  apply List.NoDup_cons; [| auto].
  rewrite dkeys_ddel. tauto.
Qed.

Lemma length_ddel k d :
  List.NoDup (dkeys d) -> is_Some (dget k d) ->
  S (length (ddel k d)) = length d.
Proof.
  induction d as [| [k0 v0] d IH]; simpl.
  - intros _ [x Hx]. discriminate.
  - intros Hnd Hs. apply List.NoDup_cons_iff in Hnd as [Hn Hnd].
    destruct (decide (k = k0)) as [-> | Hne].
    + rewrite ddel_absent; [reflexivity |]. apply dget_none_keys. exact Hn.
    + simpl. rewrite IH; trivial.
Qed.

Lemma length_ddel_le k d : (length (ddel k d) <= length d)%nat.
Proof.
  induction d as [| [k0 v0] d IH]; simpl; [lia |].
  destruct (decide (k = k0)); simpl; lia.
Qed.

Lemma dkeys_app d1 d2 : dkeys (d1 ++ d2) = dkeys d1 ++ dkeys d2.
Proof. unfold dkeys. apply map_app. Qed.

Lemma nodup_snoc k v d :
  List.NoDup (dkeys d) -> dget k d = None -> List.NoDup (dkeys (d ++ [(k, v)])).
Proof.
  intros Hnd Hg. apply dget_none_keys in Hg. rewrite dkeys_app. simpl.
  induction (dkeys d) as [| k0 l IH]; simpl.
  - apply List.NoDup_cons; [intros [] | constructor].
  - apply List.NoDup_cons_iff in Hnd as [Hn Hnd].
    apply List.NoDup_cons.
    + rewrite in_app_iff. simpl. intros [Hin | [Heq | []]]; [tauto |].
      apply Hg. left. congruence.
    + apply IH; [exact Hnd |]. intros Hin. apply Hg. right. exact Hin.
Qed.

Lemma dget_snoc k v d : dget k (ddel k d ++ [(k, v)]) = Some v.
Proof.
  rewrite dget_app, dget_ddel_eq. simpl. rewrite decide_True; trivial.
Qed.

Lemma dget_snoc_ne k k' v d :
  k <> k' -> dget k' (ddel k d ++ [(k, v)]) = dget k' d.
Proof.
  intros Hne. rewrite dget_app, dget_ddel_ne by exact Hne.
  destruct (dget k' d); trivial. simpl.
  rewrite decide_False; [trivial | congruence].
Qed.

Lemma dmem_snoc k k' v d :
  dmem k' (ddel k d ++ [(k, v)]) = if decide (k' = k) then true else dmem k' d.
Proof.
  unfold dmem. destruct (decide (k' = k)) as [-> | Hne].
  - rewrite dget_snoc. reflexivity.
  - rewrite dget_snoc_ne by congruence. reflexivity.
Qed.

Lemma dmem_ddel k k' d :
  dmem k' (ddel k d) = if decide (k' = k) then false else dmem k' d.
Proof.
  unfold dmem. destruct (decide (k' = k)) as [-> | Hne].
  - rewrite dget_ddel_eq. reflexivity.
  - rewrite dget_ddel_ne by congruence. reflexivity.
Qed.
End pydict_keys.

(** Two dictionaries with the same keys have the same number of entries. *)
Lemma same_keys_same_length {K A B} `{EqDecision K}
    (d1 : list (K * A)) (d2 : list (K * B)) :
  List.NoDup (dkeys d1) -> List.NoDup (dkeys d2) ->
  (forall k, dmem k d1 = dmem k d2) -> length d1 = length d2.
Proof.
  intros H1 H2 Hk.
  rewrite <- (length_map fst d1), <- (length_map fst d2).
  apply Permutation_length. apply Permutation.NoDup_Permutation; trivial.
  intros k. change (In k (dkeys d1) <-> In k (dkeys d2)).
  rewrite <- !dmem_keys, Hk. reflexivity.
Qed.

Section cache.
Context {V World : Type} `{Clock World}.
Implicit Types (c : LRUCache V) (o : outside World) (key : string).

Lemma without_ok key c : LRUCache_ok c -> LRUCache_ok (without key c).
Proof.
  intros (Hc & Ht & Hk). unfold LRUCache_ok, without. simpl.
  split; [apply nodup_ddel; exact Hc |].
  split; [apply nodup_ddel; exact Ht |].
  intros k. rewrite !dmem_ddel, Hk. reflexivity.
Qed.

Lemma with_last_ok key value now c :
  LRUCache_ok c -> LRUCache_ok (with_last key value now c).
Proof.
  intros (Hc & Ht & Hk). unfold LRUCache_ok, with_last. simpl.
  split; [apply nodup_snoc; [apply nodup_ddel; exact Hc | apply dget_ddel_eq] |].
  split; [apply nodup_snoc; [apply nodup_ddel; exact Ht | apply dget_ddel_eq] |].
  intros k. rewrite !dmem_snoc, Hk. reflexivity.
Qed.

Lemma without_absent key c :
  dmem key (cache c) = false -> dmem key (timestamps c) = false ->
  without key c = c.
Proof.
  intros Hc Ht. unfold without, with_entries.
  rewrite !ddel_absent by (apply dmem_false; assumption).
  destruct c; reflexivity.
Qed.

(** [_remove] deletes the key from both dictionaries. *)
Lemma LRUCache_remove_spec key c o :
  LRUCache_ok c ->
  LRUCache_remove key (c, o) = (Ok tt, (without key c, o)).
Proof.
  intros (Hc & Ht & Hk). unfold LRUCache_remove, bind, self, gets. simpl.
  destruct (dmem key (cache c)) eqn:Hm.
  - unfold set_cache, modify. simpl. rewrite <- Hk, Hm. reflexivity.
  - rewrite without_absent; [reflexivity | exact Hm | rewrite <- Hk; exact Hm].
Qed.

Lemma LRUCache_get_spec key c o now w :
  LRUCache_ok c ->
  time_time (os o) = (now, w) ->
  LRUCache_get key (c, o)
  = match dget key (cache c), dget key (timestamps c) with
    | Some value, Some timestamp =>
        if expired c now timestamp
        then (Ok None, (without key c, with_os o w))
        else (Ok (Some value),
              (with_entries c (ddel key (cache c) ++ [(key, value)])
                              (timestamps c), with_os o w))
    | _, _ => (Ok None, (c, o))
    end.
Proof.
  intros Hok Ht. pose proof Hok as (Hc & Hts & Hk).
  unfold LRUCache_get. unfold bind at 1, self, gets. simpl.
  specialize (Hk key). unfold dmem in Hk |- *.
  destruct (dget key (cache c)) as [value |] eqn:Hg;
    [| destruct (dget key (timestamps c)); reflexivity].
  destruct (dget key (timestamps c)) as [timestamp |] eqn:Hgt;
    [| discriminate].
  unfold bind at 1, time. simpl. rewrite Ht.
  unfold bind at 1, lift_result, subscript. rewrite Hgt.
  unfold expired.
  destruct (SFltb (ttl c) (float_sub now timestamp)).
  - unfold bind.
    pose proof (LRUCache_remove_spec key c (with_os o w) Hok) as Hr.
    unfold with_os in *. rewrite Hr. reflexivity.
  - unfold bind, move_to_end. rewrite Hg. unfold set_cache, modify. simpl.
    rewrite dget_snoc. reflexivity.
Qed.

Lemma LRUCache_set_spec key value c o now w :
  LRUCache_ok c ->
  time_time (os o) = (now, w) ->
  LRUCache_set key value (c, o)
  = (Ok tt,
     (let c1 := with_last key value now c in
      if max_size c <? LRUCache_size c1
      then match dkeys (cache c1) with
           | oldest_key :: _ => without oldest_key c1
           | [] => c1
           end
      else c1,
      with_os o w)).
Proof.
  intros Hok Ht. pose proof Hok as (Hc & Hts & Hk).
  unfold LRUCache_set. unfold bind at 1, self, gets. simpl.
  assert (Hrem : (if dmem key (cache c) then LRUCache_remove key else ret tt)
                   (c, o) = (Ok tt, (without key c, o))).
  { destruct (dmem key (cache c)) eqn:Hm.
    - apply LRUCache_remove_spec. exact Hok.
    - rewrite without_absent; [reflexivity | exact Hm | rewrite <- Hk; exact Hm]. }
  unfold bind at 1. rewrite Hrem.
  unfold bind at 1. simpl. unfold bind at 1, set_cache, modify. simpl.
  unfold bind at 1, time. simpl. rewrite Ht.
  unfold bind at 1. simpl. unfold bind at 1, set_timestamps, modify. simpl.
  rewrite !dset_absent by apply dget_ddel_eq.
  unfold LRUCache_size, with_last. simpl.
  destruct (max_size c <? Z.of_nat (length (ddel key (cache c) ++ [(key, value)])));
    [| reflexivity].
  destruct (dkeys (ddel key (cache c) ++ [(key, value)])) as [| oldest rest] eqn:Hkeys.
  { rewrite dkeys_app in Hkeys. destruct (dkeys (ddel key (cache c))); discriminate. }
  pose proof (LRUCache_remove_spec oldest
                (with_last key value now c) (with_os o w)
                (with_last_ok key value now c Hok)) as Hr.
  unfold with_last, with_os, with_entries in Hr. simpl in Hr. rewrite Hr.
  reflexivity.
Qed.

Lemma set_result_ok key value now c :
  LRUCache_ok c ->
  LRUCache_ok
    (let c1 := with_last key value now c in
     if max_size c <? LRUCache_size c1
     then match dkeys (cache c1) with
          | oldest_key :: _ => without oldest_key c1
          | [] => c1
          end
     else c1).
Proof.
  intros Hok. simpl.
  destruct (max_size c <? _); [| apply with_last_ok; exact Hok].
  destruct (dkeys _); [apply with_last_ok; exact Hok |].
  apply without_ok, with_last_ok. exact Hok.
Qed.

Lemma set_result_keeps_key key value now c :
  1 <= max_size c ->
  let c2 := (let c1 := with_last key value now c in
             if max_size c <? LRUCache_size c1
             then match dkeys (cache c1) with
                  | oldest_key :: _ => without oldest_key c1
                  | [] => c1
                  end
             else c1) in
  dget key (cache c2) = Some value
  /\ dget key (timestamps c2) = Some now
  /\ ttl c2 = ttl c /\ max_size c2 = max_size c.
Proof.
  intros Hmax. cbv zeta. set (c1 := with_last key value now c).
  assert (H1 : dget key (cache c1) = Some value
               /\ dget key (timestamps c1) = Some now
               /\ ttl c1 = ttl c /\ max_size c1 = max_size c)
    by (repeat split; apply dget_snoc).
  destruct (Z.ltb_spec (max_size c) (LRUCache_size c1))
    as [Hfull | Hfree]; [| exact H1].
  destruct (dkeys (cache c1)) as [| oldest rest] eqn:Hkeys; [exact H1 |].
  assert (Hne : oldest <> key).
  { intros ->. unfold c1, with_last, LRUCache_size in Hkeys, Hfull.
    simpl in Hkeys, Hfull. rewrite dkeys_app in Hkeys.
    rewrite length_app in Hfull. simpl in Hfull.
    destruct (ddel key (cache c)) as [| [k0 v0] d] eqn:Hd; simpl in *; [lia |].
    injection Hkeys as -> _.
    pose proof (dget_ddel_eq key (cache c)) as Hg. rewrite Hd in Hg.
    simpl in Hg. rewrite decide_True in Hg; [discriminate | trivial]. }
  simpl. rewrite !dget_ddel_ne by exact Hne. exact H1.
Qed.

(** The loop of [cleanup_expired] *)
Lemma for_each_remove_spec keys : forall c o,
  LRUCache_ok c ->
  for_each LRUCache_remove keys (c, o)
  = (Ok tt, (fold_left (fun acc key => without key acc) keys c, o)).
Proof.
  induction keys as [| key keys IH]; intros c o Hok; simpl; [reflexivity |].
  unfold bind. rewrite LRUCache_remove_spec by exact Hok.
  apply IH. apply without_ok. exact Hok.
Qed.

Lemma fold_without_ok keys : forall c,
  LRUCache_ok c -> LRUCache_ok (fold_left (fun acc key => without key acc) keys c).
Proof.
  induction keys as [| key keys IH]; intros c Hok; simpl; [exact Hok |].
  apply IH, without_ok, Hok.
Qed.

Lemma fold_without_fields keys : forall c,
  let c' := fold_left (fun acc key => without key acc) keys c in
  max_size c' = max_size c /\ ttl c' = ttl c
  /\ (forall k, In k keys ->
                dget k (cache c') = None /\ dget k (timestamps c') = None)
  /\ (forall k, ~ In k keys ->
                dget k (cache c') = dget k (cache c)
                /\ dget k (timestamps c') = dget k (timestamps c)).
Proof.
  induction keys as [| key keys IH]; intros c; simpl.
  - repeat split; tauto.
  - destruct (IH (without key c)) as (Hm & Ht & Hin & Hout). simpl in *.
    split; [exact Hm |]. split; [exact Ht |]. split.
    + intros k [-> | Hk]; [| auto].
      destruct (in_dec string_dec k keys) as [Hi | Hn]; [auto |].
      destruct (Hout k Hn) as [-> ->]. rewrite !dget_ddel_eq. auto.
    + intros k Hk. destruct (Hout k) as [-> ->]; [tauto |].
      rewrite !dget_ddel_ne by (intros ->; tauto). auto.
Qed.

Lemma fold_without_length (keys : list string) : forall (d : list (string * spec_float)),
  List.NoDup (dkeys d) -> List.NoDup keys -> incl keys (dkeys d) ->
  (length (fold_left (fun acc key => ddel key acc) keys d) + length keys
   = length d)%nat.
Proof.
  induction keys as [| key keys IH]; intros d Hd Hk Hi; simpl; [lia |].
  apply List.NoDup_cons_iff in Hk as [Hn Hk].
  rewrite <- (length_ddel key d Hd).
  2: { apply dmem_true, dmem_keys. apply Hi. left. trivial. }
  rewrite <- (IH (ddel key d)); [lia | apply nodup_ddel; exact Hd | exact Hk |].
  intros k Hin. apply dkeys_ddel. split; [congruence |].
  apply Hi. right. exact Hin.
Qed.

Lemma fold_without_timestamps keys : forall c,
  timestamps (fold_left (fun acc key => without key acc) keys c)
  = fold_left (fun acc key => ddel key acc) keys (timestamps c).
Proof.
  induction keys as [| key keys IH]; intros c; simpl; [reflexivity |].
  rewrite IH. reflexivity.
Qed.

Lemma nodup_filter_keys {B} (p : string * B -> bool) (d : list (string * B)) :
  List.NoDup (dkeys d) -> List.NoDup (map fst (List.filter p d)).
Proof.
  induction d as [| [k v] d IH]; simpl; [trivial |].
  intros Hnd. apply List.NoDup_cons_iff in Hnd as [Hn Hnd].
  destruct (p (k, v)); simpl; [| auto].
  apply List.NoDup_cons; [| auto].
  intros Hin. apply Hn. apply in_map_iff in Hin as ([k' v'] & Heq & Hin).
  simpl in Heq. subst k'. apply filter_In in Hin as [Hin _].
  apply in_map_iff. exists (k, v'). auto.
Qed.

Lemma in_filter_keys {B} (p : string * B -> bool) (d : list (string * B)) k :
  List.NoDup (dkeys d) ->
  In k (map fst (List.filter p d))
  <-> exists v, dget k d = Some v /\ p (k, v) = true.
Proof.
  intros Hnd. rewrite in_map_iff. split.
  - intros ([k' v] & Heq & Hin). simpl in Heq. subst k'.
    apply filter_In in Hin as [Hin Hp]. exists v. split; [| exact Hp].
    apply dget_nodup; assumption.
  - intros (v & Hg & Hp). exists (k, v). split; [reflexivity |].
    apply filter_In. split; [apply dget_in; exact Hg | exact Hp].
Qed.

(** X7: the two dictionaries of an [LRUCache] keep the same keys: from
    a well-formed cache no method raises (no [KeyError] from
    [self.timestamps[key]] or from [del]), and every method leaves a
    well-formed cache. *)
Theorem LRUCache_methods_keep_the_keys c o key value :
  LRUCache_ok c ->
  (exists r s, LRUCache_get key (c, o) = (Ok r, s) /\ LRUCache_ok s.1)
  /\ (exists s, LRUCache_set key value (c, o) = (Ok tt, s) /\ LRUCache_ok s.1)
  /\ (exists s, LRUCache_remove key (c, o) = (Ok tt, s) /\ LRUCache_ok s.1)
  /\ (exists s, LRUCache_clear (c, o) = (Ok tt, s) /\ LRUCache_ok s.1)
  /\ (exists n s, LRUCache_cleanup_expired (c, o) = (Ok n, s)
                  /\ LRUCache_ok s.1).
Proof.
  intros Hok. destruct (time_time (os o)) as [now w] eqn:Ht.
  split; [| split; [| split; [| split]]].
  - rewrite (LRUCache_get_spec key c o now w Hok Ht).
    destruct (dget key (cache c)) as [v |] eqn:Hg; [| eauto].
    destruct (dget key (timestamps c)) as [ts |]; [| eauto].
    destruct (expired c now ts).
    + eexists _, _. split; [reflexivity |]. apply without_ok. exact Hok.
    + eexists _, _. split; [reflexivity |]. simpl.
      destruct Hok as (Hc & Hts & Hk). unfold LRUCache_ok. simpl.
      split; [apply nodup_snoc; [apply nodup_ddel; exact Hc | apply dget_ddel_eq] |].
      split; [exact Hts |].
      intros k. rewrite dmem_snoc, <- Hk.
      destruct (decide (k = key)) as [-> | Hne]; [| reflexivity].
      symmetry. apply dmem_true. eauto.
  - rewrite (LRUCache_set_spec key value c o now w Hok Ht).
    eexists. split; [reflexivity |]. apply set_result_ok. exact Hok.
  - rewrite (LRUCache_remove_spec key c o Hok).
    eexists. split; [reflexivity |]. apply without_ok. exact Hok.
  - eexists. split; [reflexivity |]. simpl.
    repeat split; simpl; constructor.
  - unfold LRUCache_cleanup_expired. unfold bind at 1, time. simpl. rewrite Ht.
    unfold bind at 1, self, gets. simpl. unfold bind at 1.
    rewrite for_each_remove_spec by exact Hok.
    match goal with
    | |- context [fold_left _ ?keys c] =>
        pose proof (fold_without_ok keys c Hok) as Hok';
        destruct keys; eexists _, _; (split; [reflexivity | exact Hok'])
    end.
Qed.

(** X8: the size of the cache is bounded: [set] leaves at most
    [max_size] entries when there were at most [max_size] before, and in
    any case not more than one more than before; [get] never adds an
    entry. *)
Theorem LRUCache_set_bounds_the_size c o key value :
  LRUCache_ok c ->
  let after_set := (LRUCache_set key value (c, o)).2.1 in
  let after_get := (LRUCache_get key (c, o)).2.1 in
  LRUCache_size after_set <= Z.max (LRUCache_size c) (max_size c)
  /\ LRUCache_size after_set <= LRUCache_size c + 1
  /\ (LRUCache_size c <= max_size c -> LRUCache_size after_set <= max_size c)
  /\ LRUCache_size after_get <= LRUCache_size c
  /\ max_size after_set = max_size c /\ max_size after_get = max_size c.
Proof.
  intros Hok. destruct (time_time (os o)) as [now w] eqn:Ht. simpl.
  rewrite (LRUCache_set_spec key value c o now w Hok Ht).
  rewrite (LRUCache_get_spec key c o now w Hok Ht). simpl.
  pose proof Hok as (Hc & Hts & Hk).
  assert (Hlen : (length (ddel key (cache c) ++ [(key, value)])
                  <= length (cache c) + 1)%nat).
  { rewrite length_app. simpl. pose proof (length_ddel_le key (cache c)). lia. }
  assert (Hset :
    let c' := if max_size c <? LRUCache_size (with_last key value now c)
              then match dkeys (cache (with_last key value now c)) with
                   | oldest_key :: _ => without oldest_key (with_last key value now c)
                   | [] => with_last key value now c
                   end
              else with_last key value now c in
    LRUCache_size c' <= Z.max (LRUCache_size c) (max_size c)
    /\ LRUCache_size c' <= LRUCache_size c + 1
    /\ max_size c' = max_size c).
  { cbv zeta. unfold LRUCache_size, with_last. simpl.
    destruct (Z.ltb_spec (max_size c)
                (Z.of_nat (length (ddel key (cache c) ++ [(key, value)]))))
      as [Hfull | Hfree]; simpl; [| lia].
    destruct (dkeys (ddel key (cache c) ++ [(key, value)]))
      as [| oldest rest] eqn:Hkeys; simpl.
    { exfalso. rewrite dkeys_app in Hkeys.
      destruct (dkeys (ddel key (cache c))); discriminate. }
    assert (Hin : is_Some (dget oldest (ddel key (cache c) ++ [(key, value)]))).
    { apply dmem_true, dmem_keys. rewrite Hkeys. left. trivial. }
    pose proof (length_ddel oldest _
                  (nodup_snoc key value _ (nodup_ddel key _ Hc)
                     (dget_ddel_eq key (cache c))) Hin).
    lia. }
  simpl in Hset. destruct Hset as (Hmax & Hone & Hsize).
  split; [exact Hmax |]. split; [exact Hone |].
  split; [lia |]. split; [| split; [exact Hsize |]].
  - destruct (dget key (cache c)) as [v |] eqn:Hg; [| simpl; lia].
    destruct (dget key (timestamps c)) as [ts |]; [| simpl; lia].
    destruct (expired c now ts); unfold LRUCache_size; simpl.
    + pose proof (length_ddel_le key (cache c)). lia.
    + rewrite length_app. simpl.
      pose proof (length_ddel key (cache c) Hc (ex_intro _ v Hg)). lia.
  - destruct (dget key (cache c)) as [v |]; [| reflexivity].
    destruct (dget key (timestamps c)) as [ts |]; [| reflexivity].
    destruct (expired c now ts); reflexivity.
Qed.

(** X9: what was set is what is read: in a cache with room for one
    entry at least, [get] after [set] of the same key returns the value
    set when the entry is not older than the time to live, and [None],
    deleting the entry, when it is. *)
Theorem LRUCache_get_after_set c o key value set_time w1 get_time w2 :
  LRUCache_ok c ->
  1 <= max_size c ->
  time_time (os o) = (set_time, w1) ->
  time_time w1 = (get_time, w2) ->
  exists c',
    (run! LRUCache_set key value in LRUCache_get key) (c, o)
    = (Ok (if expired c get_time set_time then None else Some value),
       (c', with_os o w2))
    /\ dmem key (cache c') = negb (expired c get_time set_time).
Proof.
  intros Hok Hmax Ht1 Ht2. unfold bind.
  rewrite (LRUCache_set_spec key value c o set_time w1 Hok Ht1).
  set (c1 := with_last key value set_time c).
  assert (Hok1 : LRUCache_ok c1) by (apply with_last_ok; exact Hok).
  set (c2 := if max_size c <? LRUCache_size c1
             then match dkeys (cache c1) with
                  | oldest_key :: _ => without oldest_key c1
                  | [] => c1
                  end
             else c1).
  assert (Hok2 : LRUCache_ok c2) by (apply set_result_ok; exact Hok).
  pose proof (set_result_keeps_key key value set_time c Hmax) as Hkept.
  cbv zeta in Hkept. fold c1 in Hkept. fold c2 in Hkept.
  destruct Hkept as (Hg & Hgt & Httl & _).
  assert (Ht2' : time_time (os (with_os o w1)) = (get_time, w2)) by exact Ht2.
  rewrite (LRUCache_get_spec key c2 (with_os o w1) get_time w2 Hok2 Ht2').
  rewrite Hg, Hgt. unfold expired. rewrite Httl.
  destruct (SFltb (ttl c) (float_sub get_time set_time)).
  - eexists. split; [reflexivity |]. simpl. rewrite dmem_ddel.
    rewrite decide_True; trivial.
  - eexists. split; [reflexivity |]. simpl. rewrite dmem_snoc.
    rewrite decide_True; trivial.
Qed.

(** X10: least recently used first.  In a full cache, [set] of a key
    that is not in the cache evicts the entry at the front of the
    dictionary and no other; [get] of an entry that has not expired moves
    it to the back.  So, of two entries, the one set or read last is
    evicted last. *)
Theorem LRUCache_evicts_least_recently_used
    c o key value oldest_key oldest_value rest now w :
  LRUCache_ok c ->
  time_time (os o) = (now, w) ->
  cache c = (oldest_key, oldest_value) :: rest ->
  (dmem key (cache c) = false ->
   LRUCache_size c = max_size c ->
   cache (LRUCache_set key value (c, o)).2.1 = rest ++ [(key, value)])
  /\ (forall timestamp found,
        dget key (cache c) = Some found ->
        dget key (timestamps c) = Some timestamp ->
        expired c now timestamp = false ->
        LRUCache_get key (c, o)
        = (Ok (Some found),
           (with_entries c (ddel key (cache c) ++ [(key, found)])
                           (timestamps c), with_os o w))).
Proof.
  intros Hok Ht Hcache. split.
  - intros Hfresh Hfull.
    rewrite (LRUCache_set_spec key value c o now w Hok Ht).
    apply dmem_false in Hfresh.
    assert (Hrest : dget oldest_key rest = None).
    { destruct Hok as (Hc & _). rewrite Hcache in Hc. simpl in Hc.
      apply List.NoDup_cons_iff in Hc as [Hn _].
      apply dget_none_keys. exact Hn. }
    assert (Hne : key <> oldest_key).
    { intros ->. rewrite Hcache in Hfresh. simpl in Hfresh.
      rewrite decide_True in Hfresh; [discriminate | trivial]. }
    unfold LRUCache_size, with_last in *. simpl.
    rewrite (ddel_absent key (cache c)) by exact Hfresh.
    rewrite Hcache in *. simpl in *.
    match goal with
    | |- context [?a <? ?b] => destruct (Z.ltb_spec a b) as [_ | Hfree]
    end.
    2: { rewrite length_app in Hfree. simpl in Hfree. lia. }
    simpl. rewrite decide_True by trivial.
    apply ddel_absent. rewrite dget_app, Hrest. simpl.
    rewrite decide_False; [reflexivity | congruence].
  - intros timestamp found Hg Hgt Hexp.
    rewrite (LRUCache_get_spec key c o now w Hok Ht).
    rewrite Hg, Hgt, Hexp. reflexivity.
Qed.

(** X11: an entry that has expired is deleted when it is read: [get]
    returns [None] and the key is in neither dictionary afterwards,
    while every other entry is as it was.  For a key that is not in the
    cache [get] returns [None] and changes nothing; the clock is not
    read. *)
Theorem LRUCache_get_deletes_expired c o key now w :
  LRUCache_ok c ->
  time_time (os o) = (now, w) ->
  (forall timestamp,
      dget key (timestamps c) = Some timestamp ->
      expired c now timestamp = true ->
      exists c',
        LRUCache_get key (c, o) = (Ok None, (c', with_os o w))
        /\ dget key (cache c') = None
        /\ dget key (timestamps c') = None
        /\ forall k, k <> key ->
                     dget k (cache c') = dget k (cache c)
                     /\ dget k (timestamps c') = dget k (timestamps c))
  /\ (dmem key (cache c) = false -> LRUCache_get key (c, o) = (Ok None, (c, o))).
Proof.
  intros Hok Ht. split.
  - intros timestamp Hgt Hexp.
    rewrite (LRUCache_get_spec key c o now w Hok Ht). rewrite Hgt.
    destruct Hok as (_ & _ & Hk). specialize (Hk key).
    unfold dmem in Hk. rewrite Hgt in Hk.
    destruct (dget key (cache c)) as [v |]; [| discriminate].
    rewrite Hexp. eexists. split; [reflexivity |]. simpl.
    rewrite !dget_ddel_eq. repeat split; apply dget_ddel_ne; congruence.
  - intros Hm. rewrite (LRUCache_get_spec key c o now w Hok Ht).
    apply dmem_false in Hm. rewrite Hm. reflexivity.
Qed.

(** X12: [cleanup_expired] deletes the entries that have expired at the
    time it reads, and those only; it returns how many it deleted. *)
Theorem LRUCache_cleanup_expired_spec c o now w :
  LRUCache_ok c ->
  time_time (os o) = (now, w) ->
  exists n c' o',
    LRUCache_cleanup_expired (c, o) = (Ok n, (c', o'))
    /\ os o' = w
    /\ n = LRUCache_size c - LRUCache_size c'
    /\ (forall k timestamp,
          dget k (timestamps c) = Some timestamp ->
          expired c now timestamp = true ->
          dget k (cache c') = None /\ dget k (timestamps c') = None)
    /\ (forall k timestamp,
          dget k (timestamps c) = Some timestamp ->
          expired c now timestamp = false ->
          dget k (cache c') = dget k (cache c)
          /\ dget k (timestamps c') = Some timestamp)
    /\ (forall k timestamp,
          dget k (timestamps c') = Some timestamp ->
          expired c' now timestamp = false).
Proof.
  intros Hok Ht. pose proof Hok as (Hc & Hts & Hk).
  unfold LRUCache_cleanup_expired. unfold bind at 1, time. simpl. rewrite Ht.
  unfold bind at 1, self, gets. simpl. unfold bind at 1.
  rewrite for_each_remove_spec by exact Hok.
  set (stale := fun entry : string * spec_float =>
                  SFltb (ttl c) (float_sub now entry.2)).
  set (keys := map fst (List.filter stale (timestamps c))).
  set (c' := fold_left (fun acc key => without key acc) keys c).
  destruct (fold_without_fields keys c) as (Hmax & Httl & Hgone & Hkept).
  fold c' in Hmax, Httl, Hgone, Hkept.
  assert (Hok' : LRUCache_ok c') by (apply fold_without_ok; exact Hok).
  assert (Hkeys : forall k, In k keys
                            <-> exists timestamp,
                                  dget k (timestamps c) = Some timestamp
                                  /\ expired c now timestamp = true).
  { intros k. unfold keys. rewrite in_filter_keys by exact Hts. reflexivity. }
  assert (Hcount : Z.of_nat (length keys) = LRUCache_size c - LRUCache_size c').
  { unfold LRUCache_size.
    rewrite (same_keys_same_length (cache c) (timestamps c) Hc Hts Hk).
    destruct Hok' as (Hc' & Hts' & Hk').
    rewrite (same_keys_same_length (cache c') (timestamps c') Hc' Hts' Hk').
    unfold c'. rewrite fold_without_timestamps.
    pose proof (fold_without_length keys (timestamps c) Hts
                  (nodup_filter_keys stale (timestamps c) Hts)) as Hl.
    rewrite <- Hl; [lia |].
    intros k Hin. apply in_map_iff in Hin as ([k' v] & Heq & Hin).
    simpl in Heq. subst k'. apply filter_In in Hin as [Hin _].
    apply in_map_iff. exists (k, v). auto. }
  assert (Hrest :
    (forall k timestamp,
        dget k (timestamps c) = Some timestamp ->
        expired c now timestamp = true ->
        dget k (cache c') = None /\ dget k (timestamps c') = None)
    /\ (forall k timestamp,
          dget k (timestamps c) = Some timestamp ->
          expired c now timestamp = false ->
          dget k (cache c') = dget k (cache c)
          /\ dget k (timestamps c') = Some timestamp)
    /\ (forall k timestamp,
          dget k (timestamps c') = Some timestamp ->
          expired c' now timestamp = false)).
  { split; [| split].
    - intros k timestamp Hg He. apply Hgone. apply Hkeys. eauto.
    - intros k timestamp Hg He. destruct (Hkept k) as [-> ->]; [| auto].
      intros Hin. apply Hkeys in Hin as (t' & Hg' & He'). congruence.
    - intros k timestamp Hg.
      destruct (in_dec string_dec k keys) as [Hi | Hn].
      { apply Hgone in Hi as [_ Hi]. congruence. }
      destruct (Hkept k Hn) as [_ Hs]. rewrite Hs in Hg.
      unfold expired. rewrite Httl.
      destruct (SFltb (ttl c) (float_sub now timestamp)) eqn:He; [| reflexivity].
      exfalso. apply Hn. apply Hkeys. eauto. }
  destruct keys as [| key0 keys0] eqn:Hkeys0.
  - eexists _, _, _. split; [reflexivity |]. split; [reflexivity |].
    split; [exact Hcount | exact Hrest].
  - eexists _, _, _. split; [reflexivity |]. split; [reflexivity |].
    split; [exact Hcount | exact Hrest].
Qed.
End cache.

(** *** The decorators *)
Section decorators.
Context {World : Type} `{Clock World}.
Implicit Types (gc : ExpensiveOperationCache) (o : outside World).

Lemma cached_hit {C T} (lookup : Z -> prog (ExpensiveOperationCache * outside World) (option C))
    store (found : C -> T) storable func key s c s' :
  lookup key s = (Ok (Some c), s') ->
  cached lookup store found storable func key s = (Ok (found c), s').
Proof. intros Hl. unfold cached, bind. rewrite Hl. reflexivity. Qed.

Lemma cached_miss {C T} (lookup : Z -> prog (ExpensiveOperationCache * outside World) (option C))
    store (found : C -> T) storable func key s s1 result s2 :
  lookup key s = (Ok None, s1) ->
  func key s1 = (Ok result, s2) ->
  cached lookup store found storable func key s
  = match storable result with
    | Some c => (run! store key c in ret result) s2
    | None => (Ok result, s2)
    end.
Proof.
  intros Hl Hf. unfold cached. unfold bind at 1. rewrite Hl.
  unfold bind at 1. rewrite Hf. destruct (storable result); reflexivity.
Qed.

Lemma init_caches_ok :
  LRUCache_ok (exe_path_cache ExpensiveOperationCache_init)
  /\ LRUCache_ok (folder_path_cache ExpensiveOperationCache_init)
  /\ LRUCache_ok (window_info_cache ExpensiveOperationCache_init).
Proof. repeat split; simpl; constructor. Qed.

(** X13: [get_window_info] answers from the cache.  A call of the
    decorated function that misses the cache calls the function and
    stores a result that is not empty under the key of the handle; for
    as long as the entry has not expired, a later call returns the stored
    dictionary whatever the function would return now: the function is
    not called. *)
Theorem cached_window_info_answers_from_the_cache
    (func func' : Z -> prog (ExpensiveOperationCache * outside World) pydict)
    hwnd gc o gc1 o1 (info : pydict) stored w1 o2 read w2 :
  LRUCache_ok (window_info_cache gc) ->
  1 <= max_size (window_info_cache gc) ->
  dmem ("window_" +:+ pretty hwnd) (cache (window_info_cache gc)) = false ->
  func hwnd (gc, o) = (Ok info, (gc1, o1)) ->
  window_info_cache gc1 = window_info_cache gc ->
  info <> [] ->
  time_time (os o1) = (stored, w1) ->
  time_time (os o2) = (read, w2) ->
  expired (window_info_cache gc) read stored = false ->
  exists gc2 gc3,
    cached_window_info func hwnd (gc, o) = (Ok info, (gc2, with_os o1 w1))
    /\ cached_window_info func' hwnd (gc2, o2) = (Ok info, (gc3, with_os o2 w2))
    /\ exe_path_cache gc3 = exe_path_cache gc1
    /\ folder_path_cache gc3 = folder_path_cache gc1.
Proof.
  intros Hok Hmax Hmiss Hf Hsame Hne Ht1 Ht2 Hfresh.
  set (key := "window_" +:+ pretty hwnd) in *.
  set (c := window_info_cache gc) in *.
  assert (Hlookup : cache_get_window_info hwnd (gc, o) = (Ok None, (gc, o))).
  { unfold cache_get_window_info, on_window_info_cache. simpl.
    fold key. fold c.
    destruct (time_time (os o)) as [t0 w0] eqn:Ht0.
    rewrite (LRUCache_get_spec key c o t0 w0 Hok Ht0).
    apply dmem_false in Hmiss. rewrite Hmiss. simpl.
    destruct gc; reflexivity. }
  unfold cached_window_info.
  rewrite (cached_miss _ _ _ _ _ _ _ _ _ _ Hlookup Hf).
  assert (Hstore : true_dict info = Some info)
    by (destruct info; [congruence | reflexivity]).
  rewrite Hstore. clear Hstore.
  unfold bind at 1. unfold cache_set_window_info, on_window_info_cache. simpl.
  rewrite Hsame. fold key. fold c.
  rewrite (LRUCache_set_spec key info c o1 stored w1 Hok Ht1). simpl.
  set (c1 := with_last key info stored c).
  set (c2 := if max_size c <? LRUCache_size c1
             then match dkeys (cache c1) with
                  | oldest_key :: _ => without oldest_key c1
                  | [] => c1
                  end
             else c1).
  assert (Hok2 : LRUCache_ok c2) by (apply set_result_ok; exact Hok).
  pose proof (set_result_keeps_key key info stored c Hmax) as Hkept.
  cbv zeta in Hkept. fold c1 in Hkept. fold c2 in Hkept.
  destruct Hkept as (Hg & Hgt & Httl & _).
  eexists _, _. split; [reflexivity |].
  match goal with
  | |- cached _ _ _ _ _ _ (?g, _) = _ /\ _ => set (gc2 := g)
  end.
  assert (Hhit : cache_get_window_info hwnd (gc2, o2)
                 = (Ok (Some info),
                    ({| exe_path_cache := exe_path_cache gc1;
                        folder_path_cache := folder_path_cache gc1;
                        window_info_cache :=
                          with_entries c2 (ddel key (cache c2) ++ [(key, info)])
                                       (timestamps c2) |},
                     with_os o2 w2))).
  { unfold cache_get_window_info, on_window_info_cache.
    change (window_info_cache (gc2, o2).1) with c2.
    change ((gc2, o2).2) with o2. fold key.
    rewrite (LRUCache_get_spec key c2 o2 read w2 Hok2 Ht2).
    rewrite Hg, Hgt. unfold expired in *. rewrite Httl, Hfresh. reflexivity. }
  rewrite (cached_hit _ _ _ _ _ _ _ _ _ Hhit).
  split; [reflexivity |]. split; reflexivity.
Qed.

(** X14: a lookup that found nothing is not cached.  When the function
    decorated with [cached_executable_path] or [cached_folder_path]
    returns [None] or the empty string on a miss, the wrapper returns
    that and leaves the cache as the function left it, so the next call
    asks again; a path that is not empty is stored under the key of the
    process or of the handle. *)
Theorem cached_paths_skip_empty_results
    (func : Z -> prog (ExpensiveOperationCache * outside World) (option string))
    id gc o gc1 o1 result :
  func id (gc, o) = (Ok result, (gc1, o1)) ->
  (dmem ("exe_" +:+ pretty id) (cache (exe_path_cache gc)) = false ->
   LRUCache_ok (exe_path_cache gc) ->
   (true_string result = None ->
    cached_executable_path func id (gc, o) = (Ok result, (gc1, o1)))
   /\ (forall path now w,
         true_string result = Some path ->
         LRUCache_ok (exe_path_cache gc1) ->
         1 <= max_size (exe_path_cache gc1) ->
         time_time (os o1) = (now, w) ->
         exists gc2,
           cached_executable_path func id (gc, o) = (Ok result, (gc2, with_os o1 w))
           /\ dget ("exe_" +:+ pretty id) (cache (exe_path_cache gc2)) = Some path
           /\ dget ("exe_" +:+ pretty id) (timestamps (exe_path_cache gc2))
              = Some now))
  /\ (dmem ("folder_" +:+ pretty id) (cache (folder_path_cache gc)) = false ->
      LRUCache_ok (folder_path_cache gc) ->
      true_string result = None ->
      cached_folder_path func id (gc, o) = (Ok result, (gc1, o1))).
Proof.
  intros Hf. split.
  - intros Hmiss Hok.
    assert (Hlookup : cache_get_executable_path id (gc, o) = (Ok None, (gc, o))).
    { unfold cache_get_executable_path, on_exe_path_cache. simpl.
      destruct (time_time (os o)) as [t0 w0] eqn:Ht0.
      rewrite (LRUCache_get_spec _ _ o t0 w0 Hok Ht0).
      apply dmem_false in Hmiss. rewrite Hmiss. simpl.
      destruct gc; reflexivity. }
    split.
    + intros Hnone. unfold cached_executable_path.
      rewrite (cached_miss _ _ _ _ _ _ _ _ _ _ Hlookup Hf). rewrite Hnone.
      reflexivity.
    + intros path now w Hsome Hok1 Hmax Ht.
      unfold cached_executable_path.
      rewrite (cached_miss _ _ _ _ _ _ _ _ _ _ Hlookup Hf). rewrite Hsome.
      unfold bind at 1, cache_set_executable_path, on_exe_path_cache. simpl.
      set (key := "exe_" +:+ pretty id).
      set (c := exe_path_cache gc1) in *.
      rewrite (LRUCache_set_spec key path c o1 now w Hok1 Ht).
      pose proof (set_result_keeps_key key path now c Hmax) as (Hg & Hgt & _).
      eexists. split; [reflexivity |]. split; [exact Hg | exact Hgt].
  - intros Hmiss Hok Hnone.
    assert (Hlookup : cache_get_folder_path id (gc, o) = (Ok None, (gc, o))).
    { unfold cache_get_folder_path, on_folder_path_cache. simpl.
      destruct (time_time (os o)) as [t0 w0] eqn:Ht0.
      rewrite (LRUCache_get_spec _ _ o t0 w0 Hok Ht0).
      apply dmem_false in Hmiss. rewrite Hmiss. simpl.
      destruct gc; reflexivity. }
    unfold cached_folder_path.
    rewrite (cached_miss _ _ _ _ _ _ _ _ _ _ Hlookup Hf). rewrite Hnone.
    reflexivity.
Qed.
End decorators.

(** ** More of the engine *)

Section engine_again.
Context {World : Type} `{WindowAccess World} `{PyLib}.
Implicit Types (s : sys World) (o : outside World).

#[local] Arguments py_eq : simpl never.
#[local] Arguments truthy : simpl never.

(** *** The targets of an action *)

Lemma window_filter_dict window_info action :
  window_filter window_info (VDict action)
  = Ok ((negb (truthy (dget_default "is_visible" (VBool false) action))
         || truthy (dget_default "is_visible" (VBool false) window_info))
        && (negb (truthy (dget_default "is_top_level" (VBool false) action))
            || truthy (dget_default "is_top_level" (VBool false) window_info))).
Proof.
  unfold window_filter. simpl.
  destruct (truthy (dget_default "is_visible" (VBool false) action)),
           (truthy (dget_default "is_visible" (VBool false) window_info));
    simpl; try reflexivity;
    destruct (truthy (dget_default "is_top_level" (VBool false) action)),
             (truthy (dget_default "is_top_level" (VBool false) window_info));
    reflexivity.
Qed.

Lemma collect_targets_dict action new_window_info items s :
  collect_targets (VDict action) new_window_info items s
  = (Ok (map snd (List.filter (is_target action new_window_info) items)), s).
Proof.
  induction items as [| [hwnd window_info] items IH]; simpl; [reflexivity |].
  unfold bind at 1, lift_result at 1. simpl. unfold is_target at 1. simpl.
  destruct (truthy (dget_default "exclude_trigger_window" (VBool false) action)
            && py_eq (VInt hwnd) (dget_default "hwnd" VNone new_window_info));
    simpl; [exact IH |].
  unfold bind at 1, _window_matches_filter, try_except, lift_result.
  rewrite window_filter_dict. unfold bind at 1. rewrite IH. simpl.
  destruct (_ && _); reflexivity.
Qed.

Lemma is_target_same_executable flag action new_window_info item :
  is_target (dset "same_executable" flag action) new_window_info item
  = is_target action new_window_info item.
Proof.
  unfold is_target, dget_default.
  rewrite !dget_dset_ne by discriminate. reflexivity.
Qed.

(** X15: the targets of a rule whose action is a dictionary are the
    windows of the store, in the order of the store, that the action
    admits: all of them but the hidden ones when ['is_visible'] is set,
    but the ones with a parent when ['is_top_level'] is set, and but the
    window of the event when ['exclude_trigger_window'] is set.  The store
    and the log are as before.  The flag ['same_executable'] changes
    nothing. *)
Theorem filter_target_windows_selects rule action new_window_info s :
  py_get rule "action" (VDict []) = Ok (VDict action) ->
  _filter_target_windows rule new_window_info s
  = (Ok (map snd (List.filter (is_target action new_window_info)
                              (get_window_state s))), s)
  /\ (forall rule' flag,
        py_get rule' "action" (VDict [])
        = Ok (VDict (dset "same_executable" flag action)) ->
        _filter_target_windows rule' new_window_info s
        = _filter_target_windows rule new_window_info s).
Proof.
  intros Ha.
  assert (Hspec : forall r a,
             py_get r "action" (VDict []) = Ok (VDict a) ->
             _filter_target_windows r new_window_info s
             = (Ok (map snd (List.filter (is_target a new_window_info)
                                         (get_window_state s))), s)).
  { intros r a Hr. unfold _filter_target_windows, try_except.
    unfold bind at 1, lift_result at 1. rewrite Hr.
    unfold bind at 1, gets. rewrite collect_targets_dict. reflexivity. }
  split; [apply Hspec; exact Ha |].
  intros rule' flag Ha'. rewrite (Hspec _ _ Ha), (Hspec _ _ Ha').
  f_equal. f_equal. f_equal. apply filter_ext.
  intros item. apply is_target_same_executable.
Qed.

(** *** The execution counts *)

Lemma counts_grow_preorder (keys : hkey -> Prop) :
  PreOrder (@counts_grow World keys).
Proof.
  split.
  - intros s key. split; [lia | lia].
  - intros s1 s2 s3 H12 H23 key.
    destruct (H12 key) as [Hle1 Hk1]. destruct (H23 key) as [Hle2 Hk2].
    split; [lia |]. intros Hlt.
    destruct (Z.eq_dec (count_of key (_rule_execution_count (engine s1)))
                       (count_of key (_rule_execution_count (engine s2))))
      as [Heq | Hne]; [apply Hk2; lia | apply Hk1; lia].
Qed.

Lemma counts_grow_outside keys : ignores_outside (@counts_grow World keys).
Proof. intros s o key. simpl. split; lia. Qed.

Lemma counts_grow_evaluated keys : ignores_evaluated (@counts_grow World keys).
Proof. intros s l key. simpl. split; lia. Qed.

Lemma count_of_dset key key' n counts :
  count_of key' (dset key n counts)
  = if decide (key = key') then n else count_of key' counts.
Proof.
  unfold count_of. destruct (decide (key = key')) as [-> | Hne].
  - rewrite dget_dset_eq. reflexivity.
  - rewrite dget_dset_ne by exact Hne. reflexivity.
Qed.

Lemma preserves_count_execution_key (keys : hkey -> Prop) name :
  (forall key, py_hash name = Ok key -> keys key) ->
  preserves (counts_grow keys) (count_execution (World := World) name).
Proof.
  intros Hk s. unfold count_execution, bind, lift_result.
  destruct (py_hash name) as [key | e] eqn:Hh.
  - intros key'. unfold modify_engine, modify.
    cbn [snd engine _rule_execution_count].
    rewrite count_of_dset.
    fold (count_of key (_rule_execution_count (engine s))).
    destruct (decide (key = key')) as [<- | Hne]; split; try lia.
    intros _. apply Hk. reflexivity.
  - intros key'. cbn [snd]. split; lia.
Qed.

Lemma preserves_evaluate_rule_counts (keys : hkey -> Prop)
    event_type window_info rule :
  (forall key, counted_as rule key -> keys key) ->
  preserves (counts_grow keys) (evaluate_rule event_type window_info rule).
Proof.
  intros Hk.
  pose proof (counts_grow_preorder keys) as Hpre.
  pose proof (counts_grow_outside keys) as Hout.
  pose proof (counts_grow_evaluated keys) as Hev.
  unfold evaluate_rule.
  apply preserves_bind; [exact Hpre | |].
  { apply preserves_match_rule_condition; assumption. }
  intros matched. destruct matched; [| apply preserves_ret; exact Hpre].
  unfold apply_rule. unfold lift_result at 1.
  intros s. unfold bind at 1.
  destruct (py_subscript rule "name") as [name | e] eqn:Hname;
    [| simpl; reflexivity].
  revert s.
  change (preserves (counts_grow keys)
            (run! slog INFO "Rule '{name}' matched for event {event_type}" in
             let! target_windows := _filter_target_windows rule window_info in
             match target_windows with
             | [] => slog DEBUG "Rule '{name}' matched but no target windows found"
             | _ => dispatch_action rule name target_windows window_info
             end)).
  apply preserves_bind; [exact Hpre | apply preserves_slog; exact Hout |].
  intros _.
  apply preserves_bind; [exact Hpre | |].
  { apply preserves_filter_target_windows; assumption. }
  intros targets. destruct targets as [| t targets];
    [apply preserves_slog; exact Hout |].
  unfold dispatch_action.
  apply preserves_bind; [exact Hpre | apply preserves_lift_result; exact Hpre |].
  intros action.
  apply preserves_bind; [exact Hpre | apply preserves_lift_result; exact Hpre |].
  intros action_type.
  apply preserves_bind; [exact Hpre | apply preserves_lift_out; exact Hout |].
  intros success. destruct success; [| apply preserves_slog; exact Hout].
  apply preserves_bind; [exact Hpre | | intros _; apply preserves_slog; exact Hout].
  apply preserves_count_execution_key.
  intros key Hkey. apply Hk. exists name. auto.
Qed.

(** What [process_event] does before it evaluates the rules *)
Lemma process_event_prefix event_id hwnd window_info s :
  exists s2,
    rules_config (engine s2) = rules_config (engine s)
    /\ _rule_execution_count (engine s2) = _rule_execution_count (engine s)
    /\ _event_count (engine s2) = _event_count (engine s) + 1
    /\ _internal_window_state (engine s2)
       = next_window_state (event_type_mapping event_id) hwnd window_info
           (_internal_window_state (engine s))
    /\ process_event event_id hwnd window_info s
       = try_except (evaluate_rules (event_type_mapping event_id)
                       (deref window_info (objects s2)))
           (fun _ => slog ERROR "Error processing event: {e}") s2.
Proof.
  unfold process_event, process_event_body.
  unfold try_except at 1. unfold bind at 1. simpl.
  unfold bind at 1. simpl. unfold bind at 1.
  match goal with
  | |- context [_update_window_state ?et ?h ?w ?s1] =>
      pose proof (update_window_state_spec et h w s1) as Hu;
      destruct (_update_window_state et h w s1) as [r2 s2]
  end.
  simpl in Hu. destruct Hu as (-> & Hst & _ & Hrules & Hcount & Hex & _).
  exists s2. repeat split; assumption.
Qed.

(** X16: [process_event] only counts upwards, and only for enabled
    rules: no execution count goes down, and a count that goes up is
    that of the name of an enabled rule of the engine. *)
Theorem process_event_counts_enabled_rules event_id hwnd window_info s :
  counts_grow
    (fun key => exists rule,
         In rule (rules_config (engine s))
         /\ rule_enabled rule = true /\ counted_as rule key)
    s (process_event event_id hwnd window_info s).2.
Proof.
  set (keys := fun key => exists rule,
                   In rule (rules_config (engine s))
                   /\ rule_enabled rule = true /\ counted_as rule key).
  pose proof (counts_grow_preorder keys) as Hpre.
  destruct (process_event_prefix event_id hwnd window_info s)
    as (s2 & Hrules & Hcounts & _ & _ & ->).
  assert (H2 : counts_grow keys s s2).
  { intros key. rewrite Hcounts. split; lia. }
  etransitivity; [exact H2 |].
  assert (Hbody : counts_grow keys s2
                    (evaluate_rules (event_type_mapping event_id)
                       (deref window_info (objects s2)) s2).2).
  { unfold evaluate_rules. unfold bind at 1, gets at 1.
    unfold bind at 1, lift_result at 1.
    destruct (get_enabled_rules (rules_config (engine s2))) as [enabled | e] eqn:He;
      [| reflexivity].
    unfold bind at 1, lift_result at 1.
    destruct (sort_rules_by_priority enabled) as [sorted | e] eqn:Hs;
      [| reflexivity].
    apply preserves_for_each; [exact Hpre |].
    intros rule Hin. apply preserves_evaluate_rule_counts.
    intros key Hkey. exists rule.
    apply (Permutation_in _ (Permutation_sym
             (sort_rules_by_priority_perm enabled sorted Hs))) in Hin.
    rewrite (get_enabled_rules_filter _ _ He) in Hin.
    apply filter_In in Hin as [Hin Hen]. rewrite Hrules in Hin. auto. }
  unfold try_except.
  destruct (evaluate_rules (event_type_mapping event_id)
              (deref window_info (objects s2)) s2)
    as [[[] | e] s3]; simpl in *; [exact Hbody |].
  etransitivity; [exact Hbody |].
  exact (preserves_slog (counts_grow keys) _ _ (counts_grow_outside keys) s3).
Qed.

(** *** Statistics *)

Lemma for_each_process_event events : forall s,
  let r := for_each (fun event : Z * Z * ref =>
                       process_event event.1.1 event.1.2 event.2) events s in
  r.1 = Ok tt
  /\ _event_count (engine r.2)
     = _event_count (engine s) + Z.of_nat (length events)
  /\ rules_config (engine r.2) = rules_config (engine s).
Proof.
  induction events as [| [[event_id hwnd] window_info] events IH];
    intros s; simpl.
  - split; [reflexivity |]. split; [lia | reflexivity].
  - unfold bind.
    destruct (process_event_spec event_id hwnd window_info s)
      as (s' & -> & Hcount & _ & _ & Hrules).
    destruct (IH s') as (Hok & Hc & Hr). simpl in *.
    split; [exact Hok |]. split; [lia | congruence].
Qed.

(** X17: the statistics count the events.  [clear_statistics] sets the
    number of events to zero and empties the execution counts, and
    leaves the windows and the rules; after it, the number of events
    processed is the number of calls of [process_event], whatever the
    events were. *)
Theorem clear_statistics_then_events (events : list (Z * Z * ref)) s :
  let cleared := (clear_statistics s).2 in
  let after :=
    (for_each (fun event : Z * Z * ref =>
                 process_event event.1.1 event.1.2 event.2) events cleared).2 in
  total_events_processed (get_statistics cleared) = 0
  /\ rule_execution_counts (get_statistics cleared) = []
  /\ current_windows_tracked (get_statistics cleared)
     = current_windows_tracked (get_statistics s)
  /\ enabled_rules (get_statistics cleared) = enabled_rules (get_statistics s)
  /\ total_events_processed (get_statistics after) = Z.of_nat (length events)
  /\ enabled_rules (get_statistics after) = enabled_rules (get_statistics s).
Proof.
  simpl.
  destruct (for_each_process_event events (clear_statistics s).2)
    as (_ & Hcount & Hrules). simpl in *.
  unfold get_statistics. simpl. rewrite Hcount, Hrules. simpl.
  repeat split; lia.
Qed.

(** *** The store *)

Lemma ddel_dset_absent {K V} `{EqDecision K} (k : K) (v : V) d :
  dget k d = None -> ddel k (dset k v d) = d.
Proof.
  induction d as [| [k' v'] d IH]; simpl.
  - intros _. rewrite decide_True; trivial.
  - destruct (decide (k = k')) as [-> | Hne]; [discriminate |].
    intros Hg. simpl. rewrite decide_False by exact Hne.
    rewrite IH by exact Hg. reflexivity.
Qed.

(** X18: a window that is created and then destroyed leaves no trace in
    the store: when the handle was not tracked, the store after the two
    events is the store before them, and so is the number of windows
    tracked; when it was, the entry is gone and the others are as
    before. *)
Theorem create_then_destroy_restores_store
    hwnd (window_info closed_info : ref) s :
  let s1 := (process_event EVENT_OBJECT_CREATE hwnd window_info s).2 in
  let s2 := (process_event EVENT_OBJECT_DESTROY hwnd closed_info s1).2 in
  dget hwnd (get_window_state s1) = Some (deref window_info (objects s))
  /\ dget hwnd (get_window_state s2) = None
  /\ (forall h, h <> hwnd ->
                dget h (get_window_state s2) = dget h (get_window_state s))
  /\ (dget hwnd (get_window_state s) = None ->
      get_window_state s2 = get_window_state s
      /\ current_windows_tracked (get_statistics s2)
         = current_windows_tracked (get_statistics s)).
Proof.
  cbv zeta.
  destruct (process_event_spec EVENT_OBJECT_CREATE hwnd window_info s)
    as (s1 & -> & _ & Hst1 & Hobj1 & _).
  cbn [snd].
  destruct (process_event_spec EVENT_OBJECT_DESTROY hwnd closed_info s1)
    as (s2 & -> & _ & Hst2 & Hobj2 & _).
  cbn [snd].
  change (objects s1 = objects s) in Hobj1.
  change (objects s2 = objects s1) in Hobj2.
  change (_internal_window_state (engine s1)
          = dset hwnd window_info (_internal_window_state (engine s))) in Hst1.
  change (_internal_window_state (engine s2)
          = ddel hwnd (_internal_window_state (engine s1))) in Hst2.
  assert (H1 : get_window_state s1
               = dset hwnd (deref window_info (objects s)) (get_window_state s)).
  { unfold get_window_state. rewrite Hst1, Hobj1.
    apply (view_dset (fun r => deref r (objects s))). }
  assert (H2 : get_window_state s2 = ddel hwnd (get_window_state s1)).
  { unfold get_window_state. rewrite Hst2, Hobj2.
    apply (view_ddel (fun r => deref r (objects s1))). }
  rewrite H2, H1.
  split; [apply dget_dset_eq |]. split; [apply dget_ddel_eq |].
  split.
  - intros h Hne. rewrite dget_ddel_ne, dget_dset_ne; congruence.
  - intros Hnew. rewrite ddel_dset_absent by exact Hnew.
    split; [reflexivity |].
    unfold get_statistics. cbn [current_windows_tracked].
    rewrite Hst2, Hst1.
    assert (Habs : dget hwnd (_internal_window_state (engine s)) = None).
    { rewrite dget_get_window_state in Hnew.
      destruct (dget hwnd (_internal_window_state (engine s)));
        [discriminate | reflexivity]. }
    rewrite ddel_dset_absent by exact Habs. reflexivity.
Qed.

(** *** The initial store *)

Lemma entries_titled_preorder hwnds : PreOrder (@entries_titled World hwnds).
Proof.
  split.
  - intros s h info Hg. auto.
  - intros s1 s2 s3 H12 H23 h info Hg.
    destruct (H23 h info Hg) as [H2 | Hnew]; [auto | auto].
Qed.

Lemma entries_titled_outside hwnds : ignores_outside (@entries_titled World hwnds).
Proof. intros s o h info Hg. auto. Qed.

Lemma store_only_preorder : PreOrder (@store_only World).
Proof.
  split.
  - intros s. repeat split.
  - intros s1 s2 s3 (? & ? & ? & ?) (? & ? & ? & ?).
    unfold store_only. repeat split; congruence.
Qed.

Lemma store_only_outside : ignores_outside (@store_only World).
Proof. intros s o. repeat split. Qed.

Lemma initialize_window_state_total :
  total (_initialize_window_state (World := World)).
Proof.
  unfold _initialize_window_state. apply total_try_except.
  intros e. apply total_slog.
Qed.

Lemma initialize_window_state_store s :
  store_only s (_initialize_window_state s).2
  /\ exists hwnds,
       entries_titled hwnds s (_initialize_window_state s).2
       /\ (forall h, In h hwnds ->
             exists l w, enum_top_level_windows (os (out s)) = (Ok l, w)
                         /\ In h l).
Proof.
  pose proof store_only_preorder as Hpre1.
  pose proof store_only_outside as Hout1.
  split.
  - revert s. change (preserves store_only (_initialize_window_state (World := World))).
    unfold _initialize_window_state.
    apply preserves_try_except; [exact Hpre1 | | intros e; apply preserves_slog; exact Hout1].
    apply preserves_bind; [exact Hpre1 | apply preserves_slog; exact Hout1 |].
    intros _. apply preserves_bind; [exact Hpre1 | apply preserves_lift_out; exact Hout1 |].
    intros hwnds. apply preserves_bind; [exact Hpre1 | | intros _; apply preserves_slog; exact Hout1].
    apply preserves_for_each; [exact Hpre1 |]. intros hwnd _.
    apply preserves_bind; [exact Hpre1 | apply preserves_lift_out; exact Hout1 |].
    intros window_info. destruct window_info as [| kv rest];
      [apply preserves_ret; exact Hpre1 |].
    match goal with
    | |- context [truthy ?v] => destruct (truthy v)
    end; [| apply preserves_ret; exact Hpre1].
    intros s0.
    unfold bind, new_object, gets, set_window_state, modify_engine, modify.
    simpl. repeat split.
  - unfold _initialize_window_state, try_except.
    unfold bind at 1. simpl. unfold bind at 1.
    unfold lift_out at 1, os_call at 1. simpl.
    destruct (enum_top_level_windows (os (out s))) as [[l | e] w] eqn:He; simpl.
    + exists l. split; [| eauto].
      pose proof (entries_titled_preorder l) as Hpre.
      pose proof (entries_titled_outside l) as Hout.
      match goal with
      | |- context [bind (for_each ?body l) ?k ?s1] =>
          assert (Hloop : preserves (entries_titled l) (bind (for_each body l) k));
          [| specialize (Hloop s1);
             destruct (bind (for_each body l) k s1) as [[[] | e] s2] ]
      end.
      * apply preserves_bind; [exact Hpre | | intros _; apply preserves_slog; exact Hout].
        apply preserves_for_each; [exact Hpre |]. intros hwnd Hin.
        apply preserves_bind; [exact Hpre | apply preserves_lift_out; exact Hout |].
        intros window_info. destruct window_info as [| kv rest];
          [apply preserves_ret; exact Hpre |].
        match goal with
        | |- context [truthy ?v] => destruct (truthy v) eqn:Htitle
        end; [| apply preserves_ret; exact Hpre].
        intros s0.
        unfold bind, new_object, gets, set_window_state, modify_engine, modify.
        cbn [fst snd].
        match goal with
        | |- entries_titled _ _ ?s1 =>
            pose proof (get_window_state_new_dict s0 s1 hwnd (kv :: rest)
                          eq_refl eq_refl) as Hnew
        end.
        intros h info. rewrite Hnew.
        destruct (decide (h = hwnd)) as [-> | Hne].
        -- intros Hi. injection Hi as <-.
           right. split; [exact Hin |]. split; [discriminate | exact Htitle].
        -- auto.
      * intros h info Hg. apply (Hloop h info). exact Hg.
      * intros h info Hg. apply (Hloop h info). exact Hg.
    + exists []. split; [| intros h []]. intros h info Hg. auto.
Qed.

(** X19: a new engine.  [RuleEngine(rules)] does not raise, whatever the
    desktop does; the engine holds the rules it was given, has processed
    no event and counted no execution; and its store holds windows that
    the enumeration of the open windows listed, each with window
    information that is not empty and has a title. *)
Theorem RuleEngine_init_store rules o :
  let r := RuleEngine_init rules o in
  r.1 = Ok tt
  /\ rules_config (engine r.2) = rules
  /\ total_events_processed (get_statistics r.2) = 0
  /\ rule_execution_counts (get_statistics r.2) = []
  /\ evaluated r.2 = []
  /\ forall h info,
       dget h (get_window_state r.2) = Some info ->
       info <> []
       /\ truthy (dget_default "title" VNone info) = true
       /\ exists l w, enum_top_level_windows (os o) = (Ok l, w) /\ In h l.
Proof.
  unfold RuleEngine_init. cbv zeta.
  match goal with
  | |- context [bind ?m ?k ?s0] =>
      change (bind m k s0) with (_initialize_window_state (m s0).2)
  end.
  match goal with
  | |- context [_initialize_window_state ?s1] =>
      destruct (initialize_window_state_store s1)
        as ((Hrules & Hcount & Hcounts & Hev) & hwnds & Htitled & Henum);
      pose proof (total_unit _ s1 initialize_window_state_total) as Hok;
      destruct (_initialize_window_state s1) as [r s2]
  end.
  simpl in *. split; [exact Hok |].
  unfold get_statistics, get_window_state. simpl.
  repeat (split; [assumption |]).
  intros h info Hg. destruct (Htitled h info Hg) as [Hold | (Hin & Hne & Ht)].
  - discriminate.
  - repeat (split; [assumption |]). apply Henum. exact Hin.
Qed.
End engine_again.

(** ** The commands of the actions *)

Section journal.
Context {World : Type} `{WindowAccess World} `{PyLib}.
Implicit Types (o : outside (recorded World)) (c : call).

#[local] Arguments py_eq : simpl never.
#[local] Arguments truthy : simpl never.

Lemma adds_calls_ret {A} allowed (good : A -> list call -> Prop) (a : A) :
  good a [] -> adds_calls (World := World) allowed good (ret a).
Proof.
  intros Hg o. exists []. simpl. rewrite app_nil_r.
  split; [reflexivity |]. split; [constructor |].
  intros a' Ha. injection Ha as <-. exact Hg.
Qed.

Lemma adds_calls_raise {A} allowed (good : A -> list call -> Prop) e :
  adds_calls (World := World) allowed good (raise e).
Proof.
  intros o. exists []. simpl. rewrite app_nil_r.
  split; [reflexivity |]. split; [constructor | discriminate].
Qed.

Lemma adds_calls_lift_result {A} allowed (good : A -> list call -> Prop) r :
  (forall a, r = Ok a -> good a []) ->
  adds_calls (World := World) allowed good (lift_result r).
Proof.
  intros Hg o. exists []. simpl. rewrite app_nil_r.
  split; [reflexivity |]. split; [constructor | exact Hg].
Qed.

Lemma adds_calls_olog allowed (good : unit -> list call -> Prop) lvl msg :
  good tt [] -> adds_calls (World := World) allowed good (olog lvl msg).
Proof.
  intros Hg o. exists []. simpl. rewrite app_nil_r.
  split; [reflexivity |]. split; [constructor |].
  intros [] _. exact Hg.
Qed.

Lemma adds_calls_observe {A} allowed (good : A -> list call -> Prop)
    (query : World -> result A * World) :
  (forall a, good a []) ->
  adds_calls allowed good (os_call (observe query)).
Proof.
  intros Hg o. exists []. unfold os_call, observe.
  destruct (query (inner (os o))) as [r w]. simpl. rewrite app_nil_r.
  split; [reflexivity |]. split; [constructor |]. intros a _. apply Hg.
Qed.

Lemma adds_calls_record allowed (good : bool -> list call -> Prop) name
    (primitive : value -> World -> result bool * World) hwnd :
  (forall r, allowed {| call_command := name; call_handle := hwnd;
                        call_outcome := r |}) ->
  (forall b, good b [{| call_command := name; call_handle := hwnd;
                        call_outcome := Ok b |}]) ->
  adds_calls allowed good (os_call (record name primitive hwnd)).
Proof.
  intros Ha Hg o. unfold os_call, record.
  destruct (primitive hwnd (inner (os o))) as [r w]. simpl.
  eexists. split; [reflexivity |]. split; [constructor; [apply Ha | constructor] |].
  intros b ->. apply Hg.
Qed.

Lemma adds_calls_bind {A B} allowed (goodA : A -> list call -> Prop)
    (goodB : A -> B -> list call -> Prop) (good : B -> list call -> Prop)
    (m : prog (outside (recorded World)) A) (f : A -> prog _ B) :
  adds_calls allowed goodA m ->
  (forall a, adds_calls allowed (goodB a) (f a)) ->
  (forall a l1 b l2, goodA a l1 -> goodB a b l2 -> good b (l1 ++ l2)) ->
  adds_calls allowed good (bind m f).
Proof.
  intros Hm Hf Hgood o. unfold bind.
  destruct (Hm o) as (l1 & Hj1 & Hall1 & Hg1).
  destruct (m o) as [[a | e] o1]; simpl in *.
  - destruct (Hf a o1) as (l2 & Hj2 & Hall2 & Hg2).
    exists (l1 ++ l2). rewrite Hj2, Hj1, app_assoc.
    split; [reflexivity |]. split; [apply Forall_app; auto |].
    intros b Hb. eapply Hgood; [apply Hg1; reflexivity | apply Hg2; exact Hb].
  - exists l1. split; [exact Hj1 |]. split; [exact Hall1 | discriminate].
Qed.

Lemma adds_calls_try_except {A} allowed (goodB goodH good : A -> list call -> Prop)
    (body : prog (outside (recorded World)) A) handler :
  adds_calls allowed goodB body ->
  (forall e, adds_calls allowed goodH (handler e)) ->
  (forall a l, goodB a l -> good a l) ->
  (forall a l1 l2, Forall allowed l1 -> goodH a l2 -> good a (l1 ++ l2)) ->
  adds_calls allowed good (try_except body handler).
Proof.
  intros Hb Hh Hgb Hgh o. unfold try_except.
  destruct (Hb o) as (l1 & Hj1 & Hall1 & Hg1).
  destruct (body o) as [[a | e] o1]; simpl in *.
  - exists l1. split; [exact Hj1 |]. split; [exact Hall1 |].
    intros a' Ha. apply Hgb, Hg1. exact Ha.
  - destruct (Hh e o1) as (l2 & Hj2 & Hall2 & Hg2).
    exists (l1 ++ l2). rewrite Hj2, Hj1, app_assoc.
    split; [reflexivity |]. split; [apply Forall_app; auto |].
    intros a Ha. apply Hgh; [exact Hall1 | apply Hg2; exact Ha].
Qed.

Lemma adds_calls_weaken {A} (allowed allowed' : call -> Prop)
    (good good' : A -> list call -> Prop) m :
  adds_calls (World := World) allowed good m ->
  (forall c, allowed c -> allowed' c) ->
  (forall a l, Forall allowed l -> good a l -> good' a l) ->
  adds_calls allowed' good' m.
Proof.
  intros Hm Ha Hg o. destruct (Hm o) as (l & Hj & Hall & Hgood).
  exists l. split; [exact Hj |].
  split; [eapply List.Forall_impl; [exact Ha | exact Hall] |].
  intros a Hr. apply Hg; [exact Hall | apply Hgood; exact Hr].
Qed.

(** A counting loop: a positive count needs a call that succeeded. *)
Lemma adds_calls_count_successes {T} allowed
    (body : T -> prog (outside (recorded World)) bool) l :
  (forall x, In x l ->
             adds_calls allowed
               (fun b added => b = true -> Exists succeeded added) (body x)) ->
  adds_calls allowed
    (fun n added => 0 <= n /\ (0 < n -> Exists succeeded added))
    (count_successes body l).
Proof.
  induction l as [| x l IH]; intros Hb; simpl.
  - apply adds_calls_ret. split; [lia | lia].
  - apply (adds_calls_bind allowed
             (fun b added => b = true -> Exists succeeded added)
             (fun b n added =>
                (if b then 1 else 0) <= n
                /\ ((if b then 1 else 0) < n -> Exists succeeded added))
             (fun n added => 0 <= n /\ (0 < n -> Exists succeeded added))).
    + apply Hb. left. reflexivity.
    + intros b.
      apply (adds_calls_bind allowed
               (fun n added => 0 <= n /\ (0 < n -> Exists succeeded added))
               (fun n m added => m = (if b then 1 else 0) + n /\ added = [])
               (fun n added =>
                  (if b then 1 else 0) <= n
                  /\ ((if b then 1 else 0) < n -> Exists succeeded added))).
      * apply IH. intros y Hy. apply Hb. right. exact Hy.
      * intros n. apply adds_calls_ret. auto.
      * intros n l1 m l2 [Hn0 Hn] [-> ->]. rewrite app_nil_r.
        split; [lia |]. intros Hlt. apply Hn. lia.
    + intros b l1 m l2 Hb1 [Hm0 Hm]. split; [destruct b; lia |].
      intros Hpos. apply Exists_app.
      destruct b; [left; auto |]. right. apply Hm. lia.
Qed.

(** A step that gives no command *)
Lemma adds_calls_seq {A B} allowed (good : B -> list call -> Prop)
    (m : prog (outside (recorded World)) A) (f : A -> prog _ B) :
  adds_calls allowed (fun _ added => added = []) m ->
  (forall a, adds_calls allowed good (f a)) ->
  adds_calls allowed good (bind m f).
Proof.
  intros Hm Hf.
  apply (adds_calls_bind allowed (fun _ added => added = [])
           (fun _ => good) good); trivial.
  intros a l1 b l2 -> Hg. exact Hg.
Qed.

Lemma adds_calls_seq_lift {A B} allowed (good : B -> list call -> Prop)
    (r : result A) (f : A -> prog (outside (recorded World)) B) :
  (forall a, r = Ok a -> adds_calls allowed good (f a)) ->
  adds_calls allowed good (bind (lift_result r) f).
Proof.
  intros Hf. destruct r as [a | e].
  - intros o. exact (Hf a eq_refl o).
  - intros o. exists []. simpl. rewrite app_nil_r.
    split; [reflexivity |]. split; [constructor | discriminate].
Qed.

Lemma adds_calls_quiet_olog allowed lvl msg :
  adds_calls (World := World) allowed (fun _ added => added = []) (olog lvl msg).
Proof. apply adds_calls_olog. reflexivity. Qed.

Lemma adds_calls_quiet_observe {A} allowed (query : World -> result A * World) :
  adds_calls allowed (fun _ added => added = []) (os_call (observe query)).
Proof. apply adds_calls_observe. reflexivity. Qed.

(** [olog ...; return False] *)
Lemma adds_calls_give_up allowed (good : bool -> list call -> Prop) lvl msg :
  good false [] ->
  adds_calls (World := World) allowed good (run! olog lvl msg in ret false).
Proof.
  intros Hg. apply adds_calls_seq; [apply adds_calls_quiet_olog |].
  intros _. apply adds_calls_ret. exact Hg.
Qed.

(** One primitive, called and reported *)
Lemma adds_calls_primitive allowed name
    (primitive : value -> World -> result bool * World) hwnd success failed :
  (forall r, allowed {| call_command := name; call_handle := hwnd;
                        call_outcome := r |}) ->
  adds_calls allowed (fun b added => b = true -> Exists succeeded added)
    (let! ok := os_call (record name primitive hwnd) in
     if ok then run! olog INFO success in ret true
     else run! olog WARNING failed in ret false).
Proof.
  intros Ha.
  apply (adds_calls_bind allowed
           (fun b added => added = [{| call_command := name; call_handle := hwnd;
                                       call_outcome := Ok b |}])
           (fun b b' added => b' = b /\ added = [])
           (fun b added => b = true -> Exists succeeded added)).
  - apply adds_calls_record; [exact Ha | reflexivity].
  - intros b. destruct b.
    + apply adds_calls_seq; [apply adds_calls_quiet_olog |].
      intros _. apply adds_calls_ret. auto.
    + apply adds_calls_seq; [apply adds_calls_quiet_olog |].
      intros _. apply adds_calls_ret. auto.
  - intros b l1 b' l2 -> [-> ->] ->. constructor. reflexivity.
Qed.

(** The end of a handler: the summary and the test of the count *)
Lemma adds_calls_counted {T} allowed
    (body : T -> prog (outside (recorded World)) bool) l lvl msg :
  (forall x, In x l ->
             adds_calls allowed
               (fun b added => b = true -> Exists succeeded added) (body x)) ->
  adds_calls allowed (fun b added => b = true -> Exists succeeded added)
    (let! n := count_successes body l in
     run! olog lvl msg in ret (0 <? n)).
Proof.
  intros Hb.
  apply (adds_calls_bind allowed
           (fun n added => 0 <= n /\ (0 < n -> Exists succeeded added))
           (fun n b added => b = (0 <? n) /\ added = [])
           (fun b added => b = true -> Exists succeeded added)).
  - apply adds_calls_count_successes. exact Hb.
  - intros n. apply adds_calls_seq; [apply adds_calls_quiet_olog |].
    intros _. apply adds_calls_ret. auto.
  - intros n l1 b l2 [_ Hn] [-> ->] Hpos. rewrite app_nil_r.
    apply Hn. apply Z.ltb_lt. exact Hpos.
Qed.

(** A handler never raises: its body is in a [try]. *)
Lemma handler_total {A} (body : prog (outside (recorded World)) A) lvl msg a :
  total (try_except body (fun _ => run! olog lvl msg in ret a)).
Proof.
  apply total_try_except. intros e. apply total_bind; [| intros; apply total_ret].
  intros o. exists tt. reflexivity.
Qed.

(** X20: [MINIMIZE_OTHERS_OF_SAME_APP] minimizes nothing but other
    windows of the same application: every command the handler gives is
    a minimize of a target that is not the window of the event, is
    visible and top-level, and whose executable has the base name of the
    executable of that window; no window is closed, hidden or raised.
    The handler never raises, and it reports success only when a window
    was minimized. *)
Theorem minimize_others_spares_the_trigger target_windows new_window_info :
  adds_calls (may_minimize target_windows new_window_info)
    (fun success added => success = true -> Exists succeeded added)
    (_minimize_others_of_same_app (World := recorded World)
       target_windows new_window_info)
  /\ total (_minimize_others_of_same_app (World := recorded World)
              target_windows new_window_info).
Proof.
  split; [| apply handler_total].
  unfold _minimize_others_of_same_app.
  apply (adds_calls_try_except _
           (fun success added => success = true -> Exists succeeded added)
           (fun success _ => success = false)).
  2: { intros e. apply adds_calls_seq; [apply adds_calls_quiet_olog |].
       intros _. apply adds_calls_ret. reflexivity. }
  2: { auto. }
  2: { intros a l1 l2 _ -> Ha. discriminate. }
  destruct new_window_info as [| entry rest] eqn:Hinfo;
    [apply adds_calls_give_up; discriminate |].
  rewrite <- Hinfo. clear Hinfo entry rest.
  destruct (truthy (dget_default "exe_path" (VStr "") new_window_info)) eqn:Hexe;
    simpl; [| apply adds_calls_give_up; discriminate].
  apply adds_calls_seq_lift. intros new_exe_name Hname.
  apply adds_calls_counted. intros window_info Hin.
  destruct (py_eq (dget_default "hwnd" VNone window_info)
                  (dget_default "hwnd" VNone new_window_info)) eqn:Hsame;
    [apply adds_calls_ret; discriminate |].
  destruct (truthy (dget_default "exe_path" (VStr "") window_info));
    [| apply adds_calls_ret; discriminate].
  apply adds_calls_seq_lift. intros window_exe_name Hwname.
  destruct (String.eqb_spec window_exe_name new_exe_name) as [-> | Hne];
    [| apply adds_calls_ret; discriminate].
  destruct (truthy (dget_default "is_visible" (VBool false) window_info)) eqn:Hvis;
    [| apply adds_calls_ret; discriminate].
  destruct (truthy (dget_default "is_top_level" (VBool false) window_info)) eqn:Htop;
    [| apply adds_calls_ret; discriminate].
  simpl. apply adds_calls_primitive.
  intros r. split; [reflexivity |]. simpl.
  exists window_info, new_exe_name. auto 10.
Qed.

(** X21: [CLOSE_DUPLICATE_PATH] never closes the window of the event:
    every command the handler gives is a close of a window with another
    handle, or the raise of the window it keeps; nothing is minimized or
    hidden.  The handler never raises, reports success only when a window
    was closed, gives no command at all when the window of the event is
    not of class [CabinetWClass], and does not look at its targets. *)
Theorem close_duplicate_path_spares_the_trigger target_windows new_window_info :
  adds_calls (may_close_duplicate new_window_info)
    (fun success added => success = true -> Exists succeeded added)
    (_close_duplicate_path (World := recorded World)
       target_windows new_window_info)
  /\ total (_close_duplicate_path (World := recorded World)
              target_windows new_window_info)
  /\ (py_eq (dget_default "class_name" (VStr "") new_window_info)
            (VStr "CabinetWClass") = false ->
      forall o,
        exists o',
          _close_duplicate_path target_windows new_window_info o = (Ok false, o')
          /\ os o' = os o)
  /\ (forall other_targets o,
        _close_duplicate_path other_targets new_window_info o
        = _close_duplicate_path target_windows new_window_info o).
Proof.
  split; [| split; [apply handler_total | split]].
  - unfold _close_duplicate_path.
    apply (adds_calls_try_except _
             (fun success added => success = true -> Exists succeeded added)
             (fun success _ => success = false)).
    2: { intros e. apply adds_calls_seq; [apply adds_calls_quiet_olog |].
         intros _. apply adds_calls_ret. reflexivity. }
    2: { auto. }
    2: { intros a l1 l2 _ -> Ha. discriminate. }
    destruct new_window_info as [| entry rest] eqn:Hinfo;
      [apply adds_calls_give_up; discriminate |].
    rewrite <- Hinfo. clear Hinfo entry rest.
    destruct (py_eq (dget_default "class_name" (VStr "") new_window_info)
                    (VStr "CabinetWClass"));
      simpl; [| apply adds_calls_give_up; discriminate].
    apply adds_calls_seq; [apply adds_calls_quiet_observe |].
    intros new_window_path.
    destruct new_window_path as [[| ch path] |];
      try (apply adds_calls_give_up; discriminate).
    apply adds_calls_seq; [apply adds_calls_quiet_olog |]. intros _.
    apply adds_calls_seq; [apply adds_calls_quiet_observe |].
    intros explorer_windows.
    set (duplicates := filter _ explorer_windows).
    destruct (length duplicates <=? 1)%nat;
      [apply adds_calls_give_up; discriminate |].
    apply adds_calls_seq; [apply adds_calls_quiet_observe |].
    intros foreground_hwnd.
    set (trigger := dget_default "hwnd" VNone new_window_info).
    set (keep_hwnd := if existsb _ duplicates then trigger else foreground_hwnd).
    apply (adds_calls_bind _
             (fun n added => 0 <= n /\ (0 < n -> Exists succeeded added))
             (fun n b added => b = (0 <? n))
             (fun b added => b = true -> Exists succeeded added)).
    + apply adds_calls_count_successes. intros win Hin.
      destruct (py_eq (VInt win.1) keep_hwnd) eqn:Hkeep;
        [apply adds_calls_ret; discriminate |].
      apply adds_calls_primitive.
      intros r. left. split; [reflexivity |]. exists win.1.
      split; [reflexivity |]. simpl.
      unfold keep_hwnd in Hkeep.
      destruct (existsb (fun d : Z * string => py_eq (VInt d.1) trigger)
                        duplicates) eqn:Hex; [exact Hkeep |].
      apply not_true_is_false. intros Heq.
      assert (Hc : existsb (fun d : Z * string => py_eq (VInt d.1) trigger)
                           duplicates = true).
      { apply existsb_exists. exists win. split; [exact Hin | exact Heq]. }
      congruence.
    + intros n.
      apply (adds_calls_bind _ (fun _ _ => True)
               (fun _ b added => b = (0 <? n))
               (fun b added => b = (0 <? n))).
      * apply (adds_calls_try_except _ (fun _ _ => True) (fun _ _ => True));
          [| intros e; apply adds_calls_ret; exact I | auto | auto].
        apply (adds_calls_bind _ (fun _ _ => True) (fun _ _ _ => True));
          [| intros b; apply adds_calls_ret; exact I | auto].
        apply adds_calls_record; [| auto]. intros r. right. reflexivity.
      * intros _. apply adds_calls_seq; [apply adds_calls_quiet_olog |].
        intros _. apply adds_calls_ret. reflexivity.
      * intros _ l1 b l2 _ Hb. exact Hb.
    + intros n l1 b l2 [_ Hn] -> Hpos. apply Exists_app. left.
      apply Hn. apply Z.ltb_lt. exact Hpos.
  - intros Hclass o. unfold _close_duplicate_path, try_except.
    destruct new_window_info as [| entry rest] eqn:Hinfo.
    + eexists. split; reflexivity.
    + rewrite <- Hinfo in *. rewrite Hclass. eexists. split; reflexivity.
  - intros other_targets o. reflexivity.
Qed.

Lemma count_successes_cons {S T}
    (body : T -> prog (outside S) bool) x l (o : outside S) :
  count_successes body (x :: l) o
  = match body x o with
    | (Ok b, o1) =>
        match count_successes body l o1 with
        | (Ok n, o2) => (Ok ((if b then 1 else 0) + n), o2)
        | (Raise e, o2) => (Raise e, o2)
        end
    | (Raise e, o1) => (Raise e, o1)
    end.
Proof.
  simpl. unfold bind.
  destruct (body x o) as [[b | e] o1]; [| reflexivity].
  destruct (count_successes body l o1) as [[n | e] o2]; reflexivity.
Qed.

(** The loop of a handler that applies one primitive to every target *)
Lemma count_successes_applied name
    (primitive : value -> World -> result bool * World) success failed
    target_windows : forall o r o',
  count_successes (fun window_info =>
    let hwnd := dget_default "hwnd" VNone window_info in
    let! ok := os_call (record name primitive hwnd) in
    if ok then run! olog INFO success in ret true
    else run! olog WARNING failed in ret false) target_windows o = (r, o') ->
  exists added,
    journal (os o') = journal (os o) ++ added
    /\ applied_to name target_windows added
    /\ match r with
       | Ok n =>
           length added = length target_windows
           /\ Forall (fun c => is_ok (call_outcome c) = true) added
           /\ 0 <= n /\ (0 < n <-> Exists succeeded added)
       | Raise e =>
           ~ Forall (fun c => is_ok (call_outcome c) = true) added
       end.
Proof.
  induction target_windows as [| window_info target_windows IH];
    intros o r o' Hrun.
  - simpl in Hrun. injection Hrun as <- <-.
    exists []. rewrite app_nil_r. split; [reflexivity |].
    split; [split; [constructor | reflexivity] |].
    split; [reflexivity |]. split; [constructor |].
    split; [lia |]. split; [lia | intros Hex; inversion Hex].
  - rewrite count_successes_cons in Hrun. cbv zeta in Hrun.
    set (hwnd := dget_default "hwnd" VNone window_info) in *.
    unfold bind at 1 in Hrun. unfold os_call at 1, record at 1 in Hrun.
    destruct (primitive hwnd (inner (os o))) as [[ok | e] w] eqn:Hp.
    + set (c := {| call_command := name; call_handle := hwnd;
                   call_outcome := Ok ok |}) in *.
      assert (Hlog : exists o1,
                 (if ok then run! olog INFO success in ret true
                  else run! olog WARNING failed in ret false)
                   {| os := {| inner := w; journal := journal (os o) ++ [c] |};
                      log := log o |} = (Ok ok, o1)
                 /\ os o1 = {| inner := w; journal := journal (os o) ++ [c] |}).
      { destruct ok; eexists; split; reflexivity. }
      destruct Hlog as (o1 & Hlog & Hos). rewrite Hlog in Hrun.
      match type of Hrun with
      | context [count_successes ?body target_windows o1] =>
          destruct (count_successes body target_windows o1) as [r2 o2] eqn:Hrest
      end.
      destruct (IH o1 r2 o2 Hrest) as (added & Hj & [Hcmd Hhandles] & Hres).
      destruct r2 as [n | e]; injection Hrun as <- <-.
      * destruct Hres as (Hlen & Hok & Hn0 & Hn).
        exists (c :: added). rewrite Hj, Hos. cbn [journal].
        rewrite <- app_assoc. split; [reflexivity |].
        split; [split; [constructor; [reflexivity | exact Hcmd] |
                        cbn [length map take]; rewrite Hhandles; reflexivity] |].
        split; [simpl; lia |]. split; [constructor; [reflexivity | exact Hok] |].
        split; [destruct ok; lia |]. split.
        -- intros Hpos. destruct ok; [left; reflexivity |].
           right. apply Hn. lia.
        -- intros Hex. apply Exists_cons in Hex as [Hc | Hex].
           ++ unfold succeeded, c in Hc. simpl in Hc. injection Hc as ->. lia.
           ++ apply Hn in Hex. destruct ok; lia.
      * exists (c :: added). rewrite Hj, Hos. cbn [journal].
        rewrite <- app_assoc. split; [reflexivity |].
        split; [split; [constructor; [reflexivity | exact Hcmd] |
                        cbn [length map take]; rewrite Hhandles; reflexivity] |].
        intros Hall. apply Forall_cons in Hall as [_ Hall]. tauto.
    + injection Hrun as <- <-.
      exists [{| call_command := name; call_handle := hwnd;
                 call_outcome := Raise e |}].
      split; [reflexivity |].
      split; [split; [constructor; [reflexivity | constructor] | reflexivity] |].
      intros Hall. apply Forall_cons in Hall as [Hc _]. discriminate.
Qed.

Lemma apply_to_all_spec name
    (primitive : value -> World -> result bool * World)
    success failed summary error target_windows o :
  exists b added,
    (apply_to_all (World := recorded World) (record name primitive)
       success failed summary error target_windows o).1 = Ok b
    /\ journal (os (apply_to_all (World := recorded World) (record name primitive)
                      success failed summary error target_windows o).2)
       = journal (os o) ++ added
    /\ applied_to name target_windows added
    /\ (b = true
        <-> Forall (fun c => is_ok (call_outcome c) = true) added
            /\ Exists succeeded added)
    /\ (Forall (fun c => is_ok (call_outcome c) = true) added ->
        length added = length target_windows).
Proof.
  unfold apply_to_all, try_except, bind.
  match goal with
  | |- context [count_successes ?body target_windows o] =>
      destruct (count_successes body target_windows o) as [r o1] eqn:Hrun
  end.
  destruct (count_successes_applied name primitive success failed
              target_windows o r o1 Hrun) as (added & Hj & Happ & Hres).
  destruct r as [n | e]; cbn [fst snd olog modify ret os log].
  - destruct Hres as (Hlen & Hok & Hn0 & Hn).
    exists (0 <? n), added. split; [reflexivity |]. split; [exact Hj |].
    split; [exact Happ |]. split; [| auto].
    rewrite Z.ltb_lt, Hn. tauto.
  - exists false, added. split; [reflexivity |]. split; [exact Hj |].
    split; [exact Happ |]. split; [| tauto].
    split; [discriminate | tauto].
Qed.

(** X22: [BRING_TO_FOREGROUND], [CLOSE_WINDOW] and [HIDE_WINDOW] give
    their one command to the targets, once each and in the order of the
    targets, until a command raises; no other command is given.  The
    handler never raises; it reports success exactly when no command
    raised and one at least answered true, and when no command raised
    every target has received it. *)
Theorem handlers_apply_their_primitive
    (handler : list pydict -> prog (outside (recorded World)) bool)
    name target_windows o :
  In (handler, name)
     [(_bring_to_foreground, "foreground"); (_close_windows, "close");
      (_hide_windows, "hide")] ->
  exists success added,
    (handler target_windows o).1 = Ok success
    /\ journal (os (handler target_windows o).2) = journal (os o) ++ added
    /\ applied_to name target_windows added
    /\ (success = true
        <-> Forall (fun c => is_ok (call_outcome c) = true) added
            /\ Exists succeeded added)
    /\ (Forall (fun c => is_ok (call_outcome c) = true) added ->
        length added = length target_windows).
Proof.
  intros [Heq | [Heq | [Heq | []]]]; injection Heq as <- <-.
  - apply (apply_to_all_spec "foreground" bring_to_foreground).
  - apply (apply_to_all_spec "close" close_window).
  - apply (apply_to_all_spec "hide" hide_window).
Qed.
End journal.

(** *** The log of the actions *)
Section action_log.
Context {World : Type} `{WindowAccess World} `{PyLib}.
Implicit Types (o : outside World).

Lemma log_adds_preorder (allowed : log_entry -> Prop) :
  PreOrder (@log_adds World allowed).
Proof.
  split.
  - intros o. exists []. rewrite app_nil_r. split; [reflexivity | constructor].
  - intros o1 o2 o3 (l1 & H1 & Ha1) (l2 & H2 & Ha2).
    exists (l1 ++ l2). rewrite H2, H1, app_assoc.
    split; [reflexivity | apply Forall_app; auto].
Qed.

Lemma preserves_olog_allowed (allowed : log_entry -> Prop) lvl msg :
  allowed (lvl, msg) ->
  preserves (log_adds allowed) (olog (World := World) lvl msg).
Proof.
  intros Ha o. exists [(lvl, msg)]. split; [reflexivity |].
  constructor; [exact Ha | constructor].
Qed.

Lemma preserves_os_call_log (allowed : log_entry -> Prop) {A}
    (f : World -> result A * World) :
  preserves (log_adds allowed) (os_call f).
Proof.
  intros o. unfold os_call. destruct (f (os o)) as [r w]. simpl.
  exists []. rewrite app_nil_r. split; [reflexivity | constructor].
Qed.

Lemma preserves_count_successes (R : outside World -> outside World -> Prop)
    `{!PreOrder R} {T} (body : T -> prog (outside World) bool) l :
  (forall x, preserves R (body x)) -> preserves R (count_successes body l).
Proof.
  intros Hb. induction l as [| x l IH]; simpl.
  - apply preserves_ret. assumption.
  - apply preserves_bind; [assumption | apply Hb |]. intros b.
    apply preserves_bind; [assumption | exact IH |]. intros n.
    apply preserves_ret. assumption.
Qed.

(** X23: the action types that [_validate_rule] admits are the ones
    [get_supported_actions] lists, and [perform_action] has a handler
    for each of them: for such a type the warning of an unknown action
    type is never logged. *)
Theorem supported_actions_are_dispatched
    action_type target_windows new_window_info o :
  in_names action_type valid_action_types = true ->
  get_supported_actions = valid_action_types
  /\ log_adds (fun entry =>
                 entry <> (WARNING, "Unknown action type: {action_type}"))
       o (perform_action action_type target_windows new_window_info o).2.
Proof.
  intros Hin. split; [reflexivity |].
  set (allowed := fun entry : log_entry =>
                    entry <> (WARNING, "Unknown action type: {action_type}")).
  pose proof (log_adds_preorder allowed) as Hpre.
  assert (Hlog : forall lvl msg,
             (lvl, msg) <> (WARNING, "Unknown action type: {action_type}") ->
             preserves (log_adds allowed) (olog (World := World) lvl msg)).
  { intros lvl msg Hne. apply preserves_olog_allowed. exact Hne. }
  assert (Hstep : forall hwnd lvl1 msg1 lvl2 msg2
                         (primitive : value -> World -> result bool * World),
             (lvl1, msg1) <> (WARNING, "Unknown action type: {action_type}") ->
             (lvl2, msg2) <> (WARNING, "Unknown action type: {action_type}") ->
             preserves (log_adds allowed)
               (let! ok := os_call (primitive hwnd) in
                if ok then run! olog lvl1 msg1 in ret true
                else run! olog lvl2 msg2 in ret false)).
  { intros hwnd lvl1 msg1 lvl2 msg2 primitive H1 H2.
    apply preserves_bind; [exact Hpre | apply preserves_os_call_log |].
    intros ok. destruct ok;
      (apply preserves_bind; [exact Hpre | apply Hlog; assumption |]);
      intros _; apply preserves_ret; exact Hpre. }
  assert (Hall : forall primitive success failed summary error targets,
             (WARNING, failed) <> (WARNING, "Unknown action type: {action_type}") ->
             preserves (log_adds allowed)
               (apply_to_all (World := World) primitive success failed
                  summary error targets)).
  { intros primitive success failed summary error targets Hs.
    unfold apply_to_all.
    apply preserves_try_except; [exact Hpre | |].
    - apply preserves_bind; [exact Hpre | |].
      + apply preserves_count_successes; [exact Hpre |]. intros window_info.
        apply Hstep; [discriminate | exact Hs].
      + intros n. apply preserves_bind; [exact Hpre | apply Hlog; discriminate |].
        intros _. apply preserves_ret. exact Hpre.
    - intros e. apply preserves_bind; [exact Hpre | apply Hlog; discriminate |].
      intros _. apply preserves_ret. exact Hpre. }
  assert (Hgive : forall lvl msg,
             (lvl, msg) <> (WARNING, "Unknown action type: {action_type}") ->
             preserves (log_adds allowed)
               (run! olog (World := World) lvl msg in ret false)).
  { intros lvl msg Hne.
    apply preserves_bind; [exact Hpre | apply Hlog; exact Hne |].
    intros _. apply preserves_ret. exact Hpre. }
  revert o.
  change (preserves (log_adds allowed)
            (perform_action action_type target_windows new_window_info)).
  apply in_names_true in Hin. simpl in Hin.
  unfold perform_action.
  apply preserves_try_except; [exact Hpre | | intros e; apply Hgive; discriminate].
  apply preserves_bind; [exact Hpre | apply Hlog; discriminate |]. intros _.
  destruct Hin as [<- | [<- | [<- | [<- | [<- | []]]]]]; simpl.
  - unfold _minimize_others_of_same_app.
    apply preserves_try_except; [exact Hpre | | intros e; apply Hgive; discriminate].
    destruct new_window_info as [| entry rest]; [apply Hgive; discriminate |].
    match goal with
    | |- preserves _ (if ?b then _ else _) => destruct b
    end; [apply Hgive; discriminate |].
    apply preserves_bind; [exact Hpre | apply preserves_lift_result; exact Hpre |].
    intros new_exe_name.
    apply preserves_bind; [exact Hpre | |].
    + apply preserves_count_successes; [exact Hpre |]. intros window_info.
      cbv zeta.
      repeat match goal with
             | |- preserves _ (if ?b then _ else _) =>
                 destruct b; try (apply preserves_ret; exact Hpre)
             | |- preserves _ (bind (lift_result _) _) =>
                 apply preserves_bind;
                 [exact Hpre | apply preserves_lift_result; exact Hpre | intros ?]
             end.
      apply Hstep; discriminate.
    + intros n. apply preserves_bind; [exact Hpre | apply Hlog; discriminate |].
      intros _. apply preserves_ret. exact Hpre.
  - unfold _close_duplicate_path.
    apply preserves_try_except; [exact Hpre | | intros e; apply Hgive; discriminate].
    destruct new_window_info as [| entry rest]; [apply Hgive; discriminate |].
    match goal with
    | |- preserves _ (if ?b then _ else _) => destruct b
    end; [apply Hgive; discriminate |].
    apply preserves_bind; [exact Hpre | apply preserves_os_call_log |].
    intros path. destruct path as [[| ch path] |];
      try (apply Hgive; discriminate).
    apply preserves_bind; [exact Hpre | apply Hlog; discriminate |]. intros _.
    apply preserves_bind; [exact Hpre | apply preserves_os_call_log |].
    intros explorer_windows.
    match goal with
    | |- preserves _ (if ?b then _ else _) => destruct b
    end; [apply Hgive; discriminate |].
    apply preserves_bind; [exact Hpre | apply preserves_os_call_log |].
    intros foreground_hwnd.
    apply preserves_bind; [exact Hpre | |].
    + apply preserves_count_successes; [exact Hpre |]. intros win. cbv zeta.
      match goal with
      | |- preserves _ (if ?b then _ else _) => destruct b
      end; [apply preserves_ret; exact Hpre |].
      apply Hstep; discriminate.
    + intros n.
      apply preserves_bind; [exact Hpre | |].
      * apply preserves_try_except; [exact Hpre | | intros e; apply preserves_ret; exact Hpre].
        apply preserves_bind; [exact Hpre | apply preserves_os_call_log |].
        intros b. apply preserves_ret. exact Hpre.
      * intros _. apply preserves_bind; [exact Hpre | apply Hlog; discriminate |].
        intros _. apply preserves_ret. exact Hpre.
  - apply Hall. discriminate.
  - apply Hall. discriminate.
  - apply Hall. discriminate.
Qed.
End action_log.

(** ** More of the event monitor *)

Section monitor_again.
Context {World : Type} `{WindowAccess World}.
Implicit Types (s : sys World) (o : outside World).

(** *** The snapshot *)

Lemma is_system_window_total hwnd : total (is_system_window hwnd).
Proof.
  unfold is_system_window. apply total_try_except. intros e.
  apply total_bind; [| intros; apply total_ret].
  intros o. exists tt. reflexivity.
Qed.

Lemma enum_callback_entries hwnd (windows : gmap Z basic_info) o r o'
    (seen : list Z) :
  (forall h b, windows !! h = Some b ->
               b_hwnd b = h /\ b_title b <> "" /\ In h seen) ->
  enum_callback hwnd windows o = (Ok r, o') ->
  forall h b, r !! h = Some b ->
              b_hwnd b = h /\ b_title b <> "" /\ In h (hwnd :: seen).
Proof.
  intros Hinv Hrun.
  assert (Hold : forall h b, windows !! h = Some b ->
                             b_hwnd b = h /\ b_title b <> ""
                             /\ In h (hwnd :: seen)).
  { intros h b Hb. destruct (Hinv h b Hb) as (? & ? & ?). simpl. auto. }
  unfold enum_callback in Hrun. unfold bind at 1 in Hrun.
  destruct (os_call (IsWindowVisible hwnd) o) as [[visible | e] o1];
    [| discriminate].
  destruct visible; [| injection Hrun as <- _; exact Hold].
  unfold bind at 1 in Hrun.
  destruct (os_call (GetParent hwnd) o1) as [[parent | e] o2]; [| discriminate].
  destruct (parent =? 0); [| injection Hrun as <- _; exact Hold].
  unfold bind at 1 in Hrun.
  destruct (is_system_window hwnd o2) as [[system | e] o3]; [| discriminate].
  destruct system; simpl in Hrun; [injection Hrun as <- _; exact Hold |].
  unfold try_except in Hrun. unfold bind at 1 in Hrun.
  destruct (os_call (GetWindowText hwnd) o3) as [[title | e] o4];
    [| injection Hrun as <- _; exact Hold].
  unfold bind at 1 in Hrun.
  destruct (os_call (GetClassName hwnd) o4) as [[class_name | e] o5];
    [| injection Hrun as <- _; exact Hold].
  destruct (String.eqb_spec title "") as [-> | Hne]; simpl in Hrun;
    injection Hrun as <- _; [exact Hold |].
  intros h b Hb. destruct (decide (hwnd = h)) as [<- | Hneq].
  - rewrite lookup_insert_eq in Hb. injection Hb as <-. simpl. auto.
  - rewrite lookup_insert_ne in Hb by exact Hneq. apply Hold. exact Hb.
Qed.

Lemma enum_all_entries hwnds : forall (windows : gmap Z basic_info) o r o' seen,
  (forall h b, windows !! h = Some b ->
               b_hwnd b = h /\ b_title b <> "" /\ In h seen) ->
  enum_all hwnds windows o = (Ok r, o') ->
  forall h b, r !! h = Some b ->
              b_hwnd b = h /\ b_title b <> "" /\ In h (rev hwnds ++ seen).
Proof.
  induction hwnds as [| hwnd hwnds IH]; intros windows o r o' seen Hinv Hrun.
  - simpl in Hrun. injection Hrun as <- _. exact Hinv.
  - simpl in Hrun. unfold bind at 1 in Hrun.
    destruct (enum_callback hwnd windows o) as [[windows1 | e] o1] eqn:Hcb;
      [| discriminate].
    intros h b Hb.
    destruct (IH windows1 o1 r o' (hwnd :: seen)
                (enum_callback_entries hwnd windows o windows1 o1 seen Hinv Hcb)
                Hrun h b Hb) as (? & ? & Hin).
    split; [assumption |]. split; [assumption |].
    simpl. rewrite <- app_assoc. exact Hin.
Qed.

(** X24: the snapshot of a polling cycle holds titled windows only:
    every entry is filed under its own handle, has a title that is not
    empty, and belongs to a handle that [EnumWindows] listed. *)
Theorem snapshot_entries_have_titles hwnds o (current_windows : gmap Z basic_info) o' :
  enum_all hwnds ∅ o = (Ok current_windows, o') ->
  forall hwnd entry,
    current_windows !! hwnd = Some entry ->
    b_hwnd entry = hwnd /\ b_title entry <> "" /\ In hwnd hwnds.
Proof.
  intros Hrun hwnd entry Hentry.
  destruct (enum_all_entries hwnds ∅ o current_windows o' []
              (fun h b Hb => ltac:(rewrite lookup_empty in Hb; discriminate))
              Hrun hwnd entry Hentry) as (? & ? & Hin).
  split; [assumption |]. split; [assumption |].
  rewrite app_nil_r in Hin. apply in_rev. exact Hin.
Qed.

(** *** The events of a cycle *)

Lemma same_snapshot_no_change (windows : gmap Z basic_info) :
  new_windows windows windows = ∅
  /\ closed_windows windows windows = ∅
  /\ changed_windows windows windows = ∅.
Proof.
  unfold new_windows, closed_windows, changed_windows.
  rewrite difference_diag_L. split; [reflexivity |]. split; [reflexivity |].
  apply set_eq. intros h. rewrite elem_of_filter.
  split; [| intros Hin; apply elem_of_empty in Hin; contradiction].
  intros [Hd _]. unfold title_or_class_differs in Hd.
  destruct (windows !! h) as [b |]; [| discriminate].
  rewrite !String.eqb_refl in Hd. discriminate.
Qed.

(** X25: a cycle in which the desktop is as it was delivers nothing:
    when the enumeration gives the snapshot of the cycle before, the
    callback is not called, no window information is asked for, and the
    loop sleeps for the polling interval. *)
Theorem poll_cycle_without_change
    (cb : Z -> Z -> pydict -> prog (sys World) unit)
    monitor (previous_windows : gmap Z basic_info) s hwnds s1 s2 :
  lift_out (os_call EnumWindows) s = (Ok hwnds, s1) ->
  lift_out (enum_all hwnds ∅) s1 = (Ok previous_windows, s2) ->
  poll_cycle cb monitor previous_windows s
  = (Ok (previous_windows, polling_interval monitor), s2).
Proof.
  intros Henum Hall. unfold poll_cycle, try_except, poll_cycle_body.
  unfold bind at 1. rewrite Henum. unfold bind at 1. rewrite Hall.
  destruct (same_snapshot_no_change previous_windows) as (-> & -> & ->).
  rewrite elements_empty. reflexivity.
Qed.

Lemma created_or_changed_loop event_id (l : list Z) msg :
  (forall h w, exists info w',
      get_window_info h w = (Ok info, w') /\ info <> []) ->
  forall s,
  exists s' added,
    for_each (fun hwnd =>
                run! slog DEBUG msg in
                let! window_info := lift_out (os_call (get_window_info hwnd)) in
                match window_info with
                | [] => ret tt
                | _ => remember_event event_id hwnd window_info
                end) l s = (Ok tt, s')
    /\ evaluated s' = evaluated s ++ added
    /\ map remembered added = map (fun h => Some (event_id, h)) l
    /\ engine s' = engine s.
Proof.
  intros Hinfo. induction l as [| hwnd l IH]; intros s.
  - exists s, []. rewrite app_nil_r. repeat split.
  - simpl. unfold bind at 1. unfold bind at 1. simpl.
    unfold bind at 1. unfold lift_out at 1, os_call at 1. simpl.
    destruct (Hinfo hwnd (os (out s))) as (info & w' & Hget & Hne).
    rewrite Hget. simpl. destruct info as [| entry info]; [congruence |].
    unfold remember_event at 1, modify at 1. simpl.
    match goal with
    | |- context [for_each _ l ?s1] => destruct (IH s1) as (s' & added & Hrun & Hev & Hmap & Heng)
    end.
    rewrite Hrun. simpl in Hev, Heng.
    eexists s', (_ :: added). split; [reflexivity |].
    split; [rewrite Hev, <- app_assoc; reflexivity |].
    split; [simpl; rewrite Hmap; reflexivity | exact Heng].
Qed.

Lemma closed_loop (previous_windows : gmap Z basic_info) (l : list Z) :
  (forall h, In h l -> is_Some (previous_windows !! h)) ->
  forall s,
  exists s' added,
    for_each (fun hwnd =>
                run! slog DEBUG "Detected closed window (HWND: {hwnd})" in
                match previous_windows !! hwnd with
                | Some previous =>
                    remember_event EVENT_OBJECT_DESTROY hwnd
                      (closed_window_info hwnd previous)
                | None => raise KeyError
                end) l s = (Ok tt, s')
    /\ evaluated s' = evaluated s ++ added
    /\ map remembered added = map (fun h => Some (EVENT_OBJECT_DESTROY, h)) l
    /\ engine s' = engine s.
Proof.
  induction l as [| hwnd l IH]; intros Hin s.
  - exists s, []. rewrite app_nil_r. repeat split.
  - simpl. unfold bind at 1. unfold bind at 1. simpl.
    destruct (Hin hwnd (or_introl eq_refl)) as [previous Hp]. rewrite Hp.
    unfold remember_event at 1, modify at 1. simpl.
    match goal with
    | |- context [for_each _ l ?s1] =>
        destruct (IH (fun h Hh => Hin h (or_intror Hh)) s1)
          as (s' & added & Hrun & Hev & Hmap & Heng)
    end.
    rewrite Hrun. simpl in Hev, Heng.
    eexists s', (_ :: added). split; [reflexivity |].
    split; [rewrite Hev, <- app_assoc; reflexivity |].
    split; [simpl; rewrite Hmap; reflexivity | exact Heng].
Qed.

(** X26: what a cycle reports.  When the window information of a handle
    can be had, a polling cycle calls its callback once for every new
    window with a creation, then once for every closed window with a
    destruction, then once for every window whose title or class changed
    with a name change, and for nothing else; it returns the snapshot it
    took and the polling interval. *)
Theorem poll_cycle_reports_each_change
    monitor (previous_windows : gmap Z basic_info) s hwnds s1
    (current_windows : gmap Z basic_info) s2 :
  lift_out (os_call EnumWindows) s = (Ok hwnds, s1) ->
  lift_out (enum_all hwnds ∅) s1 = (Ok current_windows, s2) ->
  (forall h w, exists info w',
      get_window_info h w = (Ok info, w') /\ info <> []) ->
  exists s3 added,
    poll_cycle remember_event monitor previous_windows s
    = (Ok (current_windows, polling_interval monitor), s3)
    /\ evaluated s3 = evaluated s ++ added
    /\ map remembered added
       = map (fun h => Some (EVENT_OBJECT_CREATE, h))
             (elements (new_windows current_windows previous_windows))
         ++ map (fun h => Some (EVENT_OBJECT_DESTROY, h))
                (elements (closed_windows current_windows previous_windows))
         ++ map (fun h => Some (EVENT_OBJECT_NAMECHANGE, h))
                (elements (changed_windows current_windows previous_windows))
    /\ engine s3 = engine s.
Proof.
  intros Henum Hall Hinfo.
  assert (H12 : evaluated s2 = evaluated s /\ engine s2 = engine s).
  { unfold lift_out in Henum, Hall.
    destruct (os_call EnumWindows (out s)) as [r1 o1].
    injection Henum as _ <-.
    destruct (enum_all hwnds ∅ (out _)) as [r2 o2].
    injection Hall as _ <-. split; reflexivity. }
  destruct H12 as [Hev2 Heng2].
  unfold poll_cycle, try_except, poll_cycle_body.
  unfold bind at 1. rewrite Henum. unfold bind at 1. rewrite Hall.
  destruct (created_or_changed_loop EVENT_OBJECT_CREATE
              (elements (new_windows current_windows previous_windows))
              "Detected new window: {title} (HWND: {hwnd})" Hinfo s2)
    as (s3 & added1 & Hrun1 & Hev3 & Hmap1 & Heng3).
  unfold bind at 1. rewrite Hrun1.
  assert (Hclosed : forall h,
             In h (elements (closed_windows current_windows previous_windows)) ->
             is_Some (previous_windows !! h)).
  { intros h Hin. apply list_elem_of_In, elem_of_elements in Hin.
    unfold closed_windows in Hin. apply elem_of_difference in Hin as [Hin _].
    apply elem_of_dom in Hin. exact Hin. }
  destruct (closed_loop previous_windows _ Hclosed s3)
    as (s4 & added2 & Hrun2 & Hev4 & Hmap2 & Heng4).
  unfold bind at 1. rewrite Hrun2.
  destruct (created_or_changed_loop EVENT_OBJECT_NAMECHANGE
              (elements (changed_windows current_windows previous_windows))
              "Detected changed window: {title} (HWND: {hwnd})" Hinfo s4)
    as (s5 & added3 & Hrun3 & Hev5 & Hmap3 & Heng5).
  unfold bind at 1. rewrite Hrun3.
  exists s5, (added1 ++ added2 ++ added3). split; [reflexivity |].
  split; [rewrite Hev5, Hev4, Hev3, Hev2, <- !app_assoc; reflexivity |].
  split; [rewrite !map_app, Hmap1, Hmap2, Hmap3; reflexivity |].
  congruence.
Qed.

(** *** The hook *)

(** X27: the hook for pushed events never raises, whatever the callback
    does; it drops the event of the null handle without asking anything,
    and the event of a system window (a class of the list, no title, or a
    window that cannot be asked) without calling the callback; every
    other event goes to the callback once, with the window information
    of the handle. *)
Theorem event_hook_callback_filters
    (cb : Z -> Z -> pydict -> prog (sys World) unit) event hwnd s :
  (exists s', _event_hook_callback cb event hwnd s = (Ok tt, s'))
  /\ (hwnd = 0 -> _event_hook_callback cb event hwnd s = (Ok tt, s))
  /\ (forall o', hwnd <> 0 ->
        is_system_window hwnd (out s) = (Ok true, o') ->
        _event_hook_callback cb event hwnd s = (Ok tt, with_out s o'))
  /\ (forall o1 window_info w,
        hwnd <> 0 ->
        is_system_window hwnd (out s) = (Ok false, o1) ->
        get_window_info hwnd (os o1) = (Ok window_info, w) ->
        _event_hook_callback cb event hwnd s
        = try_except
            (cb event hwnd window_info)
            (fun _ => slog ERROR "Error in event hook callback: {e}")
            (with_out s
               (add_log DEBUG "Event: {event_name} - Window: {title} (HWND: {hwnd}, Class: {class_name})"
                  {| os := w; log := log o1 |}))).
Proof.
  split; [| split; [| split]].
  - assert (Ht : total (_event_hook_callback cb event hwnd)).
    { unfold _event_hook_callback. apply total_try_except.
      intros e. apply total_slog. }
    destruct (Ht s) as [[] Hs].
    destruct (_event_hook_callback cb event hwnd s) as [r s'].
    simpl in Hs. subst r. eauto.
  - intros ->. unfold _event_hook_callback, try_except, bind. simpl.
    destruct s as [e o ev]. reflexivity.
  - intros o' Hne Hsys. unfold _event_hook_callback, try_except.
    unfold bind at 1. apply Z.eqb_neq in Hne. rewrite Hne.
    unfold lift_out at 1. rewrite Hsys. reflexivity.
  - intros o1 window_info w Hne Hsys Hget. unfold _event_hook_callback.
    unfold try_except at 1. unfold bind at 1. apply Z.eqb_neq in Hne.
    rewrite Hne. unfold lift_out at 1. rewrite Hsys.
    unfold bind at 1. unfold lift_out at 1, os_call at 1. simpl.
    rewrite Hget. unfold bind at 1. simpl. reflexivity.
Qed.
End monitor_again.

(** ** The helpers *)

Lemma returns_ret {S A} (post : A -> Prop) (a : A) :
  post a -> returns (S := S) post (ret a).
Proof. intros Hp s a' s' Hr. injection Hr as <- _. exact Hp. Qed.

Lemma returns_bind {S A B} (post : B -> Prop) (m : prog S A) (f : A -> prog S B) :
  (forall a, returns post (f a)) -> returns post (bind m f).
Proof.
  intros Hf s b s' Hr. unfold bind in Hr.
  destruct (m s) as [[a | e] s1]; [| discriminate].
  exact (Hf a s1 b s' Hr).
Qed.

Lemma returns_try_except {S A} (post : A -> Prop) (body : prog S A) handler :
  returns post body -> (forall e, returns post (handler e)) ->
  returns post (try_except body handler).
Proof.
  intros Hb Hh s a s' Hr. unfold try_except in Hr.
  destruct (body s) as [[a0 | e] s1] eqn:Hbody.
  - injection Hr as <- <-. exact (Hb s a0 s1 Hbody).
  - exact (Hh e s1 a s' Hr).
Qed.

Section helpers.
Context {World : Type} `{WindowAccess World} `{ProcessAccess World}
        `{Clock World}.
Implicit Types (s : ExpensiveOperationCache * outside World).

Lemma logger_total lvl msg : total (win32_helpers.logger (World := World) lvl msg).
Proof. intros s. exists tt. reflexivity. Qed.

Lemma no_window_info_of hwnd :
  window_info_of hwnd (win32_helpers.no_window_info hwnd).
Proof. exists "", "", None, None, false, false, SW_SHOWNORMAL. reflexivity. Qed.

Lemma get_window_info_body_total hwnd :
  total (win32_helpers.get_window_info_body hwnd).
Proof.
  unfold win32_helpers.get_window_info_body. apply total_try_except.
  intros e. apply total_bind; [apply logger_total | intros; apply total_ret].
Qed.

Lemma get_window_info_body_returns hwnd :
  returns (window_info_of hwnd) (win32_helpers.get_window_info_body hwnd).
Proof.
  unfold win32_helpers.get_window_info_body. apply returns_try_except.
  - apply returns_bind. intros title.
    apply returns_bind. intros class_name.
    apply returns_bind. intros pid.
    apply returns_bind. intros exe_path.
    apply returns_bind. intros is_visible.
    apply returns_bind. intros parent.
    apply returns_bind. intros window_state.
    apply returns_ret.
    exists title, class_name, pid, exe_path, is_visible, (parent =? 0),
           window_state.
    reflexivity.
  - intros e. apply returns_bind. intros _. apply returns_ret.
    apply no_window_info_of.
Qed.

(** X28: [get_window_info], before the cache: the function never raises;
    it returns a dictionary with the eight keys, in their order, for the
    handle it was asked about, with the values it read; and
    when the title cannot be read it returns the dictionary of a window
    without title, which is no more empty than the others. *)
Theorem get_window_info_body_spec hwnd s :
  exists info s',
    win32_helpers.get_window_info_body hwnd s = (Ok info, s')
    /\ window_info_of hwnd info
    /\ dkeys info = ["hwnd"; "title"; "class_name"; "pid"; "exe_path";
                     "is_visible"; "is_top_level"; "window_state"]
    /\ dget "hwnd" info = Some (VInt hwnd)
    /\ info <> []
    /\ (forall e w, GetWindowText hwnd (os s.2) = (Raise e, w) ->
                    info = win32_helpers.no_window_info hwnd
                    /\ truthy (dget_default "title" VNone info) = false).
Proof.
  destruct (get_window_info_body_total hwnd s) as [info Hinfo].
  destruct (win32_helpers.get_window_info_body hwnd s) as [r s'] eqn:Hrun.
  simpl in Hinfo. subst r.
  pose proof (get_window_info_body_returns hwnd s info s' Hrun) as Hof.
  assert (Hfail : forall e w,
             GetWindowText hwnd (os s.2) = (Raise e, w) ->
             info = win32_helpers.no_window_info hwnd).
  { intros e w Hraise.
    unfold win32_helpers.get_window_info_body, try_except in Hrun.
    unfold bind at 1 in Hrun. unfold win32_helpers.call at 1 in Hrun.
    rewrite Hraise in Hrun. unfold bind in Hrun.
    cbn [win32_helpers.logger modify ret] in Hrun.
    injection Hrun as <- _. reflexivity. }
  exists info, s'. split; [reflexivity |]. split; [exact Hof |].
  split; [| split; [| split; [| intros e w Hraise;
                                rewrite (Hfail e w Hraise); split; reflexivity]]];
    destruct Hof as (t & c & p & x & v & tl & ws & ->);
    [reflexivity | reflexivity | discriminate].
Qed.

(** *** The cache in front of [get_window_info] *)

Lemma moved_to_end_ok {V} (c : LRUCache V) key value :
  LRUCache_ok c -> dget key (cache c) = Some value ->
  LRUCache_ok (with_entries c (ddel key (cache c) ++ [(key, value)])
                            (timestamps c)).
Proof.
  intros (Hc & Hts & Hk) Hg. unfold LRUCache_ok. simpl.
  split; [apply nodup_snoc; [apply nodup_ddel; exact Hc | apply dget_ddel_eq] |].
  split; [exact Hts |].
  intros k. rewrite dmem_snoc, <- Hk.
  destruct (decide (k = key)) as [-> | Hne]; [| reflexivity].
  symmetry. apply dmem_true. eauto.
Qed.

Lemma set_result_lookup {V} (c : LRUCache V) key value now k v :
  dget k (cache (let c1 := with_last key value now c in
                 if max_size c <? LRUCache_size c1
                 then match dkeys (cache c1) with
                      | oldest_key :: _ => without oldest_key c1
                      | [] => c1
                      end
                 else c1)) = Some v ->
  (k = key /\ v = value) \/ dget k (cache c) = Some v.
Proof.
  cbv zeta.
  assert (Hlast : dget k (cache (with_last key value now c)) = Some v ->
               (k = key /\ v = value) \/ dget k (cache c) = Some v).
  { simpl. destruct (decide (key = k)) as [-> | Hne].
    - rewrite dget_snoc. intros Hv. injection Hv as <-. auto.
    - rewrite dget_snoc_ne by exact Hne. auto. }
  destruct (max_size c <? _); [| exact Hlast].
  destruct (dkeys _) as [| oldest rest]; [exact Hlast |].
  intros Hg. apply Hlast. simpl in Hg |- *.
  destruct (decide (oldest = k)) as [-> | Hne].
  - rewrite dget_ddel_eq in Hg. discriminate.
  - rewrite dget_ddel_ne in Hg by exact Hne. exact Hg.
Qed.

Lemma window_key_inj (h1 h2 : Z) :
  "window_" +:+ pretty h1 = "window_" +:+ pretty h2 -> h1 = h2.
Proof.
  intros Heq. simpl in Heq. injection Heq as Heq.
  apply (inj pretty). exact Heq.
Qed.

(** The function under the decorator leaves the cache of window
    information alone. *)
Lemma get_executable_path_from_pid_frame pid s :
  window_info_cache (win32_helpers.get_executable_path_from_pid pid s).2.1
  = window_info_cache s.1.
Proof.
  unfold win32_helpers.get_executable_path_from_pid, cached_executable_path,
    cached.
  unfold bind at 1. unfold cache_get_executable_path at 1, on_exe_path_cache at 1.
  destruct (LRUCache_get _ _) as [[[found |] | e] s1]; cbn [fst snd]; try reflexivity.
  unfold bind at 1.
  match goal with
  | |- context [win32_helpers.get_executable_path_from_pid_body pid ?s0] =>
      assert (Hbody : window_info_cache
                        (win32_helpers.get_executable_path_from_pid_body pid s0).2.1
                      = window_info_cache s0.1);
      [| destruct (win32_helpers.get_executable_path_from_pid_body pid s0)
           as [[result | e] s2] ]
  end.
  { unfold win32_helpers.get_executable_path_from_pid_body.
    destruct (psutil_exe pid _) as [[exe | | e] w]; try reflexivity.
    unfold try_except, bind, win32_helpers.call. cbn [fst snd os].
    destruct (GetModuleFileNameEx pid w) as [[exe | e] w']; reflexivity. }
  - cbn [fst snd] in *. unfold bind at 1.
    destruct (true_string result) as [path |].
    + unfold cache_set_executable_path, on_exe_path_cache.
      destruct (LRUCache_set _ _ _) as [[[] | e] s3]; cbn [fst snd]; exact Hbody.
    + exact Hbody.
  - exact Hbody.
Qed.

Lemma get_window_info_body_frame hwnd s :
  window_info_cache (win32_helpers.get_window_info_body hwnd s).2.1
  = window_info_cache s.1.
Proof.
  pose (R := fun s s' : ExpensiveOperationCache * outside World =>
               window_info_cache s'.1 = window_info_cache s.1).
  assert (Hpre : PreOrder R).
  { split; [intros x; reflexivity |].
    intros x y z Hxy Hyz. unfold R in *. congruence. }
  assert (Hcall : forall A (f : World -> result A * World),
             preserves R (win32_helpers.call f)).
  { intros A f s0. unfold win32_helpers.call.
    destruct (f (os s0.2)) as [r w]. reflexivity. }
  assert (Hlog : forall lvl msg, preserves R (win32_helpers.logger lvl msg)).
  { intros lvl msg s0. reflexivity. }
  change (R s (win32_helpers.get_window_info_body hwnd s).2).
  revert s. change (preserves R (win32_helpers.get_window_info_body hwnd)).
  unfold win32_helpers.get_window_info_body.
  apply preserves_try_except; [exact Hpre | |].
  2: { intros e. apply preserves_bind; [exact Hpre | apply Hlog |].
       intros _. apply preserves_ret. exact Hpre. }
  apply preserves_bind; [exact Hpre | apply Hcall |]. intros title.
  apply preserves_bind; [exact Hpre | apply Hcall |]. intros class_name.
  apply preserves_bind; [exact Hpre | |].
  { apply preserves_try_except; [exact Hpre | |].
    - apply preserves_bind; [exact Hpre | apply Hcall |].
      intros p. apply preserves_ret. exact Hpre.
    - intros e. apply preserves_bind; [exact Hpre | apply Hlog |].
      intros _. apply preserves_ret. exact Hpre. }
  intros pid.
  apply preserves_bind; [exact Hpre | |].
  { destruct pid as [p |]; [| apply preserves_ret; exact Hpre].
    destruct (p =? 0); [apply preserves_ret; exact Hpre |].
    intros s0. apply get_executable_path_from_pid_frame. }
  intros exe_path.
  apply preserves_bind; [exact Hpre | apply Hcall |]. intros is_visible.
  apply preserves_bind; [exact Hpre | apply Hcall |]. intros parent.
  apply preserves_bind; [exact Hpre | |].
  { apply preserves_try_except; [exact Hpre | apply Hcall |].
    intros e. apply preserves_bind; [exact Hpre | apply Hlog |].
    intros _. apply preserves_ret. exact Hpre. }
  intros window_state. apply preserves_ret. exact Hpre.
Qed.

(** X29: [get_window_info] behind its cache.  From a cache that is
    sound (well formed, and holding under the key of a handle window
    information of that handle) the decorated function never raises and
    returns window information of the handle it was asked about, from the
    cache or from the desktop; and it leaves the cache sound: no call
    is answered with the information of another window. *)
Theorem get_window_info_sound hwnd gc o :
  window_cache_sound gc ->
  exists info gc' o',
    win32_helpers.get_window_info hwnd (gc, o) = (Ok info, (gc', o'))
    /\ window_info_of hwnd info
    /\ window_cache_sound gc'.
Proof.
  intros [Hok Hsound].
  set (key := "window_" +:+ pretty hwnd).
  set (c := window_info_cache gc) in *.
  unfold win32_helpers.get_window_info, cached_window_info.
  destruct (time_time (os o)) as [now w] eqn:Ht.
  pose proof (LRUCache_get_spec key c o now w Hok Ht) as Hget.
  (* after a miss: the function, then the store *)
  assert (Hmiss : forall c1 o1,
             LRUCache_ok c1 ->
             (forall h info, dget ("window_" +:+ pretty h) (cache c1) = Some info ->
                             window_info_of h info) ->
             cache_get_window_info hwnd (gc, o)
             = (Ok None, ({| exe_path_cache := exe_path_cache gc;
                             folder_path_cache := folder_path_cache gc;
                             window_info_cache := c1 |}, o1)) ->
             exists info gc' o',
               cached cache_get_window_info cache_set_window_info id true_dict
                 win32_helpers.get_window_info_body hwnd (gc, o)
               = (Ok info, (gc', o'))
               /\ window_info_of hwnd info /\ window_cache_sound gc').
  { intros c1 o1 Hok1 Hsound1 Hlookup.
    set (s1 := ({| exe_path_cache := exe_path_cache gc;
                   folder_path_cache := folder_path_cache gc;
                   window_info_cache := c1 |}, o1)) in *.
    destruct (get_window_info_body_total hwnd s1) as [info Hinfo].
    destruct (win32_helpers.get_window_info_body hwnd s1) as [r s2] eqn:Hbody.
    simpl in Hinfo. subst r.
    pose proof (get_window_info_body_returns hwnd s1 info s2 Hbody) as Hof.
    assert (Hne : info <> [])
      by (destruct Hof as (? & ? & ? & ? & ? & ? & ? & ->); discriminate).
    pose proof (get_window_info_body_frame hwnd s1) as Hframe.
    rewrite Hbody in Hframe. cbn [fst snd window_info_cache] in Hframe.
    unfold s1 in Hframe. cbn [fst snd window_info_cache] in Hframe.
    rewrite (cached_miss _ _ _ _ _ _ _ _ _ _ Hlookup Hbody).
    assert (Hstore : true_dict info = Some info)
      by (destruct info; [congruence | reflexivity]).
    rewrite Hstore.
    unfold bind at 1, cache_set_window_info, on_window_info_cache.
    destruct s2 as [gc2 o2]. cbn [fst snd] in *. rewrite Hframe. fold key.
    destruct (time_time (os o2)) as [stored w2] eqn:Ht2.
    rewrite (LRUCache_set_spec key info c1 o2 stored w2 Hok1 Ht2).
    cbn [fst snd ret].
    eexists info, _, _. split; [reflexivity |]. split; [exact Hof |].
    split; cbn [window_info_cache].
    - apply set_result_ok. exact Hok1.
    - intros h info' Hg.
      apply set_result_lookup in Hg as [[Hk ->] | Hold].
      + apply window_key_inj in Hk. subst h. exact Hof.
      + apply Hsound1. exact Hold. }
  destruct (dget key (cache c)) as [value |] eqn:Hg.
  - destruct (dget key (timestamps c)) as [timestamp |] eqn:Hgt.
    + destruct (expired c now timestamp) eqn:Hexp.
      * (* expired: deleted, then as a miss *)
        apply (Hmiss (without key c) (with_os o w)).
        -- apply without_ok. exact Hok.
        -- intros h info Hin. apply (Hsound h).
           simpl in Hin.
           destruct (decide (key = "window_" +:+ pretty h)) as [Heq | Hne].
           ++ rewrite <- Heq, dget_ddel_eq in Hin. discriminate.
           ++ rewrite dget_ddel_ne in Hin by exact Hne. exact Hin.
        -- unfold cache_get_window_info, on_window_info_cache.
           cbn [fst snd]. fold key. fold c. rewrite Hget. reflexivity.
      * (* served from the cache *)
        assert (Hhit : cache_get_window_info hwnd (gc, o)
                       = (Ok (Some value),
                          ({| exe_path_cache := exe_path_cache gc;
                              folder_path_cache := folder_path_cache gc;
                              window_info_cache :=
                                with_entries c (ddel key (cache c) ++ [(key, value)])
                                             (timestamps c) |},
                           with_os o w))).
        { unfold cache_get_window_info, on_window_info_cache.
          cbn [fst snd]. fold key. fold c. rewrite Hget. reflexivity. }
        rewrite (cached_hit _ _ _ _ _ _ _ _ _ Hhit).
        eexists value, _, _. split; [reflexivity |].
        split; [apply Hsound; exact Hg |].
        split; cbn [window_info_cache].
        -- apply moved_to_end_ok; assumption.
        -- intros h info Hin. simpl in Hin.
           destruct (decide (key = "window_" +:+ pretty h)) as [Heq | Hne].
           ++ rewrite <- Heq, dget_snoc in Hin. injection Hin as <-.
              apply window_key_inj in Heq. subst h. apply Hsound. exact Hg.
           ++ rewrite dget_snoc_ne in Hin by exact Hne. apply Hsound. exact Hin.
    + apply (Hmiss c o); [exact Hok | exact Hsound |].
      unfold cache_get_window_info, on_window_info_cache.
      cbn [fst snd]. fold key. fold c. rewrite Hget.
      destruct gc; reflexivity.
  - apply (Hmiss c o); [exact Hok | exact Hsound |].
    unfold cache_get_window_info, on_window_info_cache.
    cbn [fst snd]. fold key. fold c. rewrite Hget.
    destruct (dget key (timestamps c)); destruct gc; reflexivity.
Qed.

(** *** The enumeration *)

Lemma enum_windows_callback_spec hwnd windows s :
  exists windows' s',
    win32_helpers.enum_windows_callback hwnd windows s = (Ok windows', s')
    /\ s'.1 = s.1
    /\ (windows' = windows \/ windows' = windows ++ [hwnd]).
Proof.
  unfold win32_helpers.enum_windows_callback, try_except.
  unfold bind at 1, win32_helpers.call at 1.
  destruct (IsWindowVisible hwnd (os s.2)) as [[visible | e] w1];
    [| eexists _, _; split; [reflexivity | split; [reflexivity | auto]]].
  destruct visible;
    [| eexists _, _; split; [reflexivity | split; [reflexivity | auto]]].
  unfold bind at 1, win32_helpers.call at 1. cbn [fst snd os].
  destruct (GetParent hwnd w1) as [[parent | e] w2];
    [| eexists _, _; split; [reflexivity | split; [reflexivity | auto]]].
  destruct (parent =? 0);
    [| eexists _, _; split; [reflexivity | split; [reflexivity | auto]]].
  unfold bind at 1, win32_helpers.call at 1. cbn [fst snd os].
  destruct (GetWindowText hwnd w2) as [[title | e] w3];
    [| eexists _, _; split; [reflexivity | split; [reflexivity | auto]]].
  destruct (String.eqb title "");
    eexists _, _; (split; [reflexivity | split; [reflexivity | auto]]).
Qed.

Lemma enum_each_spec hwnds : forall windows s,
  exists found s',
    win32_helpers.enum_each hwnds windows s = (Ok (windows ++ found), s')
    /\ s'.1 = s.1
    /\ sublist found hwnds.
Proof.
  induction hwnds as [| hwnd hwnds IH]; intros windows s; simpl.
  - exists [], s. rewrite app_nil_r. split; [reflexivity |].
    split; [reflexivity | constructor].
  - unfold bind.
    destruct (enum_windows_callback_spec hwnd windows s)
      as (windows' & s1 & -> & Hc1 & Hw).
    destruct (IH windows' s1) as (found & s2 & -> & Hc2 & Hsub).
    destruct Hw as [-> | ->].
    + exists found, s2. split; [reflexivity |]. split; [congruence |].
      apply sublist_cons. exact Hsub.
    + exists (hwnd :: found), s2. rewrite <- app_assoc.
      split; [reflexivity |]. split; [congruence |].
      apply sublist_skip. exact Hsub.
Qed.

(** X30: [enum_top_level_windows] never raises and never invents a
    window: the handles it yields are handles [EnumWindows] listed, in the
    order of that list and each at most as often; when [EnumWindows]
    raises, the error is logged and the function still returns; and the
    cache is not touched. *)
Theorem enum_top_level_windows_yields_listed_handles s :
  exists windows s',
    win32_helpers.enum_top_level_windows s = (Ok windows, s')
    /\ s'.1 = s.1
    /\ match EnumWindows (os s.2) with
       | (Ok hwnds, _) => sublist windows hwnds
       | (Raise e, _) =>
           last (log s'.2) = Some (ERROR, "Error enumerating windows: {e}")
       end.
Proof.
  unfold win32_helpers.enum_top_level_windows, try_except.
  unfold bind at 1, win32_helpers.call at 1.
  destruct (EnumWindows (os s.2)) as [[hwnds | e] w].
  - match goal with
    | |- context [win32_helpers.enum_each hwnds [] ?s0] =>
        destruct (enum_each_spec hwnds [] s0) as (found & s' & -> & Hc & Hsub)
    end.
    exists found, s'. split; [reflexivity |]. split; [exact Hc | exact Hsub].
  - eexists [], _. split; [reflexivity |]. split; [reflexivity |].
    cbn [fst snd log]. apply last_snoc.
Qed.
End helpers.

(** ** The theorems on the small desktop *)

Import Demo.

(** Scenario A of the specification: the creation of the Notepad window
    with the rule that raises Notepad causes one call of
    [bring_to_foreground], on handle 1. *)
Example scenario_raise_notepad :
  os (out (with_new_dict process_event EVENT_OBJECT_CREATE 1 Demo.notepad
             (Demo.start [Demo.rule_raise_notepad] [])).2)
  = [("foreground", VInt 1)].
Proof. vm_compute. reflexivity. Qed.

(** Scenario C: 0.01 becomes 0.1 and 120 becomes 60.0; 2.5 stays. *)
Example scenario_clamp :
  clamp_interval Demo.float_0_01 = float_0_1
  /\ clamp_interval Demo.float_120 = float_60
  /\ clamp_interval Demo.float_2_5 = Demo.float_2_5.
Proof. repeat split. Qed.

(** After [set_polling_interval(0.01)] a cycle of the polling loop with
    the engine as callback completes and sleeps for 0.1 seconds. *)
Example scenario_next_sleep :
  let monitor := (set_polling_interval Demo.float_0_01
                    (EventMonitor_init, [])).2.1 in
  (poll_cycle (with_new_dict process_event) monitor Demo.previous_snapshot
     (Demo.start Demo.rules [])).1
  = Ok (Demo.current_snapshot, float_0_1).
Proof. vm_compute. reflexivity. Qed.

(** What the polling loop hands to its callback between the two snapshots
    of the small desktop: the creation of window 2 with its full
    information, the destruction of window 5 with the minimal information
    made from the previous snapshot, the change of window 1. *)
Example scenario_polled_events :
  evaluated (poll_cycle Demo.record_event EventMonitor_init
               Demo.previous_snapshot (Demo.start [] [])).2
  = [VList [VInt EVENT_OBJECT_CREATE; VInt 2; VDict Demo.browser];
     VList [VInt EVENT_OBJECT_DESTROY; VInt 5;
            VDict [("hwnd", VInt 5); ("title", VStr "Old");
                   ("class_name", VStr "Notepad"); ("pid", VNone);
                   ("exe_path", VNone); ("is_visible", VBool false);
                   ("is_top_level", VBool false); ("window_state", VInt 1)]];
     VList [VInt EVENT_OBJECT_NAMECHANGE; VInt 1; VDict Demo.notepad]].
Proof. vm_compute. reflexivity. Qed.

(** Scenario D: the rule with the unknown action type is not counted, the
    event is. *)
Example scenario_unknown_action :
  let s := (with_new_dict process_event EVENT_OBJECT_CREATE 1 Demo.notepad
              (Demo.start Demo.rules [])).2 in
  rule_execution_counts (get_statistics s) = [(HStr "Raise Notepad", 1)]
  /\ total_events_processed (get_statistics s) = 1
  /\ In (WARNING, "Unknown action type: {action_type}") (log (out s)).
Proof. vm_compute. repeat split. auto 10. Qed.

(** Two handles with one dictionary: a name change of handle 1 shows
    under handle 2 as well, and not under handle 3. *)
Example scenario_shared_dictionary :
  let s := (process_event EVENT_OBJECT_NAMECHANGE 1 2%nat Demo.shared).2 in
  dget_default "title" VNone <$> dget 1 (get_window_state s)
  = Some (VStr "Renamed")
  /\ dget_default "title" VNone <$> dget 2 (get_window_state s)
     = Some (VStr "Renamed")
  /\ dget 3 (get_window_state s) = Some Demo.mail.
Proof. vm_compute. repeat split. Qed.

(** C2 as the specification states it does not hold.  Two rules that
    [_validate_rule] accepts, both enabled; the second would match the
    event.  The first has a list as its name: its trigger matches and its
    action is carried out, then counting it raises, in the body of the
    loop, where nothing catches; the handler around the whole of
    [process_event] logs the error, and the second rule is never handed
    to the matcher. *)
Example a_failing_rule_ends_the_loop :
  let rules := [Demo.rule_list_name; Demo.rule_raise_notepad] in
  let r := with_new_dict process_event EVENT_OBJECT_CREATE 1 Demo.notepad
             (Demo.start rules []) in
  ((_validate_rule Demo.rule_list_name 0 []).1 = Ok true
   /\ (_validate_rule Demo.rule_raise_notepad 1 []).1 = Ok true)
  /\ get_enabled_rules rules = Ok rules
  /\ sort_rules_by_priority rules = Ok rules
  /\ match_condition Demo.rule_raise_notepad "CREATE" Demo.notepad = Ok true
  /\ r.1 = Ok tt
  /\ evaluated r.2 = [Demo.rule_list_name]
  /\ os (out r.2) = [("foreground", VInt 1)]
  /\ last (log (out r.2)) = Some (ERROR, "Error processing event: {e}").
Proof. vm_compute. repeat split. Qed.

(** C8 as the specification states it does not hold for every value: a
    request that is not a number is answered with [True] and stored as it
    is; the stored value is neither at least 0.1 nor at most 60.0, and it
    is what the loop then sleeps for. *)
Example set_polling_interval_stores_nan :
  let r := set_polling_interval S754_nan (EventMonitor_init, []) in
  r.1 = Ok true
  /\ polling_interval r.2.1 = S754_nan
  /\ SFleb float_0_1 (polling_interval r.2.1) = false
  /\ SFleb (polling_interval r.2.1) float_60 = false
  /\ (poll_cycle Demo.record_event r.2.1 Demo.current_snapshot
        (Demo.start [] [])).1
     = Ok (Demo.current_snapshot, S754_nan).
Proof. vm_compute. repeat split. Qed.

Lemma differencer_partition_witness :
  new_windows Demo.current_snapshot Demo.previous_snapshot
  ## closed_windows Demo.current_snapshot Demo.previous_snapshot
  /\ elements (new_windows Demo.current_snapshot Demo.previous_snapshot) = [2]
  /\ elements (closed_windows Demo.current_snapshot Demo.previous_snapshot) = [5]
  /\ elements (changed_windows Demo.current_snapshot Demo.previous_snapshot) = [1]
  /\ elements (unchanged_windows Demo.current_snapshot Demo.previous_snapshot) = [3].
Proof.
  split.
  - exact (proj1 (proj2 (proj2 (proj2
             (differencer_partition Demo.current_snapshot
                Demo.previous_snapshot))))).
  - vm_compute. repeat split.
Defined.

Lemma process_event_evaluates_every_enabled_rule_witness :
  get_enabled_rules Demo.rules = Ok Demo.enabled
  /\ Forall (fun r => rule_well_typed r = true) Demo.enabled
  /\ exists sorted,
       sort_rules_by_priority Demo.enabled = Ok sorted
       /\ Permutation Demo.enabled sorted
       /\ evaluated (with_new_dict process_event EVENT_OBJECT_CREATE 1
                       Demo.notepad (Demo.start Demo.rules [])).2
          = [] ++ sorted.
Proof.
  assert (H1 : get_enabled_rules Demo.rules = Ok Demo.enabled)
    by reflexivity.
  assert (H2 : Forall (fun r => rule_well_typed r = true) Demo.enabled).
  { repeat (apply List.Forall_cons; [vm_compute; reflexivity |]).
    apply List.Forall_nil. }
  split; [exact H1 |]. split; [exact H2 |].
  exact (proj1 (process_event_evaluates_every_enabled_rule
                  EVENT_OBJECT_CREATE 1 (fresh_ref (Demo.start Demo.rules []))
                  (new_object Demo.notepad (Demo.start Demo.rules [])).2
                  Demo.enabled H1 H2)).
Defined.

Lemma store_update_by_event_kind_witness :
  let s := (process_event EVENT_OBJECT_NAMECHANGE 1 2%nat Demo.shared).2 in
  let renamed := dupdate Demo.notepad [("title", VStr "Renamed")] in
  dget "title" renamed = Some (VStr "Renamed")
  /\ dget "class_name" renamed = Some (VStr "Notepad")
  /\ dget 1 (get_window_state s) = Some renamed
  /\ dget 2 (get_window_state s) = Some renamed
  /\ dget 3 (get_window_state s) = Some Demo.mail.
Proof.
  intros s renamed.
  split; [reflexivity |]. split; [reflexivity |].
  destruct (proj1 (proj2 (proj2 (store_update_by_event_kind
                                   EVENT_OBJECT_NAMECHANGE 1 2%nat Demo.shared)))
                  eq_refl) as (_ & _ & _ & Hall & _).
  split; [exact (Hall 1 0%nat eq_refl) |].
  split; [exact (Hall 2 0%nat eq_refl) | exact (Hall 3 1%nat eq_refl)].
Defined.

Lemma match_rule_condition_exactly_when_witness :
  trigger_matches Demo.rule_raise_notepad "CREATE" Demo.notepad.
Proof.
  apply (proj1 (proj1 (proj2 (match_rule_condition_exactly_when
                  Demo.rule_raise_notepad "CREATE" Demo.notepad
                  (Demo.start Demo.rules []))))).
  vm_compute. reflexivity.
Defined.

Lemma unknown_action_type_is_not_fatal_witness :
  let s := Demo.start Demo.rules [(1, Demo.notepad)] in
  let r := evaluate_rule "CREATE" Demo.notepad Demo.rule_unknown_action s in
  match_condition Demo.rule_unknown_action "CREATE" Demo.notepad = Ok true
  /\ in_names (VStr "SHAKE_WINDOW") valid_action_types = false
  /\ r.1 = Ok tt
  /\ rule_execution_counts (get_statistics r.2)
     = rule_execution_counts (get_statistics s).
Proof.
  intros s r.
  assert (H1 : match_condition Demo.rule_unknown_action "CREATE" Demo.notepad
               = Ok true) by reflexivity.
  assert (H2 : in_names (VStr "SHAKE_WINDOW") valid_action_types = false)
    by reflexivity.
  split; [exact H1 |]. split; [exact H2 |].
  pose proof (unknown_action_type_is_not_fatal "CREATE" Demo.notepad
                Demo.rule_unknown_action (VStr "Shake")
                (VDict [("type", VStr "SHAKE_WINDOW")]) (VStr "SHAKE_WINDOW")
                [] s H1 eq_refl eq_refl eq_refl H2) as (_ & H3 & H4 & _).
  split; [exact H3 | exact H4].
Defined.

Lemma sort_enabled_rules_stable_descending_witness :
  exists enabled sorted,
    get_enabled_rules Demo.rules = Ok enabled
    /\ sort_rules_by_priority enabled = Ok sorted
    /\ enabled = List.filter rule_enabled Demo.rules
    /\ Permutation enabled sorted
    /\ (forall i j r1 r2,
          sorted !! i = Some r1 -> sorted !! j = Some r2 ->
          priority_of r2 < priority_of r1 -> (i < j)%nat)
    /\ (forall p,
          List.filter (fun r => priority_of r =? p) sorted
          = List.filter (fun r => rule_enabled r && (priority_of r =? p))
                        Demo.rules).
Proof.
  apply sort_enabled_rules_stable_descending.
  - repeat (apply List.Forall_cons; [reflexivity |]). apply List.Forall_nil.
  - repeat (apply List.Forall_cons; [intros _; vm_compute; eauto |]).
    apply List.Forall_nil.
Defined.

Lemma load_rules_drops_malformed_rules_witness :
  exists loaded warnings,
    load_rules Demo.rules_file []
    = (Ok loaded,
       [] ++ warnings
          ++ [(INFO, "Loaded {len(validated_rules)} rules from {filepath}")])
    /\ (forall rule, In rule loaded <-> In rule
          [Demo.rule_raise_notepad; Demo.rule_bad_event;
           VStr "name enabled trigger action"; Demo.rule_unknown_action;
           VInt 3; Demo.rule_disabled; Demo.rule_close_duplicates]
          /\ well_formed_rule rule)
    /\ (length warnings + length loaded = 7)%nat.
Proof.
  destruct (load_rules_drops_malformed_rules
              (World := Demo.desktop)
              [Demo.rule_raise_notepad; Demo.rule_bad_event;
               VStr "name enabled trigger action"; Demo.rule_unknown_action;
               VInt 3; Demo.rule_disabled; Demo.rule_close_duplicates] [])
    as (loaded & warnings & Hl & Hin & _ & _ & Hlen & _).
  exists loaded, warnings. split; [exact Hl |]. split; [exact Hin | exact Hlen].
Defined.

Lemma set_polling_interval_clamps_witness :
  is_nan Demo.float_0_01 = false
  /\ exists lg',
       set_polling_interval Demo.float_0_01 (EventMonitor_init, [])
       = (Ok true, ({| running := false; polling_interval := float_0_1 |}, lg')).
Proof.
  split; [reflexivity |].
  destruct (set_polling_interval_clamps (World := Demo.desktop)
              Demo.float_0_01 EventMonitor_init [])
    as (lg' & Hs & _).
  exists lg'. exact Hs.
Defined.

Lemma process_event_is_total_witness :
  recognized_event 4242 = false
  /\ get_window_state
       (with_new_dict process_event 4242 2 Demo.browser
          (Demo.start Demo.rules [(1, Demo.notepad)])).2
     = [(1, Demo.notepad)].
Proof.
  split; [reflexivity |].
  apply (proj2 (proj2 (process_event_is_total 4242 2
                         (fresh_ref (Demo.start Demo.rules [(1, Demo.notepad)]))
                         (new_object Demo.browser
                            (Demo.start Demo.rules [(1, Demo.notepad)])).2))).
  reflexivity.
Defined.

Lemma refresh_window_state_keeps_entries_witness :
  let s := Demo.start [] [(7, Demo.notepad)] in
  dget 7 (get_window_state s) = Some Demo.notepad
  /\ (forall l w, enum_top_level_windows (os (out s)) = (Ok l, w) -> ~ In 7 l)
  /\ dget 7 (get_window_state (refresh_window_state s).2) = Some Demo.notepad.
Proof.
  intros s.
  assert (H1 : dget 7 (get_window_state s) = Some Demo.notepad) by reflexivity.
  assert (H2 : forall l w,
             enum_top_level_windows (os (out s)) = (Ok l, w) -> ~ In 7 l).
  { intros l w He. simpl in He. injection He as <- _. simpl. lia. }
  split; [exact H1 |]. split; [exact H2 |].
  exact (proj1 (proj2 (refresh_window_state_keeps_entries s 7 Demo.notepad H1)
                  H2)).
Defined.

(** ** The further theorems on the small desktop *)

(** The small cache is well formed. *)
Lemma small_cache_ok : LRUCache_ok Demo.small_cache.
Proof.
  split; [| split].
  - simpl. repeat (apply List.NoDup_cons; [simpl; intuition congruence |]).
    apply List.NoDup_nil.
  - simpl. repeat (apply List.NoDup_cons; [simpl; intuition congruence |]).
    apply List.NoDup_nil.
  - intros k. unfold dmem, Demo.small_cache. cbn [dget cache timestamps].
    repeat destruct (decide _); reflexivity.
Defined.

Lemma empty_cache_ok {V} (size : Z) (age : spec_float) :
  LRUCache_ok (LRUCache_init (V := V) size age).
Proof.
  split; [apply List.NoDup_nil | split; [apply List.NoDup_nil | reflexivity]].
Defined.

Lemma sort_rules_by_priority_idempotent_witness :
  exists sorted enabled,
    sort_rules_by_priority Demo.rules = Ok sorted
    /\ sort_rules_by_priority sorted = Ok sorted
    /\ get_enabled_rules Demo.rules = Ok enabled
    /\ get_enabled_rules sorted = sort_rules_by_priority enabled.
Proof.
  apply sort_rules_by_priority_idempotent.
  repeat (apply List.Forall_cons; [vm_compute; eauto |]). apply List.Forall_nil.
Defined.

Lemma toggle_rule_first_of_name_witness :
  let rules := [0; 1; 2; 3; 2]%nat in
  exists msg objs' enabled_rules,
    enable_rule rules (VStr "Hide browsers") (Demo.rule_objects, [])
    = (Ok true, (objs', [(INFO, msg)]))
    /\ rule_enabled (rule_at 2%nat Demo.rule_objects) = false
    /\ rule_enabled (rule_at 2%nat objs') = true
    /\ rule_at 3%nat objs' = Demo.rule_close_duplicates
    /\ get_enabled_rules (map (fun x => rule_at x objs') rules)
       = Ok enabled_rules
    /\ length enabled_rules = 5%nat.
Proof.
  intros rules.
  pose proof (toggle_rule_first_of_name true (VStr "Hide browsers")
                [0; 1]%nat 2%nat
                [("name", VStr "Hide browsers"); ("enabled", VBool false);
                 ("priority", VInt 50);
                 ("trigger", VDict [("event_type", VStr "CREATE");
                                    ("window_class", VStr "CabinetWClass")]);
                 ("action", VDict [("type", VStr "HIDE_WINDOW")])]
                [3; 2]%nat Demo.rule_objects []) as Hw.
  cbv zeta in Hw.
  destruct Hw as (msg & objs' & Hrun & Hat & _ & Hen & Hget).
  - repeat (apply List.Forall_cons; [reflexivity |]). apply List.Forall_nil.
  - repeat (apply List.Forall_cons; [vm_compute; reflexivity |]).
    apply List.Forall_nil.
  - reflexivity.
  - vm_compute. reflexivity.
  - exists msg, objs'. eexists.
    split; [exact Hrun |]. split; [reflexivity |].
    split; [exact (Hen 2%nat) |]. split; [exact (Hat 3%nat) |].
    split; [exact Hget |]. reflexivity.
Defined.

Lemma toggle_rule_unknown_name_witness :
  Forall (fun x => named (VStr "Nobody") (rule_at x Demo.rule_objects) = false)
         [0; 1; 2; 3]%nat
  /\ disable_rule [0; 1; 2; 3]%nat (VStr "Nobody") (Demo.rule_objects, [])
     = (Ok false,
        (Demo.rule_objects, [(WARNING, "Rule not found: {rule_name}")])).
Proof.
  assert (H1 : Forall (fun x => named (VStr "Nobody")
                                  (rule_at x Demo.rule_objects) = false)
                 [0; 1; 2; 3]%nat).
  { repeat (apply List.Forall_cons; [vm_compute; reflexivity |]).
    apply List.Forall_nil. }
  split; [exact H1 |].
  apply (proj2 (toggle_rule_unknown_name false (VStr "Nobody") [0; 1; 2; 3]%nat
                  Demo.rule_objects [] H1)).
  repeat (apply List.Forall_cons; [reflexivity |]). apply List.Forall_nil.
Defined.

Lemma LRUCache_methods_keep_the_keys_witness :
  exists s,
    LRUCache_set "exe_3" "C:\c.exe" (Demo.small_cache, Demo.at_times [float_5])
    = (Ok tt, s)
    /\ LRUCache_ok s.1.
Proof.
  exact (proj1 (proj2 (@LRUCache_methods_keep_the_keys _ _ Demo.readings
                         Demo.small_cache (Demo.at_times [float_5])
                         "exe_3" "C:\c.exe" small_cache_ok))).
Defined.

Lemma LRUCache_set_bounds_the_size_witness :
  LRUCache_size Demo.small_cache <= max_size Demo.small_cache
  /\ LRUCache_size
       (LRUCache_set "exe_3" "C:\c.exe"
          (Demo.small_cache, Demo.at_times [float_5])).2.1
     <= 2.
Proof.
  assert (H1 : LRUCache_size Demo.small_cache <= max_size Demo.small_cache)
    by (vm_compute; discriminate).
  split; [exact H1 |].
  exact (proj1 (proj2 (proj2 (@LRUCache_set_bounds_the_size _ _ Demo.readings
                                Demo.small_cache (Demo.at_times [float_5])
                                "exe_3" "C:\c.exe" small_cache_ok))) H1).
Defined.

Lemma LRUCache_get_after_set_witness :
  expired Demo.small_cache float_5 float_3 = false
  /\ exists c',
       (run! LRUCache_set "exe_3" "C:\c.exe" in LRUCache_get "exe_3")
         (Demo.small_cache, Demo.at_times [float_3; float_5])
       = (Ok (Some "C:\c.exe"), (c', Demo.at_times []))
       /\ dmem "exe_3" (cache c') = true.
Proof.
  split; [vm_compute; reflexivity |].
  destruct (@LRUCache_get_after_set _ _ Demo.readings
              Demo.small_cache (Demo.at_times [float_3; float_5])
              "exe_3" "C:\c.exe" float_3 [float_5] float_5 []
              small_cache_ok ltac:(simpl; lia) ltac:(reflexivity) ltac:(reflexivity))
    as (c' & Hrun & Hmem).
  exists c'. split; [exact Hrun | exact Hmem].
Defined.

Lemma LRUCache_evicts_least_recently_used_witness :
  cache (LRUCache_set "exe_3" "C:\c.exe"
           (Demo.small_cache, Demo.at_times [float_5])).2.1
  = [("exe_2", "C:\b.exe"); ("exe_3", "C:\c.exe")].
Proof.
  apply (proj1 (@LRUCache_evicts_least_recently_used _ _ Demo.readings
                  Demo.small_cache (Demo.at_times [float_5])
                  "exe_3" "C:\c.exe" "exe_1" "C:\a.exe" [("exe_2", "C:\b.exe")]
                  float_5 [] small_cache_ok ltac:(reflexivity) ltac:(reflexivity)));
    reflexivity.
Defined.

Lemma LRUCache_get_deletes_expired_witness :
  expired Demo.small_cache float_600 float_3 = true
  /\ exists c',
       LRUCache_get "exe_1" (Demo.small_cache, Demo.at_times [float_600])
       = (Ok None, (c', Demo.at_times []))
       /\ dget "exe_1" (cache c') = None
       /\ dget "exe_1" (timestamps c') = None.
Proof.
  assert (H1 : expired Demo.small_cache float_600 float_3 = true)
    by (vm_compute; reflexivity).
  split; [exact H1 |].
  destruct (proj1 (@LRUCache_get_deletes_expired _ _ Demo.readings
                     Demo.small_cache (Demo.at_times [float_600]) "exe_1"
                     float_600 [] small_cache_ok ltac:(reflexivity))
                  float_3 ltac:(reflexivity) H1)
    as (c' & Hget & Hc & Ht & _).
  exists c'. split; [exact Hget |]. split; [exact Hc | exact Ht].
Defined.

Lemma LRUCache_cleanup_expired_spec_witness :
  exists n c' o',
    LRUCache_cleanup_expired (Demo.small_cache, Demo.at_times [float_600])
    = (Ok n, (c', o'))
    /\ n = LRUCache_size Demo.small_cache - LRUCache_size c'
    /\ dget "exe_1" (cache c') = None.
Proof.
  destruct (@LRUCache_cleanup_expired_spec _ _ Demo.readings
              Demo.small_cache (Demo.at_times [float_600]) float_600 []
              small_cache_ok ltac:(reflexivity))
    as (n & c' & o' & Hrun & _ & Hn & Hold & _).
  exists n, c', o'. split; [exact Hrun |]. split; [exact Hn |].
  apply (Hold "exe_1" float_3); [reflexivity | vm_compute; reflexivity].
Defined.

Lemma cached_window_info_answers_from_the_cache_witness :
  exists gc2 gc3,
    cached_window_info Demo.look_up 1
      (ExpensiveOperationCache_init, Demo.at_times [float_3])
    = (Ok Demo.notepad, (gc2, Demo.at_times []))
    /\ cached_window_info Demo.not_called 1 (gc2, Demo.at_times [float_5])
       = (Ok Demo.notepad, (gc3, Demo.at_times [])).
Proof.
  destruct (cached_window_info_answers_from_the_cache
              Demo.look_up Demo.not_called 1
              ExpensiveOperationCache_init (Demo.at_times [float_3])
              ExpensiveOperationCache_init (Demo.at_times [float_3])
              Demo.notepad float_3 [] (Demo.at_times [float_5]) float_5 [])
    as (gc2 & gc3 & H1 & H2 & _).
  - apply empty_cache_ok.
  - simpl. lia.
  - reflexivity.
  - reflexivity.
  - reflexivity.
  - discriminate.
  - reflexivity.
  - reflexivity.
  - vm_compute. reflexivity.
  - exists gc2, gc3. split; [exact H1 | exact H2].
Defined.

Lemma cached_paths_skip_empty_results_witness :
  cached_executable_path Demo.no_path 7
    (ExpensiveOperationCache_init, Demo.at_times [float_3])
  = (Ok None, (ExpensiveOperationCache_init, Demo.at_times [float_3])).
Proof.
  apply (proj1 (proj1 (cached_paths_skip_empty_results
                         Demo.no_path 7
                         ExpensiveOperationCache_init (Demo.at_times [float_3])
                         ExpensiveOperationCache_init (Demo.at_times [float_3])
                         None ltac:(reflexivity))
                      ltac:(reflexivity) (empty_cache_ok _ _))).
  reflexivity.
Defined.

Lemma filter_target_windows_selects_witness :
  _filter_target_windows
    (VDict [("action", VDict [("type", VStr "MINIMIZE_OTHERS");
                              ("exclude_trigger_window", VBool true)])])
    Demo.notepad
    (Demo.start [] [(1, Demo.notepad); (2, Demo.browser); (3, Demo.mail)])
  = (Ok [Demo.browser; Demo.mail],
     Demo.start [] [(1, Demo.notepad); (2, Demo.browser); (3, Demo.mail)]).
Proof.
  exact (proj1 (filter_target_windows_selects
                  (VDict [("action", VDict [("type", VStr "MINIMIZE_OTHERS");
                                            ("exclude_trigger_window", VBool true)])])
                  [("type", VStr "MINIMIZE_OTHERS");
                   ("exclude_trigger_window", VBool true)]
                  Demo.notepad
                  (Demo.start [] [(1, Demo.notepad); (2, Demo.browser);
                                  (3, Demo.mail)])
                  ltac:(reflexivity))).
Defined.

Lemma handlers_apply_their_primitive_witness :
  exists success added,
    (_close_windows [Demo.browser; Demo.mail]
       {| os := {| inner := ([] : Demo.desktop); journal := [] |}; log := [] |}).1
    = Ok success
    /\ applied_to "close" [Demo.browser; Demo.mail] added
    /\ (success = true
        <-> Forall (fun c => is_ok (call_outcome c) = true) added
            /\ Exists succeeded added).
Proof.
  destruct (handlers_apply_their_primitive
              (World := Demo.desktop) _close_windows "close"
              [Demo.browser; Demo.mail]
              {| os := {| inner := ([] : Demo.desktop); journal := [] |};
                 log := [] |})
    as (success & added & Hrun & _ & Happ & Hiff & _).
  - right. left. reflexivity.
  - exists success, added. split; [exact Hrun |]. split; [exact Happ | exact Hiff].
Defined.

Lemma supported_actions_are_dispatched_witness :
  get_supported_actions = valid_action_types
  /\ log_adds (fun entry =>
                 entry <> (WARNING, "Unknown action type: {action_type}"))
       (out (Demo.start [] []))
       (perform_action (VStr "CLOSE_WINDOW") [Demo.browser] Demo.notepad
          (out (Demo.start [] []))).2.
Proof.
  apply (supported_actions_are_dispatched
           (VStr "CLOSE_WINDOW") [Demo.browser] Demo.notepad
           (out (Demo.start [] []))).
  reflexivity.
Defined.

Lemma snapshot_entries_have_titles_witness :
  enum_all [1; 2; 3] ∅ (out (Demo.start [] []))
  = (Ok Demo.current_snapshot, out (Demo.start [] []))
  /\ b_title {| b_hwnd := 2; b_title := "test"; b_class_name := "CabinetWClass" |}
     <> ""
  /\ In 2 [1; 2; 3].
Proof.
  assert (H1 : enum_all [1; 2; 3] ∅ (out (Demo.start [] []))
               = (Ok Demo.current_snapshot, out (Demo.start [] [])))
    by (vm_compute; reflexivity).
  split; [exact H1 |].
  exact (proj2 (snapshot_entries_have_titles
                  [1; 2; 3] (out (Demo.start [] [])) Demo.current_snapshot
                  (out (Demo.start [] [])) H1 2
                  {| b_hwnd := 2; b_title := "test";
                     b_class_name := "CabinetWClass" |}
                  ltac:(vm_compute; reflexivity))).
Defined.

Lemma poll_cycle_without_change_witness :
  poll_cycle Demo.record_event EventMonitor_init Demo.current_snapshot
    (Demo.start [] [])
  = (Ok (Demo.current_snapshot, polling_interval EventMonitor_init),
     Demo.start [] []).
Proof.
  apply (poll_cycle_without_change
           Demo.record_event EventMonitor_init Demo.current_snapshot
           (Demo.start [] []) [1; 2; 3] (Demo.start [] []) (Demo.start [] []));
    vm_compute; reflexivity.
Defined.

Lemma poll_cycle_reports_each_change_witness :
  exists s3 added,
    poll_cycle remember_event EventMonitor_init Demo.previous_snapshot
      (Demo.start [] [])
    = (Ok (Demo.current_snapshot, polling_interval EventMonitor_init), s3)
    /\ evaluated s3 = added
    /\ map remembered added
       = [Some (EVENT_OBJECT_CREATE, 2); Some (EVENT_OBJECT_DESTROY, 5);
          Some (EVENT_OBJECT_NAMECHANGE, 1)].
Proof.
  destruct (poll_cycle_reports_each_change
              EventMonitor_init Demo.previous_snapshot (Demo.start [] [])
              [1; 2; 3] (Demo.start [] []) Demo.current_snapshot
              (Demo.start [] []))
    as (s3 & added & Hrun & Hev & Hmap & _).
  - vm_compute. reflexivity.
  - vm_compute. reflexivity.
  - intros h w. exists (Demo.info_of h), w. split; [reflexivity |].
    unfold Demo.info_of.
    destruct (h =? 1); [discriminate |].
    destruct (h =? 2); [discriminate |].
    destruct (h =? 3); discriminate.
  - exists s3, added. split; [exact Hrun |]. split; [exact Hev |].
    rewrite Hmap. vm_compute. reflexivity.
Defined.

Lemma get_window_info_sound_witness :
  window_cache_sound ExpensiveOperationCache_init
  /\ exists info gc' o',
       win32_helpers.get_window_info 1
         (ExpensiveOperationCache_init, out (Demo.start [] []))
       = (Ok info, (gc', o'))
       /\ window_info_of 1 info
       /\ window_cache_sound gc'.
Proof.
  assert (H1 : window_cache_sound ExpensiveOperationCache_init).
  { split; [apply empty_cache_ok |]. intros hwnd info Hget. discriminate Hget. }
  split; [exact H1 |].
  exact (get_window_info_sound 1 ExpensiveOperationCache_init
           (out (Demo.start [] [])) H1).
Defined.
